(** * Kliply clipboard manager: history store, clipboard watcher and
      permission polling, embedded from the Python sources

    The development follows the modules of [src/Kliply]:

    - [hashlib.sha256] (used by [ClipboardContent.get_hash]) is module [SHA256];
    - [models.py] is module [Models];
    - [collections.deque] with [maxlen] is module [Deque];
    - [history_manager.py] is module [HistoryManager];
    - [clipboard_monitor.py] is module [ClipboardMonitor];
    - the permission logic of [main_application.py] is module [MainApplication];
    - the methods of [str] that the modules below call are module [PyStr];
    - [_generate_preview] of [models.py] is module [Preview], and the
      dataclasses [Settings] and [PermissionStatus] are modules of their
      names;
    - [settings_manager.py], [onboarding_manager.py] and
      [permission_manager.py] are modules [SettingsManager],
      [OnboardingManager] and [PermissionManager];
    - [hotkey_handler_macos.py] is module [HotkeyHandlerMacOS];
    - [state.py] and [daemon.py], the first version of the history, are
      module [Legacy].

    Python exceptions are explicit results, the [threading.Lock] of the
    history manager is the atomicity of one function application, and the
    calls to collaborators (dialogs, hotkey tap, menu bar, logger) are
    recorded in a trace kept next to the state. *)

From Stdlib Require Import ZArith QArith Strings.Byte Strings.Ascii.
From stdpp Require Import base strings numbers list.

Local Close Scope Q_scope.
Local Open Scope Z_scope.

(** ** Python values shared by all modules *)

(** [bytes] objects. *)
Abbreviation bytes := (list byte).

(** A Python [str] is a sequence of Unicode code points.  They are taken to
    be scalar values (no lone surrogates, at most [0x10FFFF]), the values on
    which [str.encode('utf-8')] is defined. *)
Abbreviation str := (list N).

Definition byte_of_Z (z : Z) : byte :=
  default x00 (Byte.of_N (Z.to_N (z `mod` 256))).

Definition Z_of_byte (b : byte) : Z := Z.of_N (Byte.to_N b).

(** [s.encode('utf-8')], one code point. *)
Definition utf8_encode_cp (cp : N) : bytes :=
  let c := Z.of_N cp in
  if c <? 128 then [byte_of_Z c]
  else if c <? 2048 then
    [byte_of_Z (Z.lor 192 (Z.shiftr c 6));
     byte_of_Z (Z.lor 128 (Z.land c 63))]
  else if c <? 65536 then
    [byte_of_Z (Z.lor 224 (Z.shiftr c 12));
     byte_of_Z (Z.lor 128 (Z.land (Z.shiftr c 6) 63));
     byte_of_Z (Z.lor 128 (Z.land c 63))]
  else
    [byte_of_Z (Z.lor 240 (Z.shiftr c 18));
     byte_of_Z (Z.lor 128 (Z.land (Z.shiftr c 12) 63));
     byte_of_Z (Z.lor 128 (Z.land (Z.shiftr c 6) 63));
     byte_of_Z (Z.lor 128 (Z.land c 63))].

Definition utf8_encode (s : str) : bytes := s ≫= utf8_encode_cp.

(** The texts on which [s.encode('utf-8')] returns: on a lone surrogate
    ([0xD800] to [0xDFFF]) it raises [UnicodeEncodeError]. *)
Definition encodable (s : str) : bool :=
  forallb (λ cp, ((cp <? 0xD800) || ((0xDFFF <? cp) && (cp <=? 0x10FFFF)))%N)
    s.

(** A [str] literal written with the characters of a Rocq string (ASCII). *)
Definition str_of_string (s : string) : str :=
  (λ b, Byte.to_N b) <$> String.list_byte_of_string s.

(** ** [hashlib.sha256]

    The round constants and the initial hash value are computed the way
    FIPS 180-4 defines them: the first 32 bits of the fractional parts of
    the cube roots (square roots) of the first 64 (8) primes. *)
Module SHA256.

Definition mask32 : Z := 2 ^ 32 - 1.
Definition add32 (x y : Z) : Z := Z.land (x + y) mask32.
Definition rotr (n x : Z) : Z :=
  Z.lor (Z.shiftr x n) (Z.land (Z.shiftl x (32 - n)) mask32).

Definition Ch (x y z : Z) : Z :=
  Z.lxor (Z.land x y) (Z.land (Z.lxor x mask32) z).
Definition Maj (x y z : Z) : Z :=
  Z.lxor (Z.lxor (Z.land x y) (Z.land x z)) (Z.land y z).
Definition Sigma0 (x : Z) : Z :=
  Z.lxor (Z.lxor (rotr 2 x) (rotr 13 x)) (rotr 22 x).
Definition Sigma1 (x : Z) : Z :=
  Z.lxor (Z.lxor (rotr 6 x) (rotr 11 x)) (rotr 25 x).
Definition sigma0 (x : Z) : Z :=
  Z.lxor (Z.lxor (rotr 7 x) (rotr 18 x)) (Z.shiftr x 3).
Definition sigma1 (x : Z) : Z :=
  Z.lxor (Z.lxor (rotr 17 x) (rotr 19 x)) (Z.shiftr x 10).

Definition is_prime (n : nat) : bool :=
  forallb (λ d, negb (Nat.eqb (n `mod` d) 0)) (seq 2 (n - 2)).

Definition primes64 : list Z :=
  Eval vm_compute in Z.of_nat <$> filter (λ n, is_prime n = true) (seq 2 310).

(** Largest [r] with [r ^ 3 <= n], found bit by bit from [2 ^ 35] down. *)
Fixpoint icbrt_from (bits : nat) (r n : Z) : Z :=
  match bits with
  | O => r
  | S b =>
      let r' := r + 2 ^ Z.of_nat b in
      icbrt_from b (if r' ^ 3 <=? n then r' else r) n
  end.

Definition K : list Z :=
  Eval vm_compute in
    (λ p, Z.land (icbrt_from 36 0 (p * 2 ^ 96)) mask32) <$> primes64.

Definition H0 : list Z :=
  Eval vm_compute in
    (λ p, Z.land (Z.sqrt (p * 2 ^ 64)) mask32) <$> take 8 primes64.

(** Padding: a [0x80] byte, zeros up to 56 modulo 64, the bit length on
    eight bytes, big endian. *)
Definition be_bytes (n : nat) (z : Z) : bytes :=
  (λ i, byte_of_Z (Z.shiftr z (8 * Z.of_nat i))) <$> rev (seq 0 n).

Definition pad (msg : bytes) : bytes :=
  let len := Z.of_nat (length msg) in
  msg ++ [x80] ++ replicate (Z.to_nat ((55 - len) `mod` 64)) x00
      ++ be_bytes 8 (8 * len).

Fixpoint be_words (n : nat) (bs : bytes) : list Z :=
  match n, bs with
  | S n', b0 :: b1 :: b2 :: b3 :: bs' =>
      (Z_of_byte b0 * 2 ^ 24 + Z_of_byte b1 * 2 ^ 16
       + Z_of_byte b2 * 2 ^ 8 + Z_of_byte b3) :: be_words n' bs'
  | _, _ => []
  end.

(** The message schedule: [win] holds [W t .. W (t+15)]. *)
Fixpoint schedule (n : nat) (win : list Z) : list Z :=
  match n, win with
  | S n', w0 :: rest =>
      let w16 :=
        add32 (add32 (sigma1 (nth 13 rest 0)) (nth 8 rest 0))
              (add32 (sigma0 (nth 0 rest 0)) w0) in
      w0 :: schedule n' (rest ++ [w16])
  | _, _ => []
  end.

Definition round (st : list Z) (kw : Z * Z) : list Z :=
  match st with
  | [a; b; c; d; e; f; g; h] =>
      let t1 := add32 (add32 (add32 h (Sigma1 e)) (Ch e f g))
                      (add32 kw.1 kw.2) in
      let t2 := add32 (Sigma0 a) (Maj a b c) in
      [add32 t1 t2; a; b; c; add32 d t1; e; f; g]
  | _ => st
  end.

Definition compress (h : list Z) (block : bytes) : list Z :=
  let w := schedule 64 (be_words 16 block) in
  zip_with add32 h (foldl round h (zip K w)).

Fixpoint blocks (n : nat) (h : list Z) (bs : bytes) : list Z :=
  match n with
  | O => h
  | S n' => blocks n' (compress h (take 64 bs)) (drop 64 bs)
  end.

Definition digest_words (msg : bytes) : list Z :=
  let p := pad msg in blocks (length p `div` 64)%nat H0 p.

Definition hex_digit (z : Z) : ascii :=
  ascii_of_nat (Z.to_nat (if z <? 10 then 48 + z else 87 + z)).

Definition hex_word (w : Z) : list ascii :=
  (λ i, hex_digit (Z.land (Z.shiftr w (4 * Z.of_nat i)) 15)) <$> rev (seq 0 8).

(** [hashlib.sha256(msg).hexdigest()] *)
Definition hexdigest (msg : bytes) : string :=
  String.string_of_list_ascii (digest_words msg ≫= hex_word).

End SHA256.

(** The digest is a black box for everything below. *)
Global Opaque SHA256.hexdigest.

(** ** Python exceptions *)

Inductive exn := ValueError | AttributeError.

(** The result of a method that mutates [self]: it returns, or raises with
    [self] as it was left at the raise. *)
Inductive outcome (S : Type) :=
  | Done (s : S)
  | Raised (e : exn) (s : S).
Arguments Done {S} s.
Arguments Raised {S} e s.

Definition state_of {S} (o : outcome S) : S :=
  match o with Done s | Raised _ s => s end.

(** Sequencing of mutating calls: the first exception ends the run. *)
Definition and_then {S} (o : outcome S) (k : S → outcome S) : outcome S :=
  match o with Done s => k s | Raised e s => Raised e s end.

(** ** [models.py] *)
Module Models.

Inductive ContentType := TEXT | IMAGE | RICH_TEXT | UNSUPPORTED.

(** [data: Union[str, bytes]] *)
Inductive payload :=
  | PStr (s : str)
  | PBytes (b : bytes).

(** The [preview] field is left out: it is derived from [data] at
    construction and read by the views only. *)
Record ClipboardContent := {
  content_type : ContentType;
  data : payload;
  timestamp : Z;
  size_bytes : Z;
}.

Definition _calculate_size (d : payload) : Z :=
  match d with
  | PStr s => Z.of_nat (length (utf8_encode s))
  | PBytes b => Z.of_nat (length b)
  end.

(** [__post_init__] *)
Definition __post_init__ (c : ClipboardContent) : ClipboardContent :=
  if size_bytes c =? 0 then
    {| content_type := content_type c; data := data c;
       timestamp := timestamp c; size_bytes := _calculate_size (data c) |}
  else c.

(** [ClipboardContent(content_type=.., data=.., timestamp=..)], with
    [size_bytes] left at its default [0]. *)
Definition new_content (t : ContentType) (d : payload) (ts : Z)
  : ClipboardContent :=
  __post_init__
    {| content_type := t; data := d; timestamp := ts; size_bytes := 0 |}.

Definition content_bytes (d : payload) : bytes :=
  match d with
  | PStr s => utf8_encode s
  | PBytes b => b
  end.

(** [get_hash]; its last branch, [str(self.data)], is for a [data] that is
    neither [str] nor [bytes], which the type of the field excludes.  On a
    text that is not [encodable] the method raises [UnicodeEncodeError], as
    [_calculate_size] does: [get_hash] and [_calculate_size] stand for
    the methods on the texts that are [encodable]. *)
Definition get_hash (c : ClipboardContent) : string :=
  SHA256.hexdigest (content_bytes (data c)).

End Models.
Import Models.

(** ** [collections.deque] with a [maxlen] *)
Module Deque.

Record deque (A : Type) := { items : list A; maxlen : Z }.
Arguments items {A} d.
Arguments maxlen {A} d.

(** [sys.maxsize], the largest [Py_ssize_t] of a 64-bit build. *)
Definition PY_SSIZE_T_MAX : Z := 2 ^ 63 - 1.

Section Ops.
Context {A : Type}.

(** [d.append(x)]: add on the right, then drop one on the left when the
    bound is exceeded. *)
Definition append (x : A) (d : deque A) : deque A :=
  let l := items d ++ [x] in
  {| items := if maxlen d <? Z.of_nat (length l) then drop 1 l else l;
     maxlen := maxlen d |}.

(** [d.appendleft(x)]: add on the left, then drop one on the right when the
    bound is exceeded. *)
Definition appendleft (x : A) (d : deque A) : deque A :=
  let l := x :: items d in
  {| items := if maxlen d <? Z.of_nat (length l) then removelast l else l;
     maxlen := maxlen d |}.

(** [deque(xs, maxlen=n)]: [ValueError] for a negative [n], else the
    elements of [xs] appended one by one.  The bound is a [Py_ssize_t]:
    above [PY_SSIZE_T_MAX] (and below its opposite) the constructor raises
    [OverflowError], which [new] leaves out. *)
Definition new (xs : list A) (n : Z) : option (deque A) :=
  if n <? 0 then None
  else Some (foldl (λ d x, append x d) {| items := []; maxlen := n |} xs).

Definition clear (d : deque A) : deque A :=
  {| items := []; maxlen := maxlen d |}.

End Ops.
End Deque.
Import Deque.

(** [l[:n]] *)
Definition slice_to {A} (l : list A) (n : Z) : list A :=
  if n <? 0 then take (Z.to_nat (Z.of_nat (length l) + n)) l
  else take (Z.to_nat n) l.

(** ** [history_manager.py] *)
Module HistoryManager.

Record t := {
  _max_depth : Z;
  _history : deque ClipboardContent;
}.

(** [HistoryManager(max_depth)] *)
Definition __init__ (max_depth : Z) : option t :=
  d ← Deque.new [] max_depth;
  Some {| _max_depth := max_depth; _history := d |}.

(** The [for i, item in enumerate(self._history)] loop with its [break]. *)
Definition existing_index (content_hash : string) (l : list ClipboardContent)
  : option nat :=
  fst <$> list_find (λ item, get_hash item = content_hash) l.

Definition add_item (content : ClipboardContent) (self : t) : outcome t :=
  let content_hash := get_hash content in
  match existing_index content_hash (items (_history self)) with
  | Some i =>
      let temp_list := delete i (items (_history self)) in
      match Deque.new temp_list (_max_depth self) with
      | None => Raised ValueError self
      | Some d =>
          Done {| _max_depth := _max_depth self;
                  _history := appendleft content d |}
      end
  | None =>
      Done {| _max_depth := _max_depth self;
              _history := appendleft content (_history self) |}
  end.

Definition get_history (self : t) : list ClipboardContent :=
  items (_history self).

Definition set_max_depth (depth : Z) (self : t) : outcome t :=
  let self1 := {| _max_depth := depth; _history := _history self |} in
  let l := items (_history self1) in
  if Z.of_nat (length l) >? depth then
    let temp_list := slice_to l depth in
    match Deque.new temp_list depth with
    | None => Raised ValueError self1
    | Some d => Done {| _max_depth := depth; _history := d |}
    end
  else
    match Deque.new l depth with
    | None => Raised ValueError self1
    | Some d => Done {| _max_depth := depth; _history := d |}
    end.

Definition clear_history (self : t) : t :=
  {| _max_depth := _max_depth self; _history := Deque.clear (_history self) |}.

Definition get_item (index : Z) (self : t) : option ClipboardContent :=
  if (0 <=? index) && (index <? Z.of_nat (length (items (_history self))))
  then items (_history self) !! Z.to_nat index
  else None.

(** [snapshot()] of the specification is [get_history]; the store after a
    run of [add_item] calls: *)
Definition add_items (cs : list ClipboardContent) (self : t) : outcome t :=
  foldl (λ o c, and_then o (add_item c)) (Done self) cs.

End HistoryManager.

Abbreviation HM := HistoryManager.t.

(** ** Calls into collaborators that may raise *)

Inductive call (A : Type) :=
  | Returns (a : A)
  | Throws.
Arguments Returns {A} a.
Arguments Throws {A}.

(** Records of the [logging] module: the level and which message of the
    source it is. *)
Inductive level := DEBUG | INFO | WARNING | ERROR.

Inductive message :=
  | Initialized                (* "ClipboardMonitor initialized successfully" *)
  | MonitoringStarted          (* "Clipboard monitoring started" *)
  | ClipboardAccessError       (* "Clipboard access error: .." *)
  | ContentTooLarge (content_size : Z)
      (* "Clipboard content too large (.. bytes), exceeds limit of .. " *)
  | AddedClipboardItem (content_type : Models.ContentType)
      (* "Added clipboard item: .." *)
  | ErrorDuringMonitoring      (* "Error during clipboard monitoring: .." *)
  | ErrorConvertingImage       (* "Error converting image data: .." *)
  | ErrorExtractingContent     (* "Error extracting clipboard content: .." *)
  | UnsupportedContentType.
      (* "Clipboard contains unsupported content type" *)

Definition log_record : Type := level * message.

(** ** [clipboard_monitor.py] *)
Module ClipboardMonitor.

Definition MAX_CONTENT_SIZE_BYTES : Z := 10 * 1024 * 1024.

(** What the methods of the [QMimeData] read from the clipboard answer when
    they are called.  [imageData] answers [None] or an image, and an image
    is what its conversion to PNG bytes through a [QBuffer] gives. *)
Record QMimeData := {
  hasImage : call bool;
  imageData : call (option (call bytes));
  hasHtml : call bool;
  html : call str;
  hasText : call bool;
  text : call str;
}.

Record t := {
  _history_manager : HM;
  _last_hash : option string;
  _logger : list log_record;
}.

(** [ClipboardMonitor(history_manager)] *)
Definition __init__ (history_manager : HM) : t :=
  {| _history_manager := history_manager; _last_hash := None;
     _logger := [(INFO, Initialized)] |}.

Definition extracted : Type :=
  (option ContentType * option payload) * list log_record.

(** The handler of the outer [try]: [logger.error(..)],
    [return None, None]. *)
Definition extraction_failed : extracted :=
  ((None, None), [(ERROR, ErrorExtractingContent)]).

(** The handler of the [try] around the conversion of the image:
    [logger.error(..)], [return None, None]. *)
Definition conversion_failed : extracted :=
  ((None, None), [(ERROR, ErrorConvertingImage)]).

Definition unsupported : extracted :=
  ((Some UNSUPPORTED, Some (PStr (str_of_string "[Unsupported Content]"))),
   [(DEBUG, UnsupportedContentType)]).

(** Truth value of a [str]: non-empty. *)
Definition truthy (s : str) : bool :=
  match s with [] => false | _ => true end.

(** From [if mime_data.hasText():] on. *)
Definition extract_text (mime_data : QMimeData) : extracted :=
  match hasText mime_data with
  | Throws => extraction_failed
  | Returns true =>
      match text mime_data with
      | Throws => extraction_failed
      | Returns s =>
          if truthy s then ((Some TEXT, Some (PStr s)), []) else unsupported
      end
  | Returns false => unsupported
  end.

(** From [if mime_data.hasHtml():] on. *)
Definition extract_html (mime_data : QMimeData) : extracted :=
  match hasHtml mime_data with
  | Throws => extraction_failed
  | Returns true =>
      match html mime_data with
      | Throws => extraction_failed
      | Returns h =>
          if truthy h then ((Some RICH_TEXT, Some (PStr h)), [])
          else extract_text mime_data
      end
  | Returns false => extract_text mime_data
  end.

Definition _extract_content (mime_data : QMimeData) : extracted :=
  match hasImage mime_data with
  | Throws => extraction_failed
  | Returns true =>
      match imageData mime_data with
      | Throws => extraction_failed
      | Returns (Some image) =>
          match image with
          | Returns image_bytes =>
              ((Some IMAGE, Some (PBytes image_bytes)), [])
          | Throws => conversion_failed
          end
      | Returns None => extract_html mime_data
      end
  | Returns false => extract_html mime_data
  end.

Definition _estimate_content_size (content_type : ContentType) (d : payload)
  : Z :=
  match content_type with
  | IMAGE => match d with PBytes b => Z.of_nat (length b) | _ => 0 end
  | TEXT | RICH_TEXT =>
      match d with PStr s => Z.of_nat (length (utf8_encode s)) | _ => 0 end
  | UNSUPPORTED => 0
  end.

Definition log (r : list log_record) (self : t) : t :=
  {| _history_manager := _history_manager self; _last_hash := _last_hash self;
     _logger := _logger self ++ r |}.

(** [clipboard] is what [self._clipboard.mimeData()] gives at this
    notification and [now] is [datetime.now()].  The entry is constructed
    before its fingerprint is compared with the last one.  On a text that
    is not [encodable] its construction raises, which the outer handler
    catches: the definition is for the contents that are encodable. *)
Definition _on_clipboard_change
    (clipboard : call (option QMimeData)) (now : Z) (self : t) : t :=
  match clipboard with
  | Throws => log [(WARNING, ClipboardAccessError)] self
  | Returns None => self
  | Returns (Some mime_data) =>
      let '(content, lg) := _extract_content mime_data in
      let self := log lg self in
      match content with
      | (Some content_type, Some d) =>
          let content_size := _estimate_content_size content_type d in
          if content_size >? MAX_CONTENT_SIZE_BYTES
          then log [(WARNING, ContentTooLarge content_size)] self
          else
            let content := new_content content_type d now in
            let current_hash := get_hash content in
            if decide (Some current_hash = _last_hash self) then self
            else
              match HistoryManager.add_item content (_history_manager self) with
              | Done hm =>
                  {| _history_manager := hm; _last_hash := Some current_hash;
                     _logger :=
                       _logger self ++ [(DEBUG, AddedClipboardItem content_type)] |}
              | Raised _ hm =>
                  {| _history_manager := hm; _last_hash := Some current_hash;
                     _logger := _logger self ++ [(ERROR, ErrorDuringMonitoring)] |}
              end
      | _ => self
      end
  end.

Definition force_check := _on_clipboard_change.

(** [start()]: the initial state of the clipboard is captured. *)
Definition start (clipboard : call (option QMimeData)) (now : Z) (self : t)
  : t :=
  log [(INFO, MonitoringStarted)] (_on_clipboard_change clipboard now self).

End ClipboardMonitor.

(** ** The permission logic of [main_application.py] *)
Module MainApplication.

(** Calls made to collaborators, in the order they are made. *)
Inductive event :=
  | CheckAccessibility (granted : bool)
      (* permission_manager.check_accessibility_permission() and its answer *)
  | UnregisterHotkey      (* hotkey_handler.unregister_hotkey() *)
  | UpdateMenu            (* menu_bar_manager.update_menu() *)
  | ShowPermissionDialog  (* ui_manager.show_permission_dialog("accessibility") *)
  | ShowRestartDialog.    (* ui_manager.show_restart_dialog() *)

Global Instance event_eq_dec : EqDecision event.
Proof. solve_decision. Defined.

(** What the process sees outside itself during one timer tick: the clock
    ([time.time()], in seconds, as a rational) and whether the process is
    trusted for accessibility ([AXIsProcessTrusted()]).  Both are read as
    often as the code reads them and have one value for the whole tick. *)
Record world := { now : Q; trusted : bool }.

(** The attributes of [MainApplication] that the permission logic reads and
    writes.  [_initial_permission_state] does not exist before
    [_start_permission_monitoring] has run: [None]. *)
Record t := {
  _hotkey_registered : bool;
  _permission_monitoring_active : bool;
  _permission_check_count : Z;
  _max_permission_checks : Z;
  _permission_last_check_time : Q;
  _revocation_check_interval : Q;
  _revocation_last_check_time : Q;
  _last_permission_state : bool;
  _permission_revocation_notified : bool;
  _initial_permission_state : option bool;
  trace : list event;
}.

(** Attribute assignments. *)
Definition set_hotkey_registered (v : bool) (s : t) : t :=
  {| _hotkey_registered := v;
     _permission_monitoring_active := _permission_monitoring_active s;
     _permission_check_count := _permission_check_count s;
     _max_permission_checks := _max_permission_checks s;
     _permission_last_check_time := _permission_last_check_time s;
     _revocation_check_interval := _revocation_check_interval s;
     _revocation_last_check_time := _revocation_last_check_time s;
     _last_permission_state := _last_permission_state s;
     _permission_revocation_notified := _permission_revocation_notified s;
     _initial_permission_state := _initial_permission_state s;
     trace := trace s |}.

Definition set_permission_monitoring_active (v : bool) (s : t) : t :=
  {| _hotkey_registered := _hotkey_registered s;
     _permission_monitoring_active := v;
     _permission_check_count := _permission_check_count s;
     _max_permission_checks := _max_permission_checks s;
     _permission_last_check_time := _permission_last_check_time s;
     _revocation_check_interval := _revocation_check_interval s;
     _revocation_last_check_time := _revocation_last_check_time s;
     _last_permission_state := _last_permission_state s;
     _permission_revocation_notified := _permission_revocation_notified s;
     _initial_permission_state := _initial_permission_state s;
     trace := trace s |}.

Definition set_permission_check_count (v : Z) (s : t) : t :=
  {| _hotkey_registered := _hotkey_registered s;
     _permission_monitoring_active := _permission_monitoring_active s;
     _permission_check_count := v;
     _max_permission_checks := _max_permission_checks s;
     _permission_last_check_time := _permission_last_check_time s;
     _revocation_check_interval := _revocation_check_interval s;
     _revocation_last_check_time := _revocation_last_check_time s;
     _last_permission_state := _last_permission_state s;
     _permission_revocation_notified := _permission_revocation_notified s;
     _initial_permission_state := _initial_permission_state s;
     trace := trace s |}.

Definition set_max_permission_checks (v : Z) (s : t) : t :=
  {| _hotkey_registered := _hotkey_registered s;
     _permission_monitoring_active := _permission_monitoring_active s;
     _permission_check_count := _permission_check_count s;
     _max_permission_checks := v;
     _permission_last_check_time := _permission_last_check_time s;
     _revocation_check_interval := _revocation_check_interval s;
     _revocation_last_check_time := _revocation_last_check_time s;
     _last_permission_state := _last_permission_state s;
     _permission_revocation_notified := _permission_revocation_notified s;
     _initial_permission_state := _initial_permission_state s;
     trace := trace s |}.

Definition set_permission_last_check_time (v : Q) (s : t) : t :=
  {| _hotkey_registered := _hotkey_registered s;
     _permission_monitoring_active := _permission_monitoring_active s;
     _permission_check_count := _permission_check_count s;
     _max_permission_checks := _max_permission_checks s;
     _permission_last_check_time := v;
     _revocation_check_interval := _revocation_check_interval s;
     _revocation_last_check_time := _revocation_last_check_time s;
     _last_permission_state := _last_permission_state s;
     _permission_revocation_notified := _permission_revocation_notified s;
     _initial_permission_state := _initial_permission_state s;
     trace := trace s |}.

Definition set_revocation_last_check_time (v : Q) (s : t) : t :=
  {| _hotkey_registered := _hotkey_registered s;
     _permission_monitoring_active := _permission_monitoring_active s;
     _permission_check_count := _permission_check_count s;
     _max_permission_checks := _max_permission_checks s;
     _permission_last_check_time := _permission_last_check_time s;
     _revocation_check_interval := _revocation_check_interval s;
     _revocation_last_check_time := v;
     _last_permission_state := _last_permission_state s;
     _permission_revocation_notified := _permission_revocation_notified s;
     _initial_permission_state := _initial_permission_state s;
     trace := trace s |}.

Definition set_last_permission_state (v : bool) (s : t) : t :=
  {| _hotkey_registered := _hotkey_registered s;
     _permission_monitoring_active := _permission_monitoring_active s;
     _permission_check_count := _permission_check_count s;
     _max_permission_checks := _max_permission_checks s;
     _permission_last_check_time := _permission_last_check_time s;
     _revocation_check_interval := _revocation_check_interval s;
     _revocation_last_check_time := _revocation_last_check_time s;
     _last_permission_state := v;
     _permission_revocation_notified := _permission_revocation_notified s;
     _initial_permission_state := _initial_permission_state s;
     trace := trace s |}.

Definition set_permission_revocation_notified (v : bool) (s : t) : t :=
  {| _hotkey_registered := _hotkey_registered s;
     _permission_monitoring_active := _permission_monitoring_active s;
     _permission_check_count := _permission_check_count s;
     _max_permission_checks := _max_permission_checks s;
     _permission_last_check_time := _permission_last_check_time s;
     _revocation_check_interval := _revocation_check_interval s;
     _revocation_last_check_time := _revocation_last_check_time s;
     _last_permission_state := _last_permission_state s;
     _permission_revocation_notified := v;
     _initial_permission_state := _initial_permission_state s;
     trace := trace s |}.

Definition set_initial_permission_state (v : bool) (s : t) : t :=
  {| _hotkey_registered := _hotkey_registered s;
     _permission_monitoring_active := _permission_monitoring_active s;
     _permission_check_count := _permission_check_count s;
     _max_permission_checks := _max_permission_checks s;
     _permission_last_check_time := _permission_last_check_time s;
     _revocation_check_interval := _revocation_check_interval s;
     _revocation_last_check_time := _revocation_last_check_time s;
     _last_permission_state := _last_permission_state s;
     _permission_revocation_notified := _permission_revocation_notified s;
     _initial_permission_state := Some v;
     trace := trace s |}.

(** A call to a collaborator is appended to the trace. *)
Definition emit (e : event) (s : t) : t :=
  {| _hotkey_registered := _hotkey_registered s;
     _permission_monitoring_active := _permission_monitoring_active s;
     _permission_check_count := _permission_check_count s;
     _max_permission_checks := _max_permission_checks s;
     _permission_last_check_time := _permission_last_check_time s;
     _revocation_check_interval := _revocation_check_interval s;
     _revocation_last_check_time := _revocation_last_check_time s;
     _last_permission_state := _last_permission_state s;
     _permission_revocation_notified := _permission_revocation_notified s;
     _initial_permission_state := _initial_permission_state s;
     trace := trace s ++ [e] |}.

(** [permission_manager.check_accessibility_permission()] *)
Definition check_accessibility_permission (w : world) (s : t) : bool * t :=
  (trusted w, emit (CheckAccessibility (trusted w)) s).

(** The attributes as [__init__] leaves them; a fresh [PermissionManager]
    has [status.accessibility = False]. *)
Definition __init__ : t :=
  {| _hotkey_registered := false;
     _permission_monitoring_active := false;
     _permission_check_count := 0;
     _max_permission_checks := 0;
     _permission_last_check_time := 0%Q;
     _revocation_check_interval := 5%Q;
     _revocation_last_check_time := 0%Q;
     _last_permission_state := false;
     _permission_revocation_notified := false;
     _initial_permission_state := None;
     trace := [] |}.

(** [success] is the answer of [hotkey_handler.register_hotkey(hotkey)]. *)
Definition _register_hotkey (success : bool) (s : t) : bool * t :=
  if success then
    (true,
     set_permission_revocation_notified false
       (set_last_permission_state true (set_hotkey_registered true s)))
  else (false, set_hotkey_registered false s).

Definition _start_permission_monitoring (w : world) (s : t) : t :=
  if _permission_monitoring_active s then s
  else
    let '(initial, s) := check_accessibility_permission w s in
    let s := set_initial_permission_state initial s in
    let s := set_permission_check_count 0 s in
    let s := set_max_permission_checks 30 s in
    let s := set_permission_monitoring_active true s in
    let s := set_permission_last_check_time (now w) s in
    set_last_permission_state initial s.

Definition _handle_permission_loss (w : world) (s : t) : t :=
  let s := set_last_permission_state false s in
  let s :=
    if _hotkey_registered s
    then set_hotkey_registered false (emit UnregisterHotkey s)
    else s in
  let s := emit UpdateMenu s in
  let s :=
    if negb (_permission_revocation_notified s)
    then emit ShowPermissionDialog (set_permission_revocation_notified true s)
    else s in
  if negb (_permission_monitoring_active s)
  then _start_permission_monitoring w s
  else s.

Definition _check_permission_revocation (w : world) (s : t) : t :=
  let '(has_permission, s) := check_accessibility_permission w s in
  if has_permission then
    set_permission_revocation_notified false (set_last_permission_state true s)
  else if _last_permission_state s then _handle_permission_loss w s
  else set_last_permission_state false s.

Definition _check_permission_status (w : world) (s : t) : outcome t :=
  let s := set_permission_check_count (_permission_check_count s + 1) s in
  let '(has_permission, s) := check_accessibility_permission w s in
  match _initial_permission_state s with
  | None => Raised AttributeError s
  | Some initial =>
      let s := set_last_permission_state has_permission s in
      let s :=
        if has_permission then set_permission_revocation_notified false s
        else s in
      if has_permission && negb initial then
        Done (emit ShowRestartDialog
                (set_permission_monitoring_active false s))
      else if _permission_check_count s >=? _max_permission_checks s then
        Done (set_permission_monitoring_active false s)
      else Done s
  end.

Definition _on_timer_tick (w : world) (s : t) : outcome t :=
  if _permission_monitoring_active s then
    if Qle_bool 2 (now w - _permission_last_check_time s) then
      _check_permission_status w (set_permission_last_check_time (now w) s)
    else Done s
  else if Qle_bool (_revocation_check_interval s)
                   (now w - _revocation_last_check_time s) then
    Done (_check_permission_revocation w
            (set_revocation_last_check_time (now w) s))
  else Done s.

(** [register_hotkey_delayed] of [run]. *)
Definition register_hotkey_delayed (success : bool) (w : world) (s : t) : t :=
  let '(hotkey_registered, s) := _register_hotkey success s in
  if negb hotkey_registered then
    let '(has_permissions, s) := check_accessibility_permission w s in
    if negb has_permissions then _start_permission_monitoring w s else s
  else s.

(** A run of timer ticks; an exception that leaves the slot ends the run. *)
Definition ticks (ws : list world) (s : t) : outcome t :=
  foldl (λ o w, and_then o (_on_timer_tick w)) (Done s) ws.

(** Number of [show_permission_dialog] calls so far. *)
Definition revocation_notices (s : t) : nat :=
  length (filter (λ e, e = ShowPermissionDialog) (trace s)).

(** Number of [show_restart_dialog] calls so far. *)
Definition restart_notices (s : t) : nat :=
  length (filter (λ e, e = ShowRestartDialog) (trace s)).

End MainApplication.

(** ** The history manager in the running application

    The history manager is one object, held by the clipboard monitor and by
    the user interface.  Three handlers reach it: the clipboard
    notification, the depth slider of the settings
    ([ui_manager._on_depth_changed]) and the Clear History item of the menu
    ([menu_bar_manager._on_clear_history]). *)
Module Application.

(** [settings_manager.set_clipboard_depth] accepts a depth between 5 and
    100, and only an accepted depth is applied to the history manager. *)
Definition _on_depth_changed (value : Z) (hm : HM) : outcome HM :=
  if (5 <=? value) && (value <=? 100)
  then HistoryManager.set_max_depth value hm
  else Done hm.

Definition _on_clear_history (hm : HM) : HM :=
  HistoryManager.clear_history hm.

Inductive action :=
  | Notification (clipboard : call (option ClipboardMonitor.QMimeData))
                 (now : Z)
  | DepthChanged (value : Z)
  | ClearHistory.

Definition with_history_manager (hm : HM) (m : ClipboardMonitor.t)
  : ClipboardMonitor.t :=
  {| ClipboardMonitor._history_manager := hm;
     ClipboardMonitor._last_hash := ClipboardMonitor._last_hash m;
     ClipboardMonitor._logger := ClipboardMonitor._logger m |}.

Definition step (m : ClipboardMonitor.t) (a : action) : ClipboardMonitor.t :=
  match a with
  | Notification clipboard now =>
      ClipboardMonitor._on_clipboard_change clipboard now m
  | DepthChanged value =>
      with_history_manager
        (state_of (_on_depth_changed value
                     (ClipboardMonitor._history_manager m))) m
  | ClearHistory =>
      with_history_manager
        (_on_clear_history (ClipboardMonitor._history_manager m)) m
  end.

Definition run (acts : list action) (m : ClipboardMonitor.t)
  : ClipboardMonitor.t :=
  foldl step m acts.

End Application.

(** ** Methods of [str] *)
Module PyStr.

(** [c.isspace()] of one code point: the white space of Unicode, which is
    also what [split()] and [strip()] without an argument look for. *)
Definition isspace (c : N) : bool :=
  (((9 <=? c) && (c <=? 13)) || ((28 <=? c) && (c <=? 32))
   || (c =? 133) || (c =? 160) || (c =? 5760)
   || ((8192 <=? c) && (c <=? 8202))
   || (c =? 8232) || (c =? 8233) || (c =? 8239) || (c =? 8287)
   || (c =? 12288))%N.

(** Truth value of a [str]. *)
Definition truthy (s : str) : bool :=
  match s with [] => false | _ => true end.

Fixpoint lstrip (s : str) : str :=
  match s with
  | c :: s' => if isspace c then lstrip s' else s
  | [] => []
  end.

Definition rstrip (s : str) : str := reverse (lstrip (reverse s)).

(** [s.strip()] *)
Definition strip (s : str) : str := rstrip (lstrip s).

(** [s.split()]: the maximal runs of code points that are not white space;
    [word] is the run being read. *)
Fixpoint split_from (word : str) (s : str) : list str :=
  match s with
  | [] => if truthy word then [word] else []
  | c :: s' =>
      if isspace c
      then (if truthy word then word :: split_from [] s' else split_from [] s')
      else split_from (word ++ [c]) s'
  end.

Definition split (s : str) : list str := split_from [] s.

(** [sep.join(l)] *)
Fixpoint join (sep : str) (l : list str) : str :=
  match l with
  | [] => []
  | [w] => w
  | w :: l' => w ++ sep ++ join sep l'
  end.

(** [s.split(sep)] for a separator of one code point. *)
Fixpoint split_on (sep : N) (s : str) : list str :=
  match s with
  | [] => [[]]
  | c :: s' =>
      if (c =? sep)%N then [] :: split_on sep s'
      else match split_on sep s' with
           | p :: ps => (c :: p) :: ps
           | [] => [[c]]
           end
  end.

Definition startswith (p s : str) : bool := bool_decide (take (length p) s = p).

(** [s.replace(old, new)] for a non-empty [old]: the occurrences are found
    from the left and do not overlap; [skip] code points of an occurrence
    are still to be passed over. *)
Fixpoint replace_from (skip : nat) (old new : str) (s : str) : str :=
  match s with
  | [] => []
  | c :: s' =>
      match skip with
      | S n => replace_from n old new s'
      | O =>
          if startswith old s
          then new ++ replace_from (length old - 1) old new s'
          else c :: replace_from 0 old new s'
      end
  end.

Definition replace (old new : str) (s : str) : str := replace_from 0 old new s.

(** [s[:n] + "..."] when [len(s) > n], else [s]. *)
Definition ellipsis (n : nat) (s : str) : str :=
  if (n <? length s)%nat then take n s ++ str_of_string "..." else s.

(** [str.lower] on the letters of ASCII; the handlers below take the
    function as a parameter. *)
Definition ascii_lower (s : str) : str :=
  (λ c, if ((65 <=? c) && (c <=? 90))%N then (c + 32)%N else c) <$> s.

End PyStr.

(** ** [models.py]: the preview of an entry *)
Module Preview.

(** The three patterns that [_generate_preview] removes. *)
Inductive pattern :=
  | SCRIPT   (* r'<script[^>]*>.*?</script>', DOTALL | IGNORECASE *)
  | STYLE    (* r'<style[^>]*>.*?</style>', DOTALL | IGNORECASE *)
  | TAG.     (* r'<[^>]+>' *)

Section WithRe.
(** [re_sub p s] is [re.sub(p, '', s, flags=..)]. *)
Variable re_sub : pattern → str → str.

(** The plain text of a piece of HTML, up to the cleaning of the white
    space. *)
Definition plain_text (html : str) : str :=
  let text := re_sub SCRIPT html in
  let text := re_sub STYLE text in
  let text := re_sub TAG text in
  let text :=
    PyStr.replace (str_of_string "&gt;") (str_of_string ">")
      (PyStr.replace (str_of_string "&lt;") (str_of_string "<")
         (PyStr.replace (str_of_string "&amp;") (str_of_string "&")
            (PyStr.replace (str_of_string "&nbsp;") (str_of_string " ")
               text))) in
  PyStr.strip (PyStr.join (str_of_string " ") (PyStr.split text)).

Definition _generate_preview (t : ContentType) (d : payload) : str :=
  match t with
  | TEXT =>
      match d with
      | PStr s => PyStr.ellipsis 50 s
      | PBytes _ => []
      end
  | RICH_TEXT =>
      match d with
      | PStr s =>
          let text := plain_text s in
          if (50 <? length text)%nat
          then take 50 text ++ str_of_string "..."
          else if PyStr.truthy text then text
               else str_of_string "[Rich Text]"
      | PBytes _ => []
      end
  | IMAGE => str_of_string "[Image]"
  | UNSUPPORTED => str_of_string "[Unsupported Content]"
  end.

End WithRe.
End Preview.

(** ** [models.py]: [Settings] and [PermissionStatus] *)
Module Settings.

Record t := {
  clipboard_depth : Z;
  hotkey : str;
  launch_at_login : bool;
  first_launch_complete : bool;
}.

(** [Settings()] *)
Definition default : t :=
  {| clipboard_depth := 10; hotkey := str_of_string "Cmd+Shift+V";
     launch_at_login := false; first_launch_complete := false |}.

Definition validate (self : t) : bool :=
  if negb ((5 <=? clipboard_depth self) && (clipboard_depth self <=? 100))
  then false
  else if negb (PyStr.truthy (hotkey self)) then false
  else true.

End Settings.

Module PermissionStatus.

Record t := { accessibility : bool; last_checked : Z }.

Definition all_granted (self : t) : bool := accessibility self.

End PermissionStatus.

(** ** [settings_manager.py] *)
Module SettingsManager.

Record t := { _settings : Settings.t }.

(** [SettingsManager(settings)]; [None] is the default of the argument. *)
Definition __init__ (settings : option Settings.t) : t :=
  let s := match settings with Some s => s | None => Settings.default end in
  if negb (Settings.validate s) then {| _settings := Settings.default |}
  else {| _settings := s |}.

Definition get_clipboard_depth (self : t) : Z :=
  Settings.clipboard_depth (_settings self).

Definition set_clipboard_depth (depth : Z) (self : t) : bool * t :=
  if negb ((5 <=? depth) && (depth <=? 100)) then (false, self)
  else
    (true,
     {| _settings :=
          {| Settings.clipboard_depth := depth;
             Settings.hotkey := Settings.hotkey (_settings self);
             Settings.launch_at_login :=
               Settings.launch_at_login (_settings self);
             Settings.first_launch_complete :=
               Settings.first_launch_complete (_settings self) |} |}).

Definition get_hotkey (self : t) : str := Settings.hotkey (_settings self).

(** The [ValueError] is logged by the handler of the method and raised
    again. *)
Definition set_hotkey (hotkey : str) (self : t) : outcome t :=
  if negb (PyStr.truthy (PyStr.strip hotkey)) then Raised ValueError self
  else
    Done
      {| _settings :=
           {| Settings.clipboard_depth :=
                Settings.clipboard_depth (_settings self);
              Settings.hotkey := hotkey;
              Settings.launch_at_login :=
                Settings.launch_at_login (_settings self);
              Settings.first_launch_complete :=
                Settings.first_launch_complete (_settings self) |} |}.

Definition get_launch_at_login (self : t) : bool :=
  Settings.launch_at_login (_settings self).

Definition set_launch_at_login (enabled : bool) (self : t) : t :=
  {| _settings :=
       {| Settings.clipboard_depth := Settings.clipboard_depth (_settings self);
          Settings.hotkey := Settings.hotkey (_settings self);
          Settings.launch_at_login := enabled;
          Settings.first_launch_complete :=
            Settings.first_launch_complete (_settings self) |} |}.

(** A copy of the settings. *)
Definition get_settings (self : t) : Settings.t :=
  {| Settings.clipboard_depth := Settings.clipboard_depth (_settings self);
     Settings.hotkey := Settings.hotkey (_settings self);
     Settings.launch_at_login := Settings.launch_at_login (_settings self);
     Settings.first_launch_complete :=
       Settings.first_launch_complete (_settings self) |}.

End SettingsManager.

(** ** [onboarding_manager.py] and the welcome screen of [run] *)
Module OnboardingManager.

Definition should_show_welcome (settings_manager : SettingsManager.t) : bool :=
  negb (Settings.first_launch_complete
          (SettingsManager.get_settings settings_manager)).

(** The flag is set in the settings that the manager holds. *)
Definition mark_welcome_complete (settings_manager : SettingsManager.t)
  : SettingsManager.t :=
  let s := SettingsManager._settings settings_manager in
  {| SettingsManager._settings :=
       {| Settings.clipboard_depth := Settings.clipboard_depth s;
          Settings.hotkey := Settings.hotkey s;
          Settings.launch_at_login := Settings.launch_at_login s;
          Settings.first_launch_complete := true |} |}.

(** [MainApplication._show_welcome_if_needed]; [should_mark_complete] is
    the answer of [ui_manager.show_welcome_screen()], asked only when the
    screen is shown.  The first component tells whether it was shown. *)
Definition _show_welcome_if_needed (should_mark_complete : bool)
    (settings_manager : SettingsManager.t) : bool * SettingsManager.t :=
  if should_show_welcome settings_manager then
    if should_mark_complete
    then (true, mark_welcome_complete settings_manager)
    else (true, settings_manager)
  else (false, settings_manager).

End OnboardingManager.

(** ** The depth slider of [ui_manager.py] with the settings *)
Module UIManager.

Definition _on_depth_changed (value : Z)
    (settings_manager : SettingsManager.t) (history_manager : HM)
  : SettingsManager.t * outcome HM :=
  let '(accepted, settings_manager) :=
    SettingsManager.set_clipboard_depth value settings_manager in
  if accepted
  then (settings_manager, HistoryManager.set_max_depth value history_manager)
  else (settings_manager, Done history_manager).

End UIManager.

(** ** The settings and the history manager in the running application *)
Module Desktop.

(** What the user does to the settings, besides what reaches the history
    manager. *)
Inductive action :=
  | History (a : Application.action)
  | SetHotkey (hotkey : str)
  | SetLaunchAtLogin (enabled : bool)
  | ShowWelcomeIfNeeded (should_mark_complete : bool).

Record t := {
  settings_manager : SettingsManager.t;
  clipboard_monitor : ClipboardMonitor.t;
}.

(** [MainApplication.__init__]: default settings, and a history manager of
    the depth of the settings. *)
Definition __init__ : option t :=
  let settings_manager := SettingsManager.__init__ None in
  history_manager ←
    HistoryManager.__init__
      (SettingsManager.get_clipboard_depth settings_manager);
  Some {| settings_manager := settings_manager;
          clipboard_monitor := ClipboardMonitor.__init__ history_manager |}.

Definition step (s : t) (a : action) : t :=
  match a with
  | History (Application.DepthChanged value) =>
      let '(sm, o) :=
        UIManager._on_depth_changed value (settings_manager s)
          (ClipboardMonitor._history_manager (clipboard_monitor s)) in
      {| settings_manager := sm;
         clipboard_monitor :=
           Application.with_history_manager (state_of o)
             (clipboard_monitor s) |}
  | History a =>
      {| settings_manager := settings_manager s;
         clipboard_monitor := Application.step (clipboard_monitor s) a |}
  | SetHotkey hotkey =>
      {| settings_manager :=
           state_of (SettingsManager.set_hotkey hotkey (settings_manager s));
         clipboard_monitor := clipboard_monitor s |}
  | SetLaunchAtLogin enabled =>
      {| settings_manager :=
           SettingsManager.set_launch_at_login enabled (settings_manager s);
         clipboard_monitor := clipboard_monitor s |}
  | ShowWelcomeIfNeeded should_mark_complete =>
      {| settings_manager :=
           (OnboardingManager._show_welcome_if_needed should_mark_complete
              (settings_manager s)).2;
         clipboard_monitor := clipboard_monitor s |}
  end.

Definition run (acts : list action) (s : t) : t := foldl step s acts.

End Desktop.

(** ** [permission_manager.py] *)
Module PermissionManager.

Record t := { status : PermissionStatus.t }.

(** [PermissionManager()]; [now] is [datetime.now()]. *)
Definition __init__ (now : Z) : t :=
  {| status := {| PermissionStatus.accessibility := false;
                  PermissionStatus.last_checked := now |} |}.

(** [probe] is what the import and the call of [AXIsProcessTrusted] give:
    an answer, or an exception, which the method catches. *)
Definition check_accessibility_permission (probe : call bool) (now : Z)
    (self : t) : bool * t :=
  match probe with
  | Returns has_permission =>
      (has_permission,
       {| status := {| PermissionStatus.accessibility := has_permission;
                       PermissionStatus.last_checked := now |} |})
  | Throws => (false, self)
  end.

Definition get_permission_status (probe : call bool) (now : Z) (self : t)
  : PermissionStatus.t * t :=
  let self := (check_accessibility_permission probe now self).2 in
  (status self, self).

Definition is_degraded_mode (self : t) : bool :=
  negb (PermissionStatus.all_granted (status self)).

(** A run of checks, each with what its probe gives and its time. *)
Definition checks (probes : list (call bool * Z)) (self : t) : t :=
  foldl (λ self p, (check_accessibility_permission p.1 p.2 self).2) self probes.

End PermissionManager.

(** ** [hotkey_handler_macos.py] *)
Module HotkeyHandlerMacOS.

(** The modifier masks of Quartz. *)
Definition kCGEventFlagMaskShift : Z := 0x20000.
Definition kCGEventFlagMaskControl : Z := 0x40000.
Definition kCGEventFlagMaskAlternate : Z := 0x80000.
Definition kCGEventFlagMaskCommand : Z := 0x100000.

(** [bool(n)] of an [int]. *)
Definition nonzero (n : Z) : bool := negb (n =? 0).

Record t := {
  _hotkey : option str;
  _event_tap : bool;           (* [self._event_tap is not None] *)
  _is_popup_visible : bool;
  _required_modifiers : Z;
  _required_key : option str;
  callbacks : nat;             (* calls of [self._callback] so far *)
}.

(** [HotkeyHandlerMacOS(callback)] *)
Definition __init__ : t :=
  {| _hotkey := None; _event_tap := false; _is_popup_visible := false;
     _required_modifiers := 0; _required_key := None; callbacks := 0 |}.

(** What a key-down event answers: [CGEventGetFlags(event)], and the
    characters of the [NSEvent] made from it ([None] when there is no
    [NSEvent] or it has no characters).  [Throws] stands for an exception
    of one of the calls, which the handler catches. *)
Record key_event := {
  flags : call Z;
  charactersIgnoringModifiers : call (option str);
}.

Section WithLower.
(** [lower] is [str.lower]. *)
Variable lower : str → str.

(** The loop of [_parse_hotkey] over the parts; [None] is its
    [return (None, None)]. *)
Fixpoint parse_parts (parts : list str) (modifiers : Z) (key : option str)
  : option (Z * option str) :=
  match parts with
  | [] => Some (modifiers, key)
  | part :: parts' =>
      if bool_decide (part ∈ [str_of_string "cmd"; str_of_string "command"])
      then parse_parts parts' (Z.lor modifiers (Z.shiftl 1 0)) key
      else if bool_decide (part = str_of_string "shift")
      then parse_parts parts' (Z.lor modifiers (Z.shiftl 1 1)) key
      else if bool_decide
                (part ∈ [str_of_string "ctrl"; str_of_string "control"])
      then parse_parts parts' (Z.lor modifiers (Z.shiftl 1 2)) key
      else if bool_decide
                (part ∈ [str_of_string "alt"; str_of_string "option"])
      then parse_parts parts' (Z.lor modifiers (Z.shiftl 1 3)) key
      else if (length part =? 1)%nat
      then parse_parts parts' modifiers (Some part)
      else None
  end.

(** The parts of a hotkey: [[p.strip().lower() for p in hotkey.split('+')]] *)
Definition hotkey_parts (hotkey : str) : list str :=
  (λ p, lower (PyStr.strip p)) <$> PyStr.split_on 43 hotkey.

(** [(modifiers, key)], or [None] for [(None, None)]. *)
Definition _parse_hotkey (hotkey : str) : option (Z * str) :=
  if negb (PyStr.truthy hotkey) then None
  else
    match parse_parts (hotkey_parts hotkey) 0 None with
    | Some (modifiers, Some key) => Some (modifiers, key)
    | _ => None
    end.

(** The test of [_event_callback] on the modifiers. *)
Definition modifiers_match (required : Z) (flags : Z) : bool :=
  let cmd_pressed := nonzero (Z.land flags kCGEventFlagMaskCommand) in
  let shift_pressed := nonzero (Z.land flags kCGEventFlagMaskShift) in
  let ctrl_pressed := nonzero (Z.land flags kCGEventFlagMaskControl) in
  let alt_pressed := nonzero (Z.land flags kCGEventFlagMaskAlternate) in
  let m := true in
  let m := if nonzero (Z.land required (Z.shiftl 1 0))
           then m && cmd_pressed else m in
  let m := if nonzero (Z.land required (Z.shiftl 1 1))
           then m && shift_pressed else m in
  let m := if nonzero (Z.land required (Z.shiftl 1 2))
           then m && ctrl_pressed else m in
  let m := if nonzero (Z.land required (Z.shiftl 1 3))
           then m && alt_pressed else m in
  m.

(** [_event_callback]: the event is always passed through, so the state
    of the handler is all that the method changes.  An exception of the
    callback is caught after the flag is set. *)
Definition _event_callback (event : key_event) (self : t) : t :=
  match flags event with
  | Throws => self
  | Returns fl =>
      match charactersIgnoringModifiers event with
      | Throws | Returns None | Returns (Some []) => self
      | Returns (Some (c :: _)) =>
          let char := lower [c] in
          if modifiers_match (_required_modifiers self) fl
             && bool_decide (Some char = _required_key self)
          then
            if negb (_is_popup_visible self) then
              {| _hotkey := _hotkey self; _event_tap := _event_tap self;
                 _is_popup_visible := true;
                 _required_modifiers := _required_modifiers self;
                 _required_key := _required_key self;
                 callbacks := S (callbacks self) |}
            else self
          else self
      end
  end.

(** The handler over a run of key events. *)
Definition key_events (events : list key_event) (self : t) : t :=
  foldl (λ self event, _event_callback event self) self events.

(** What [register_hotkey] finds outside the handler. *)
Record environment := {
  PYOBJC_AVAILABLE : bool;
  trusted : call bool;          (* AXIsProcessTrustedWithOptions(..) *)
  event_tap_created : call bool; (* CGEventTapCreate(..) is not None *)
  event_tap_enabled : call ()    (* the run loop source is added and the
                                    tap enabled *)
}.

Definition register_hotkey (env : environment) (hotkey : str) (self : t)
  : bool * t :=
  if negb (PYOBJC_AVAILABLE env) then (false, self)
  else
    match trusted env with
    | Throws | Returns false => (false, self)
    | Returns true =>
        match _parse_hotkey hotkey with
        | None => (false, self)
        | Some (modifiers, key) =>
            let self :=
              {| _hotkey := Some hotkey; _event_tap := _event_tap self;
                 _is_popup_visible := _is_popup_visible self;
                 _required_modifiers := modifiers;
                 _required_key := Some key;
                 callbacks := callbacks self |} in
            match event_tap_created env with
            | Returns true =>
                let self :=
                  {| _hotkey := _hotkey self; _event_tap := true;
                     _is_popup_visible := _is_popup_visible self;
                     _required_modifiers := _required_modifiers self;
                     _required_key := _required_key self;
                     callbacks := callbacks self |} in
                match event_tap_enabled env with
                | Returns _ => (true, self)
                | Throws => (false, self)
                end
            | Returns false =>
                (false,
                 {| _hotkey := _hotkey self; _event_tap := false;
                    _is_popup_visible := _is_popup_visible self;
                    _required_modifiers := _required_modifiers self;
                    _required_key := _required_key self;
                    callbacks := callbacks self |})
            | Throws => (false, self)
            end
        end
    end.

End WithLower.

Definition reset_popup_state (self : t) : t :=
  {| _hotkey := _hotkey self; _event_tap := _event_tap self;
     _is_popup_visible := false;
     _required_modifiers := _required_modifiers self;
     _required_key := _required_key self;
     callbacks := callbacks self |}.

End HotkeyHandlerMacOS.

(** ** The first version of the history: [state.py] and [daemon.py] *)
Module Legacy.

Definition MAX_ITEMS : nat := 20.

(** [l.remove(x)]: the first occurrence is removed. *)
Fixpoint remove_first (x : str) (l : list str) : list str :=
  match l with
  | [] => []
  | y :: l' => if decide (y = x) then l' else y :: remove_first x l'
  end.

(** [add_to_memory(text)] on the list [clipboard_history]. *)
Definition add_to_memory (text : str) (clipboard_history : list str)
  : list str :=
  let h :=
    if bool_decide (text ∈ clipboard_history)
    then remove_first text clipboard_history
    else clipboard_history in
  let h := text :: h in
  if (MAX_ITEMS <? length h)%nat then take MAX_ITEMS h else h.

(** The state of [start_watcher] between two rounds of its loop. *)
Record watcher := { last_clip : str; clipboard_history : list str }.

(** [start_watcher] before its loop, with the history of a fresh module. *)
Definition start_watcher : watcher :=
  {| last_clip := []; clipboard_history := [] |}.

(** One round of the loop; [paste] is what [pyperclip.paste()] gives, an
    exception being passed over. *)
Definition round (w : watcher) (paste : call str) : watcher :=
  match paste with
  | Throws => w
  | Returns current_clip =>
      if negb (bool_decide (current_clip = last_clip w))
         && PyStr.truthy (PyStr.strip current_clip)
      then {| last_clip := current_clip;
              clipboard_history :=
                add_to_memory current_clip (clipboard_history w) |}
      else w
  end.

Definition rounds (pastes : list (call str)) (w : watcher) : watcher :=
  foldl round w pastes.

End Legacy.

(** ** Vocabulary of the statements *)

(** The fingerprints of a sequence of entries. *)
Definition hashes (l : list ClipboardContent) : list string := get_hash <$> l.

(** The invariant of the store: the depth is a valid [maxlen], the deque is
    bounded by it, and no two entries share a fingerprint. *)
Definition store_ok (hm : HM) : Prop :=
  0 ≤ HistoryManager._max_depth hm
  ∧ maxlen (HistoryManager._history hm) = HistoryManager._max_depth hm
  ∧ Z.of_nat (length (HistoryManager.get_history hm))
    ≤ HistoryManager._max_depth hm
  ∧ NoDup (hashes (HistoryManager.get_history hm)).

(** The states of a store: the one that [HistoryManager(k)] builds, and
    those that the mutating operations return. *)
Inductive reachable : HM → Prop :=
  | reachable_init k hm :
      HistoryManager.__init__ k = Some hm → reachable hm
  | reachable_add_item c hm hm' :
      reachable hm → HistoryManager.add_item c hm = Done hm' → reachable hm'
  | reachable_set_max_depth depth hm hm' :
      reachable hm → HistoryManager.set_max_depth depth hm = Done hm' →
      reachable hm'
  | reachable_clear_history hm :
      reachable hm → reachable (HistoryManager.clear_history hm).

(** An entry put in front of the entries that have another fingerprint. *)
Definition promote (c : ClipboardContent) (l : list ClipboardContent)
  : list ClipboardContent :=
  c :: filter (λ d, get_hash d ≠ get_hash c) l.

(** The entries of a run of additions, most recent first, one per
    fingerprint. *)
Definition recency (cs : list ClipboardContent) : list ClipboardContent :=
  foldl (λ acc c, promote c acc) [] cs.

(** The payload of an entry is within the ceiling of the watcher. *)
Definition within_ceiling (c : ClipboardContent) : Prop :=
  _calculate_size (data c) ≤ ClipboardMonitor.MAX_CONTENT_SIZE_BYTES.

(** A call of the image branch of the extraction raises: [hasImage()],
    [imageData()], or the conversion of the image to bytes. *)
Definition image_branch_fails (m : ClipboardMonitor.QMimeData) : Prop :=
  ClipboardMonitor.hasImage m = Throws
  ∨ (ClipboardMonitor.hasImage m = Returns true
     ∧ (ClipboardMonitor.imageData m = Throws
        ∨ ClipboardMonitor.imageData m = Returns (Some Throws))).

(** The payload is [bytes], or a text on which [encode('utf-8')]
    returns. *)
Definition encodable_payload (d : payload) : bool :=
  match d with
  | PStr s => encodable s
  | PBytes _ => true
  end.

(** The methods of the entry that encode its text return. *)
Definition encodable_entry (c : ClipboardContent) : Prop :=
  encodable_payload (data c) = true.

(** The entry that [_on_clipboard_change] constructs at a notification
    ([content = ClipboardContent(..)]), when it gets there: the clipboard
    was read, the extraction gave a content and the size check passed. *)
Definition constructed_entry
    (clipboard : call (option ClipboardMonitor.QMimeData)) (now : Z)
  : option ClipboardContent :=
  match clipboard with
  | Returns (Some mime_data) =>
      match (ClipboardMonitor._extract_content mime_data).1 with
      | (Some content_type, Some d) =>
          if ClipboardMonitor._estimate_content_size content_type d
             >? ClipboardMonitor.MAX_CONTENT_SIZE_BYTES
          then None
          else Some (new_content content_type d now)
      | _ => None
      end
  | _ => None
  end.

Section PermissionVocabulary.
Import MainApplication.

(** The process is not trusted for accessibility at this tick. *)
Definition denied (w : world) : Prop := trusted w = false.

(** The ticks of [ws] at which a check of the active polling is due, the
    last check having been made at [t0]: a tick is due two seconds or more
    after the last check. *)
Fixpoint due_checks (t0 : Q) (ws : list world) : nat :=
  match ws with
  | [] => 0
  | w :: ws' =>
      if Qle_bool 2 (now w - t0) then S (due_checks (now w) ws')
      else due_checks t0 ws'
  end.

(** [_initial_permission_state] exists whenever the active polling runs. *)
Definition initial_known (s : t) : Prop :=
  _permission_monitoring_active s = true →
  is_Some (_initial_permission_state s).

(** No revocation is pending a notice: the permission was last seen denied,
    or the notice of this episode was given. *)
Definition settled (s : t) : Prop :=
  (_last_permission_state s = false ∨ _permission_revocation_notified s = true)
  ∧ initial_known s.

(** The state of an active polling that started on a denied permission. *)
Definition polling (s : t) : Prop :=
  _max_permission_checks s = 30
  ∧ _initial_permission_state s = Some false
  ∧ _last_permission_state s = false
  ∧ 0 ≤ _permission_check_count s ≤ 30
  ∧ (_permission_monitoring_active s = true → _permission_check_count s < 30).

End PermissionVocabulary.

(** [c] is the entry of [cs] that was added last among those of its
    fingerprint. *)
Definition latest_of_fingerprint (cs : list ClipboardContent)
    (c : ClipboardContent) : Prop :=
  ∃ i : nat,
    cs !! i = Some c
    ∧ ∀ (j : nat) c',
        (i < j)%nat → cs !! j = Some c' → get_hash c' ≠ get_hash c.

(** The payload of an entry is of the kind that its type announces, a text
    is not empty, and the size is that of the payload. *)
Definition well_formed (c : ClipboardContent) : Prop :=
  size_bytes c = _calculate_size (data c)
  ∧ match content_type c, data c with
    | TEXT, PStr s | RICH_TEXT, PStr s => s ≠ []
    | IMAGE, PBytes _ => True
    | UNSUPPORTED, PStr s => s = str_of_string "[Unsupported Content]"
    | _, _ => False
    end.

(** Handlers that record nothing: the menu and settings handlers, and a
    notification at which the clipboard cannot be read or holds nothing. *)
Definition records_nothing (a : Application.action) : Prop :=
  match a with
  | Application.Notification (Returns (Some _)) _ => False
  | _ => True
  end.

Section ApplicationVocabulary.
Import MainApplication.

(** The states of the application: as [__init__] leaves the attributes,
    after the attempt of [run] to register the hotkey, and after a timer
    tick that returned. *)
Inductive app_reachable : MainApplication.t → Prop :=
  | app_reachable_init : app_reachable __init__
  | app_reachable_register success w s :
      app_reachable s → app_reachable (register_hotkey_delayed success w s)
  | app_reachable_tick w s s' :
      app_reachable s → _on_timer_tick w s = Done s' → app_reachable s'.

(** The counter of the active polling is within its budget. *)
Definition within_budget (s : MainApplication.t) : Prop :=
  0 ≤ _permission_check_count s ≤ 30
  ∧ (_permission_monitoring_active s = true →
     _permission_check_count s < 30 ∧ _max_permission_checks s = 30).

End ApplicationVocabulary.

(** No two code points of white space next to each other. *)
Fixpoint single_spaced (s : str) : bool :=
  match s with
  | c1 :: s' =>
      match s' with
      | c2 :: _ =>
          negb (PyStr.isspace c1 && PyStr.isspace c2) && single_spaced s'
      | [] => true
      end
  | [] => true
  end.

(** A word of [split]: not empty and without white space. *)
Definition word (w : str) : Prop :=
  w ≠ [] ∧ Forall (λ c, PyStr.isspace c = false) w.

(** The words of a text joined by one space. *)
Record clean (s : str) : Prop := {
  clean_spaces : ∀ c, c ∈ s → PyStr.isspace c = true → c = 32%N;
  clean_single : single_spaced s = true;
  clean_head : ∀ c, head s = Some c → PyStr.isspace c = false;
  clean_last : ∀ c, last s = Some c → PyStr.isspace c = false;
}.

(** The handlers of a run that reach the history manager. *)
Definition history_actions (acts : list Desktop.action)
  : list Application.action :=
  omap (λ a, match a with Desktop.History a => Some a | _ => None end) acts.

(** The depth of the store is the depth of the settings. *)
Definition in_step (s : Desktop.t) : Prop :=
  HistoryManager._max_depth
    (ClipboardMonitor._history_manager (Desktop.clipboard_monitor s))
  = SettingsManager.get_clipboard_depth (Desktop.settings_manager s)
  ∧ 5 ≤ SettingsManager.get_clipboard_depth (Desktop.settings_manager s) ≤ 100
  ∧ store_ok
      (ClipboardMonitor._history_manager (Desktop.clipboard_monitor s)).

(** The names of the modifier that bit [i] of the mask of a hotkey stands
    for. *)
Definition modifier_names (i : Z) : list str :=
  if i =? 0 then [str_of_string "cmd"; str_of_string "command"]
  else if i =? 1 then [str_of_string "shift"]
  else if i =? 2 then [str_of_string "ctrl"; str_of_string "control"]
  else if i =? 3 then [str_of_string "alt"; str_of_string "option"]
  else [].

(** [part] is one of the names of a modifier. *)
Definition is_modifier (part : str) : Prop :=
  part ∈ modifier_names 0 ++ modifier_names 1 ++ modifier_names 2
         ++ modifier_names 3.

Global Instance is_modifier_dec part : Decision (is_modifier part).
Proof. unfold is_modifier. apply _. Defined.

(** The bit of the flags of a key event that tells that the modifier of
    bit [i] of the mask is held. *)
Definition quartz_bit (i : Z) : Z :=
  if i =? 0 then 20 else if i =? 1 then 17 else if i =? 2 then 18 else 19.

Section HotkeyVocabulary.
Import HotkeyHandlerMacOS.

(** The only change that a key event makes to the handler: the popup is
    marked visible and the callback was called once more. *)
Definition fired (self : HotkeyHandlerMacOS.t) : HotkeyHandlerMacOS.t :=
  {| _hotkey := _hotkey self; _event_tap := _event_tap self;
     _is_popup_visible := true;
     _required_modifiers := _required_modifiers self;
     _required_key := _required_key self;
     callbacks := S (callbacks self) |}.

End HotkeyVocabulary.

(** ** Sample data of the examples *)

Definition text_entry (s : string) (ts : Z) : ClipboardContent :=
  new_content TEXT (PStr (str_of_string s)) ts.

Definition rich_entry (s : string) (ts : Z) : ClipboardContent :=
  new_content RICH_TEXT (PStr (str_of_string s)) ts.

(** A store of depth [k] that holds [l]. *)
Definition store_of (k : Z) (l : list ClipboardContent) : HM :=
  {| HistoryManager._max_depth := k;
     HistoryManager._history := {| items := l; maxlen := k |} |}.

Definition store_CBA : HM :=
  store_of 10 [text_entry "C" 3; text_entry "B" 2; text_entry "A" 1].

Definition seven_entries : list ClipboardContent :=
  [text_entry "E1" 1; text_entry "E2" 2; text_entry "E3" 3; text_entry "E4" 4;
   text_entry "E5" 5; text_entry "E6" 6; text_entry "E7" 7].

(** A clipboard that holds plain text only. *)
Definition text_clipboard (s : string) : ClipboardMonitor.QMimeData :=
  {| ClipboardMonitor.hasImage := Returns false;
     ClipboardMonitor.imageData := Returns None;
     ClipboardMonitor.hasHtml := Returns false;
     ClipboardMonitor.html := Returns [];
     ClipboardMonitor.hasText := Returns true;
     ClipboardMonitor.text := Returns (str_of_string s) |}.

(** A clipboard that holds an image whose conversion raises, and text. *)
Definition malformed_image_with_text : ClipboardMonitor.QMimeData :=
  {| ClipboardMonitor.hasImage := Returns true;
     ClipboardMonitor.imageData := Returns (Some Throws);
     ClipboardMonitor.hasHtml := Returns false;
     ClipboardMonitor.html := Returns [];
     ClipboardMonitor.hasText := Returns true;
     ClipboardMonitor.text := Returns (str_of_string "hello") |}.

(** A clipboard that holds an image of [n] zero bytes. *)
Definition image_clipboard (n : nat) : ClipboardMonitor.QMimeData :=
  {| ClipboardMonitor.hasImage := Returns true;
     ClipboardMonitor.imageData := Returns (Some (Returns (replicate n x00)));
     ClipboardMonitor.hasHtml := Returns false;
     ClipboardMonitor.html := Returns [];
     ClipboardMonitor.hasText := Returns false;
     ClipboardMonitor.text := Returns [] |}.

Definition fresh_monitor (k : Z) : ClipboardMonitor.t :=
  ClipboardMonitor.__init__ (store_of k []).

Definition sample_run : list Application.action :=
  [Application.Notification (Returns (Some (text_clipboard "hello"))) 1;
   Application.Notification (Returns (Some malformed_image_with_text)) 2;
   Application.Notification Throws 3;
   Application.DepthChanged 5;
   Application.ClearHistory;
   Application.Notification (Returns (Some (text_clipboard "world"))) 6;
   Application.DepthChanged (-1)].

(** The world [tm] seconds after the start of the clock. *)
Definition at_second (tm : Z) (granted : bool) : MainApplication.world :=
  {| MainApplication.now := inject_Z tm; MainApplication.trusted := granted |}.

(** The application once the hotkey is registered. *)
Definition registered_app : MainApplication.t :=
  MainApplication.register_hotkey_delayed true (at_second 0 true)
    MainApplication.__init__.

(** The application once the registration of the hotkey failed on a denied
    permission: the active polling runs. *)
Definition awaiting_grant_app : MainApplication.t :=
  MainApplication.register_hotkey_delayed false (at_second 0 false)
    MainApplication.__init__.

(** Denied ticks every two seconds, from second [2] on. *)
Definition denied_ticks (n : nat) : list MainApplication.world :=
  (λ i, at_second (2 * Z.of_nat i) false) <$> seq 1 n.

(** A store of depth 3 that is full. *)
Definition store_full : HM :=
  store_of 3 [text_entry "C" 3; text_entry "B" 2; text_entry "A" 1].

(** A clipboard that holds nothing that the watcher supports. *)
Definition empty_clipboard : ClipboardMonitor.QMimeData :=
  {| ClipboardMonitor.hasImage := Returns false;
     ClipboardMonitor.imageData := Returns None;
     ClipboardMonitor.hasHtml := Returns false;
     ClipboardMonitor.html := Returns [];
     ClipboardMonitor.hasText := Returns false;
     ClipboardMonitor.text := Returns [] |}.

Definition unsupported_run : list Application.action :=
  [Application.Notification (Returns (Some empty_clipboard)) 1;
   Application.Notification (Returns (Some (text_clipboard "hello"))) 2;
   Application.Notification (Returns (Some empty_clipboard)) 3].

(** A machine on which the registration of the hotkey succeeds. *)
Definition trusting_environment : HotkeyHandlerMacOS.environment :=
  {| HotkeyHandlerMacOS.PYOBJC_AVAILABLE := true;
     HotkeyHandlerMacOS.trusted := Returns true;
     HotkeyHandlerMacOS.event_tap_created := Returns true;
     HotkeyHandlerMacOS.event_tap_enabled := Returns () |}.

(** The handler once the default hotkey is registered. *)
Definition registered_handler : HotkeyHandlerMacOS.t :=
  (HotkeyHandlerMacOS.register_hotkey PyStr.ascii_lower trusting_environment
     (str_of_string "Cmd+Shift+V") HotkeyHandlerMacOS.__init__).2.

(** * Theorems *)

(** ** Known digests and encodings *)

Example sha256_empty :
  SHA256.hexdigest [] =
  "e3b0c44298fc1c149afbf4c8996fb92427ae41e4649b934ca495991b7852b855"%string.
Proof. vm_compute. reflexivity. Qed.

Example sha256_abc :
  SHA256.hexdigest (utf8_encode (str_of_string "abc")) =
  "ba7816bf8f01cfea414140de5dae2223b00361a396177a9cb410ff61f20015ad"%string.
Proof. vm_compute. reflexivity. Qed.

Example sha256_two_blocks :
  SHA256.hexdigest (utf8_encode (str_of_string
    "abcdbcdecdefdefgefghfghighijhijkijkljklmklmnlmnomnopnopq")) =
  "248d6a61d20638b8e5c026930c3e6039a33ce45964ff2167f6ecedd419db06c1"%string.
Proof. vm_compute. reflexivity. Qed.

(** U+00E9, U+20AC and U+1F600 take two, three and four bytes. *)
Example utf8_encode_widths :
  utf8_encode [233%N; 8364%N; 128512%N] =
  [xc3; xa9; xe2; x82; xac; xf0; x9f; x98; x80].
Proof. reflexivity. Qed.

(** A lone surrogate cannot be encoded; the texts of the examples can. *)
Example encodable_samples :
  encodable [0xD800%N] = false
  ∧ encodable (str_of_string "hello" ++ [0xDFFF%N]) = false
  ∧ encodable (str_of_string "hello" ++ [0x20AC%N; 0x1F600%N]) = true.
Proof. vm_compute. repeat split. Qed.

(** ** Facts about the deque *)
Section DequeFacts.
Context {A : Type}.
Implicit Types (d : deque A) (l xs : list A).

Lemma append_fits x d :
  Z.of_nat (length (items d)) < maxlen d →
  Deque.append x d = {| items := items d ++ [x]; maxlen := maxlen d |}.
Proof.
  intros Hlt. unfold Deque.append. rewrite length_app. simpl.
  destruct (Z.ltb_spec (maxlen d) (Z.of_nat (length (items d) + 1))); [lia|done].
Qed.

Lemma foldl_append_fits xs d :
  Z.of_nat (length (items d) + length xs) ≤ maxlen d →
  foldl (λ d x, Deque.append x d) d xs
  = {| items := items d ++ xs; maxlen := maxlen d |}.
Proof.
  revert d. induction xs as [|x xs IH]; intros d Hle; simpl.
  - rewrite app_nil_r. by destruct d.
  - simpl in Hle. rewrite IH.
    + rewrite append_fits by lia. simpl. by rewrite <- app_assoc.
    + rewrite append_fits by lia. simpl. rewrite length_app. simpl. lia.
Qed.

Lemma new_fits xs n :
  Z.of_nat (length xs) ≤ n →
  Deque.new xs n = Some {| items := xs; maxlen := n |}.
Proof.
  intros Hle. unfold Deque.new.
  destruct (Z.ltb_spec n 0); [lia|].
  by rewrite foldl_append_fits by (simpl; lia).
Qed.

Lemma new_negative xs n : n < 0 → Deque.new xs n = None.
Proof. intros Hn. unfold Deque.new. by destruct (Z.ltb_spec n 0); [|lia]. Qed.

Lemma appendleft_items x d :
  Z.of_nat (length (items d)) ≤ maxlen d →
  items (appendleft x d) = take (Z.to_nat (maxlen d)) (x :: items d).
Proof.
  intros Hle. unfold appendleft. cbn [items].
  destruct (Z.ltb_spec (maxlen d) (Z.of_nat (length (x :: items d)))) as [Hlt|Hge].
  - rewrite removelast_firstn_len. f_equal. simpl in *. lia.
  - rewrite take_ge; [done|]. simpl in *. lia.
Qed.

Lemma appendleft_maxlen x d : maxlen (appendleft x d) = maxlen d.
Proof. done. Qed.

End DequeFacts.

(** ** Facts about the history manager *)
Section HistoryFacts.
Implicit Types (c : ClipboardContent) (l : list ClipboardContent) (h : string).

Lemma existing_index_None h l :
  HistoryManager.existing_index h l = None ↔ h ∉ hashes l.
Proof.
  unfold HistoryManager.existing_index, hashes.
  rewrite fmap_None, list_find_None, Forall_forall, list_elem_of_fmap.
  split.
  - intros Hall (c & -> & Hc). by apply (Hall c).
  - intros Hnot c Hc Heq. apply Hnot. by exists c.
Qed.

Lemma existing_index_Some h l i :
  HistoryManager.existing_index h l = Some i →
  ∃ c, l !! i = Some c ∧ get_hash c = h.
Proof.
  unfold HistoryManager.existing_index. rewrite fmap_Some.
  intros ([j c] & Hfind & ->). apply list_find_Some in Hfind as (Hl & Hc & _).
  by exists c.
Qed.

Lemma filter_hash_absent h l :
  h ∉ hashes l → filter (λ d, get_hash d ≠ h) l = l.
Proof.
  induction l as [|a l IH]; [done|]. unfold hashes. rewrite fmap_cons, not_elem_of_cons.
  intros [Hne Hnot]. rewrite filter_cons_True by done. f_equal. by apply IH.
Qed.

(** With distinct hashes, deleting the first match deletes all matches. *)
Lemma delete_existing_index h l i :
  NoDup (hashes l) →
  HistoryManager.existing_index h l = Some i →
  delete i l = filter (λ d, get_hash d ≠ h) l.
Proof.
  unfold HistoryManager.existing_index. rewrite fmap_Some.
  intros Hnd ([j c] & Hfind & ->). simpl.
  revert j Hfind. induction l as [|a l IH]; intros j Hfind; [done|].
  unfold hashes in Hnd. rewrite fmap_cons in Hnd. apply NoDup_cons in Hnd as [Ha Hnd].
  simpl in Hfind. destruct (decide (get_hash a = h)) as [Heq|Hne].
  - simplify_eq. simpl. rewrite filter_cons_False by (intros Hn; by apply Hn).
    symmetry. by apply filter_hash_absent.
  - destruct (list_find _ l) as [[k y]|] eqn:Hl; simplify_eq/=.
    rewrite filter_cons_True by done. f_equal. by apply IH.
Qed.

Lemma length_filter_hash h l :
  NoDup (hashes l) → h ∈ hashes l →
  S (length (filter (λ d, get_hash d ≠ h) l)) = length l.
Proof.
  induction l as [|a l IH]; intros Hnd Hin.
  - by apply elem_of_nil in Hin.
  - unfold hashes in *. rewrite fmap_cons in Hnd, Hin.
    apply NoDup_cons in Hnd as [Ha Hnd].
    destruct (decide (get_hash a = h)) as [Heq|Hne].
    + rewrite filter_cons_False by (intros Hn; by apply Hn).
      subst h. by rewrite filter_hash_absent.
    + rewrite filter_cons_True by done. simpl. f_equal. apply IH; [done|].
      apply elem_of_cons in Hin as [Hin|Hin]; [congruence|done].
Qed.

Lemma hashes_filter_not_elem h l :
  h ∉ hashes (filter (λ d, get_hash d ≠ h) l).
Proof.
  unfold hashes. rewrite list_elem_of_fmap. intros (c & Hc & Hin).
  apply list_elem_of_filter in Hin as [Hne _]. congruence.
Qed.

Lemma NoDup_hashes_filter (P : ClipboardContent → Prop) `{!∀ x, Decision (P x)} l :
  NoDup (hashes l) → NoDup (hashes (filter P l)).
Proof.
  induction l as [|a l IH]; [done|]. unfold hashes in *. rewrite fmap_cons.
  intros [Ha Hnd]%NoDup_cons. destruct (decide (P a)).
  - rewrite filter_cons_True by done. rewrite fmap_cons. apply NoDup_cons. split; [|by apply IH].
    rewrite list_elem_of_fmap. intros (c & Hc & Hin). apply Ha.
    apply list_elem_of_filter in Hin as [_ Hin]. rewrite list_elem_of_fmap. by exists c.
  - rewrite filter_cons_False by done. by apply IH.
Qed.

Lemma NoDup_hashes_promote c l :
  NoDup (hashes l) → NoDup (hashes (promote c l)).
Proof.
  intros Hnd. unfold promote, hashes. rewrite fmap_cons. apply NoDup_cons. split.
  - apply hashes_filter_not_elem.
  - by apply NoDup_hashes_filter.
Qed.

Lemma NoDup_hashes_take n l : NoDup (hashes l) → NoDup (hashes (take n l)).
Proof.
  unfold hashes. rewrite fmap_take. intros Hnd.
  rewrite <- (take_drop n (get_hash <$> l)) in Hnd. by apply NoDup_app in Hnd as [? _].
Qed.

(** What [add_item] does to a store that satisfies the invariant. *)
Lemma add_item_spec c hm :
  store_ok hm →
  HistoryManager.add_item c hm =
  Done {| HistoryManager._max_depth := HistoryManager._max_depth hm;
          HistoryManager._history :=
            {| items := take (Z.to_nat (HistoryManager._max_depth hm))
                             (promote c (HistoryManager.get_history hm));
               maxlen := HistoryManager._max_depth hm |} |}.
Proof.
  destruct hm as [k [l m]]. unfold store_ok, HistoryManager.get_history. simpl.
  intros (Hk & -> & Hlen & Hnd). unfold HistoryManager.add_item. simpl.
  destruct (HistoryManager.existing_index (get_hash c) l) as [i|] eqn:Hidx.
  - pose proof (delete_existing_index _ _ _ Hnd Hidx) as Hdel.
    apply existing_index_Some in Hidx as (c' & Hi & Hc').
    assert (get_hash c ∈ hashes l) as Hin.
    { unfold hashes. rewrite list_elem_of_fmap. exists c'. split; [done|].
      by eapply list_elem_of_lookup_2. }
    pose proof (length_filter_hash _ _ Hnd Hin) as Hlf.
    rewrite Hdel. rewrite new_fits by lia. do 2 f_equal.
    unfold appendleft. simpl.
    destruct (Z.ltb_spec k (Z.of_nat (S (length (filter (λ d, get_hash d ≠ get_hash c) l))))); [lia|].
    unfold promote. f_equal. rewrite take_ge; [done|]. simpl. lia.
  - do 2 f_equal. apply existing_index_None in Hidx.
    unfold promote. rewrite filter_hash_absent by done.
    unfold appendleft. cbn [items maxlen]. f_equal.
    destruct (Z.ltb_spec k (Z.of_nat (length (c :: l)))) as [Hlt|Hge].
    + rewrite removelast_firstn_len. f_equal. simpl in *. lia.
    + rewrite take_ge; [done|]. simpl in *. lia.
Qed.

Lemma store_ok_add_item c hm hm' :
  store_ok hm → HistoryManager.add_item c hm = Done hm' → store_ok hm'.
Proof.
  intros Hok. rewrite add_item_spec by done. intros [= <-].
  destruct Hok as (Hk & Hm & Hlen & Hnd).
  unfold store_ok, HistoryManager.get_history. simpl. split_and!; [done|done| |].
  - rewrite length_take. lia.
  - by apply NoDup_hashes_take, NoDup_hashes_promote.
Qed.

Lemma store_ok_init k hm : HistoryManager.__init__ k = Some hm → store_ok hm.
Proof.
  unfold HistoryManager.__init__, Deque.new. destruct (Z.ltb_spec k 0); [done|].
  simpl. intros [= <-]. unfold store_ok, HistoryManager.get_history. simpl.
  split_and!; [done|done|lia|constructor].
Qed.

End HistoryFacts.

Section SequenceFacts.
Implicit Types (c : ClipboardContent) (l : list ClipboardContent) (h : string).

Lemma take_filter_absent n h l :
  h ∉ hashes (take n l) →
  take n (filter (λ d, get_hash d ≠ h) l) = take n l.
Proof.
  revert n. induction l as [|a l IH]; intros [|n]; try done.
  unfold hashes. simpl. rewrite not_elem_of_cons. intros [Hne Hnot].
  rewrite filter_cons_True by done. simpl. f_equal. by apply IH.
Qed.

Lemma filter_take_present n h l :
  NoDup (hashes l) → h ∈ hashes (take (S n) l) →
  filter (λ d, get_hash d ≠ h) (take (S n) l)
  = take n (filter (λ d, get_hash d ≠ h) l).
Proof.
  revert n. induction l as [|a l IH]; intros n Hnd Hin.
  - by apply elem_of_nil in Hin.
  - unfold hashes in Hnd, Hin. simpl in Hnd, Hin.
    apply NoDup_cons in Hnd as [Ha Hnd]. simpl.
    destruct (decide (get_hash a = h)) as [Heq|Hne].
    + subst h. rewrite !filter_cons_False by (intros Hn; by apply Hn).
      rewrite !filter_hash_absent; [done|done|].
      intros Hin'. apply Ha. unfold hashes in Hin'. rewrite fmap_take in Hin'.
      by eapply subseteq_take.
    + rewrite !filter_cons_True by done.
      apply elem_of_cons in Hin as [Hin|Hin]; [congruence|].
      destruct n as [|n]; [by apply elem_of_nil in Hin|].
      simpl. f_equal. by apply IH.
Qed.

(** Truncating before or after a promotion gives the same store. *)
Lemma take_promote_take n c l :
  NoDup (hashes l) →
  take n (promote c (take n l)) = take n (promote c l).
Proof.
  intros Hnd. destruct n as [|n]; [done|]. unfold promote. simpl. f_equal.
  destruct (decide (get_hash c ∈ hashes (take (S n) l))) as [Hin|Hnot].
  - rewrite filter_take_present by done. apply take_idemp.
  - rewrite filter_hash_absent by done.
    rewrite take_take, Nat.min_l by lia.
    symmetry. apply take_filter_absent. intros Hin. apply Hnot.
    unfold hashes in *. rewrite fmap_take in *.
    replace (take n (get_hash <$> l))
      with (take n (take (S n) (get_hash <$> l))) in Hin
      by (rewrite take_take; f_equal; lia).
    by eapply subseteq_take.
Qed.

Lemma add_items_cons c cs hm :
  HistoryManager.add_items (c :: cs) hm
  = and_then (HistoryManager.add_item c hm) (HistoryManager.add_items cs).
Proof.
  unfold HistoryManager.add_items. simpl.
  destruct (HistoryManager.add_item c hm) as [hm'|e hm']; [done|].
  simpl. induction cs as [|c' cs IH]; [done|]. simpl. apply IH.
Qed.

Lemma NoDup_hashes_foldl_promote cs l :
  NoDup (hashes l) → NoDup (hashes (foldl (λ acc c, promote c acc) l cs)).
Proof.
  revert l. induction cs as [|c cs IH]; intros l Hnd; [done|].
  simpl. by apply IH, NoDup_hashes_promote.
Qed.

Lemma take_foldl_promote_take n cs l :
  NoDup (hashes l) →
  take n (foldl (λ acc c, promote c acc) (take n l) cs)
  = take n (foldl (λ acc c, promote c acc) l cs).
Proof.
  revert l. induction cs as [|c cs IH]; intros l Hnd; simpl.
  - apply take_idemp.
  - rewrite <- IH by by apply NoDup_hashes_promote, NoDup_hashes_take.
    rewrite take_promote_take by done.
    apply IH. by apply NoDup_hashes_promote.
Qed.

(** A run of [add_item] calls on a store that satisfies the invariant: the
    store is the truncation of the promotions done on its content. *)
Lemma add_items_spec cs hm :
  store_ok hm →
  HistoryManager.add_items cs hm =
  Done {| HistoryManager._max_depth := HistoryManager._max_depth hm;
          HistoryManager._history :=
            {| items := take (Z.to_nat (HistoryManager._max_depth hm))
                 (foldl (λ acc c, promote c acc) (HistoryManager.get_history hm) cs);
               maxlen := HistoryManager._max_depth hm |} |}.
Proof.
  revert hm. induction cs as [|c cs IH]; intros hm Hok.
  - destruct hm as [k [l m]]. destruct Hok as (Hk & Hm & Hlen & Hnd).
    unfold HistoryManager.get_history in *. simpl in *. subst m.
    unfold HistoryManager.add_items. simpl. rewrite take_ge by lia. done.
  - rewrite add_items_cons.
    pose proof (add_item_spec c hm Hok) as Hadd. rewrite Hadd. simpl.
    rewrite IH by (by eapply store_ok_add_item). simpl.
    unfold HistoryManager.get_history. simpl. do 3 f_equal.
    destruct Hok as (_ & _ & _ & Hnd).
    by apply take_foldl_promote_take, NoDup_hashes_promote.
Qed.

Lemma elem_of_hashes_promote h c l :
  h ∈ hashes (promote c l) ↔ h = get_hash c ∨ h ∈ hashes l.
Proof.
  unfold promote, hashes. rewrite fmap_cons, elem_of_cons, !list_elem_of_fmap.
  split.
  - intros [->|(d & -> & Hd)]; [by left|right].
    apply list_elem_of_filter in Hd as [_ Hd]. by exists d.
  - intros [->|(d & -> & Hd)]; [by left|].
    destruct (decide (get_hash d = get_hash c)) as [Heq|Hne]; [by left|right].
    exists d. split; [done|]. by apply list_elem_of_filter.
Qed.

Lemma elem_of_hashes_foldl_promote h cs l :
  h ∈ hashes (foldl (λ acc c, promote c acc) l cs)
  ↔ h ∈ hashes l ∨ h ∈ hashes cs.
Proof.
  revert l. induction cs as [|c cs IH]; intros l; simpl.
  - change (hashes []) with (@nil string). rewrite elem_of_nil. tauto.
  - rewrite IH, elem_of_hashes_promote.
    change (hashes (c :: cs)) with (get_hash c :: hashes cs).
    rewrite elem_of_cons. tauto.
Qed.

Lemma elem_of_hashes_recency h cs :
  h ∈ hashes (recency cs) ↔ h ∈ hashes cs.
Proof.
  unfold recency. rewrite elem_of_hashes_foldl_promote.
  change (hashes []) with (@nil string). rewrite elem_of_nil. tauto.
Qed.

(** The promotions of a run keep one entry per distinct fingerprint. *)
Lemma length_recency cs :
  length (recency cs) = length (remove_dups (hashes cs)).
Proof.
  rewrite <- (length_fmap get_hash (recency cs)). apply Permutation_length.
  apply NoDup_Permutation.
  - apply (NoDup_hashes_foldl_promote cs []). constructor.
  - apply NoDup_remove_dups.
  - intros h. rewrite elem_of_remove_dups. apply elem_of_hashes_recency.
Qed.

End SequenceFacts.

Section StoreProperties.
Import HistoryManager.

Lemma set_max_depth_spec depth hm :
  0 ≤ depth →
  set_max_depth depth hm =
  Done {| _max_depth := depth;
          _history := {| items := take (Z.to_nat depth) (get_history hm);
                         maxlen := depth |} |}.
Proof.
  intros Hd. unfold set_max_depth, get_history. simpl.
  destruct (Z.gtb_spec (Z.of_nat (length (items (_history hm)))) depth) as [Hgt|Hle].
  - unfold slice_to. destruct (Z.ltb_spec depth 0); [lia|].
    rewrite new_fits; [done|]. rewrite length_take.
    pose proof (Nat.le_min_l (Z.to_nat depth) (length (items (_history hm)))).
    lia.
  - rewrite new_fits by done. by rewrite take_ge by lia.
Qed.

(** A negative depth: [deque] refuses it after [_max_depth] was assigned. *)
Lemma set_max_depth_negative depth hm :
  depth < 0 →
  set_max_depth depth hm =
  Raised ValueError {| _max_depth := depth; _history := _history hm |}.
Proof.
  intros Hd. unfold set_max_depth. simpl.
  rewrite !new_negative by done. by destruct (_ >? _).
Qed.

Lemma store_ok_set_max_depth depth hm hm' :
  store_ok hm → set_max_depth depth hm = Done hm' → store_ok hm'.
Proof.
  intros (_ & _ & _ & Hnd). destruct (Z.lt_ge_cases depth 0) as [Hneg|Hpos].
  - by rewrite set_max_depth_negative.
  - rewrite set_max_depth_spec by lia. intros [= <-].
    unfold store_ok, get_history. simpl. split_and!; [lia|done| |].
    + rewrite length_take.
      pose proof (Nat.le_min_l (Z.to_nat depth) (length (items (_history hm)))).
      lia.
    + by apply NoDup_hashes_take.
Qed.

Lemma store_ok_clear_history hm : store_ok hm → store_ok (clear_history hm).
Proof.
  intros (Hk & Hm & _ & _). unfold store_ok, get_history. simpl.
  split_and!; [done|done|lia|constructor].
Qed.

Lemma filter_eq_filter_ne h l :
  filter (λ c, get_hash c = h) (filter (λ d, get_hash d ≠ h) l) = [].
Proof.
  induction l as [|a l IH]; [done|].
  destruct (decide (get_hash a = h)) as [Heq|Hne].
  - by rewrite (filter_cons_False (λ d, get_hash d ≠ h)) by (intros Hn; by apply Hn).
  - rewrite (filter_cons_True (λ d, get_hash d ≠ h)) by done.
    by rewrite filter_cons_False by done.
Qed.

(** The invariant holds after every operation that returns: in particular
    the store never holds more than [_max_depth] entries, nor two entries
    with the same fingerprint. *)
Lemma reachable_store_ok hm : reachable hm → store_ok hm.
Proof.
  induction 1 as [k hm Hinit|c hm hm' _ IH Hadd|depth hm hm' _ IH Hset|hm _ IH].
  - by eapply store_ok_init.
  - by eapply store_ok_add_item.
  - by eapply store_ok_set_max_depth.
  - by apply store_ok_clear_history.
Qed.

(** Adding an entry whose fingerprint is in the store: the deque is not
    full once the old entry is out, so that nothing is dropped at the
    right. *)
Lemma add_item_present (hm : HM) (X : ClipboardContent) :
  store_ok hm →
  get_hash X ∈ hashes (get_history hm) →
  add_item X hm =
  Done {| _max_depth := _max_depth hm;
          _history :=
            {| items :=
                 X :: filter (λ c, get_hash c ≠ get_hash X) (get_history hm);
               maxlen := _max_depth hm |} |}
  ∧ S (length (filter (λ c, get_hash c ≠ get_hash X) (get_history hm)))
    = length (get_history hm).
Proof.
  intros Hok Hin. rewrite add_item_spec by done.
  destruct Hok as (Hk & Hm & Hlen & Hnd).
  pose proof (length_filter_hash _ _ Hnd Hin) as Hlf.
  split; [|done]. do 3 f_equal. apply take_ge. unfold promote. simpl. lia.
Qed.

(** C1 (dedup-promotion).  In a store that satisfies its invariant, adding
    an entry [X] whose fingerprint is already there returns normally; then
    [X] itself (the new object, with its own timestamp) is at position 0,
    the number of entries is the one before the call, the fingerprint of [X]
    occurs exactly once, and every other entry is kept in its order: the
    promotion moves, it evicts nothing.  The capacity is unchanged. *)
Theorem add_item_promotes_duplicate (hm : HM) (X : ClipboardContent) :
  store_ok hm →
  get_hash X ∈ hashes (get_history hm) →
  ∃ hm',
    add_item X hm = Done hm'
    ∧ get_history hm' !! 0%nat = Some X
    ∧ length (get_history hm') = length (get_history hm)
    ∧ length (filter (λ c, get_hash c = get_hash X) (get_history hm')) = 1%nat
    ∧ get_history hm'
      = X :: filter (λ c, get_hash c ≠ get_hash X) (get_history hm)
    ∧ _max_depth hm' = _max_depth hm.
Proof.
  intros Hok Hin.
  destruct (add_item_present hm X Hok Hin) as [Hadd Hlen].
  eexists. split; [exact Hadd|].
  unfold get_history in *. cbn [_history _max_depth items].
  split_and!.
  - done.
  - simpl. lia.
  - rewrite filter_cons_True by done. simpl. f_equal.
    by rewrite filter_eq_filter_ne.
  - done.
  - done.
Qed.

Lemma add_item_promotes_duplicate_witness :
  store_ok store_CBA
  ∧ get_hash (text_entry "A" 4) ∈ hashes (get_history store_CBA)
  ∧ ∃ hm',
      add_item (text_entry "A" 4) store_CBA = Done hm'
      ∧ get_history hm' !! 0%nat = Some (text_entry "A" 4)
      ∧ length (get_history hm') = length (get_history store_CBA)
      ∧ length (filter (λ c, get_hash c = get_hash (text_entry "A" 4))
                  (get_history hm')) = 1%nat
      ∧ get_history hm'
        = text_entry "A" 4
          :: filter (λ c, get_hash c ≠ get_hash (text_entry "A" 4))
               (get_history store_CBA)
      ∧ _max_depth hm' = _max_depth store_CBA.
Proof.
  assert (store_ok store_CBA) as Hok by (split_and!; compute_done).
  assert (get_hash (text_entry "A" 4) ∈ hashes (get_history store_CBA))
    as Hin by compute_done.
  split_and!; [done|done|].
  exact (add_item_promotes_duplicate store_CBA (text_entry "A" 4) Hok Hin).
Defined.

(** C2 (depth bound).  For every depth [k] with which a store can be
    created ([HistoryManager(k)] raises [ValueError] for a negative [k]) and
    every run [cs] of additions to the empty store: after each prefix of
    the run the store holds at most [k] entries, and after the whole run it
    holds [min k d] entries, [d] being the number of distinct fingerprints
    of [cs].  No addition of the run raises. *)
Theorem depth_bound (k : Z) (hm0 : HM) (cs : list ClipboardContent) :
  __init__ k = Some hm0 →
  (∀ n : nat, ∃ hm,
      add_items (take n cs) hm0 = Done hm
      ∧ Z.of_nat (length (get_history hm)) ≤ k)
  ∧ ∃ hm,
      add_items cs hm0 = Done hm
      ∧ length (get_history hm)
        = (Z.to_nat k `min` length (remove_dups (hashes cs)))%nat.
Proof.
  intros Hinit. pose proof (store_ok_init _ _ Hinit) as Hok.
  assert (_max_depth hm0 = k ∧ get_history hm0 = [] ∧ 0 ≤ k) as (Hk & Hnil & Hpos).
  { unfold __init__, Deque.new in Hinit. destruct (Z.ltb_spec k 0); [done|].
    simpl in Hinit. by injection Hinit as <-. }
  split.
  - intros n. eexists. split; [by apply add_items_spec|].
    unfold get_history at 1. cbn [_history items]. rewrite length_take, Hk.
    pose proof (Nat.le_min_l (Z.to_nat k)
      (length (foldl (λ acc c, promote c acc) (get_history hm0) (take n cs)))).
    lia.
  - eexists. split; [by apply add_items_spec|].
    unfold get_history at 1. cbn [_history items].
    rewrite length_take. rewrite Hk. rewrite Hnil.
    f_equal. apply length_recency.
Qed.

Lemma depth_bound_witness :
  __init__ 5 = Some (store_of 5 [])
  ∧ (∀ n : nat, ∃ hm,
        add_items (take n seven_entries) (store_of 5 []) = Done hm
        ∧ Z.of_nat (length (get_history hm)) ≤ 5)
  ∧ ∃ hm,
      add_items seven_entries (store_of 5 []) = Done hm
      ∧ length (get_history hm)
        = (Z.to_nat 5 `min` length (remove_dups (hashes seven_entries)))%nat.
Proof.
  split; [reflexivity|].
  exact (depth_bound 5 (store_of 5 []) seven_entries eq_refl).
Defined.

(** C5 (immediate capacity shrink).  For a store of length [L] and a new
    depth [0 <= newDepth < L], [set_max_depth newDepth] returns normally
    and, in the state it returns, the store holds exactly the [newDepth]
    most recent entries in their order (the prefix of that length), and
    both [_max_depth] and the bound of the deque are [newDepth]. *)
Theorem set_max_depth_shrinks_immediately (hm : HM) (newDepth : Z) :
  0 ≤ newDepth < Z.of_nat (length (get_history hm)) →
  ∃ hm',
    set_max_depth newDepth hm = Done hm'
    ∧ get_history hm' = take (Z.to_nat newDepth) (get_history hm)
    ∧ Z.of_nat (length (get_history hm')) = newDepth
    ∧ _max_depth hm' = newDepth
    ∧ maxlen (_history hm') = newDepth.
Proof.
  intros [Hpos Hlt]. eexists. split; [by apply set_max_depth_spec|].
  unfold get_history in *. cbn [_history _max_depth items maxlen].
  split_and!; try done. rewrite length_take_le by lia. lia.
Qed.

Lemma set_max_depth_shrinks_immediately_witness :
  0 ≤ 2 < Z.of_nat (length (get_history store_CBA))
  ∧ ∃ hm',
      set_max_depth 2 store_CBA = Done hm'
      ∧ get_history hm' = take (Z.to_nat 2) (get_history store_CBA)
      ∧ Z.of_nat (length (get_history hm')) = 2
      ∧ _max_depth hm' = 2
      ∧ maxlen (_history hm') = 2.
Proof.
  assert (0 ≤ 2 < Z.of_nat (length (get_history store_CBA))) as Hrange
    by compute_done.
  split; [done|].
  exact (set_max_depth_shrinks_immediately store_CBA 2 Hrange).
Defined.

(** C9 ([get_item] is total on indices).  For every store and every
    integer [index]: when [0 <= index < length] the result is the entry at
    that position of the history (position 0 is the most recent one), and
    for every other index, negative ones included, the result is [None];
    no index raises. *)
Theorem get_item_total (hm : HM) (index : Z) :
  (0 ≤ index < Z.of_nat (length (get_history hm)) →
   ∃ c, get_item index hm = Some c
        ∧ get_history hm !! Z.to_nat index = Some c)
  ∧ (index < 0 ∨ Z.of_nat (length (get_history hm)) ≤ index →
     get_item index hm = None).
Proof.
  unfold get_item, get_history. split.
  - intros [H0 Hlt].
    destruct (Z.leb_spec 0 index); [|lia].
    destruct (Z.ltb_spec index (Z.of_nat (length (items (_history hm))))); [|lia].
    simpl. destruct (lookup_lt_is_Some_2 (items (_history hm)) (Z.to_nat index)) as [c Hc];
      [lia|]. by exists c.
  - intros [Hneg|Hge].
    + by destruct (Z.leb_spec 0 index); [lia|].
    + destruct (Z.ltb_spec index (Z.of_nat (length (items (_history hm))))); [lia|].
      by rewrite andb_false_r.
Qed.

(** C10 (the fingerprint ignores the content type).  Two entries with the
    same payload have the same digest whatever their content types and
    timestamps; the digest is the SHA-256 of the UTF-8 encoding of a text
    payload and of the bytes of a binary one; and adding the second entry to
    a store that holds the first one replaces it: the first one is removed,
    the second one is at the front, the number of entries is unchanged. *)
Theorem get_hash_ignores_content_type (c1 c2 : ClipboardContent) (hm : HM) :
  data c1 = data c2 →
  get_hash c1 = get_hash c2
  ∧ get_hash c1 = SHA256.hexdigest
      (match data c1 with PStr s => utf8_encode s | PBytes b => b end)
  ∧ (store_ok hm → c1 ∈ get_history hm →
     ∃ hm',
       add_item c2 hm = Done hm'
       ∧ get_history hm'
         = c2 :: filter (λ d, get_hash d ≠ get_hash c1) (get_history hm)
       ∧ length (get_history hm') = length (get_history hm)
       ∧ c1 ∉ filter (λ d, get_hash d ≠ get_hash c1) (get_history hm)).
Proof.
  intros Hdata.
  assert (get_hash c1 = get_hash c2) as Hh by (unfold get_hash; by rewrite Hdata).
  split_and!; [done|done|].
  intros Hok Hin.
  destruct (add_item_present hm c2 Hok) as [Hadd Hlen].
  { rewrite <- Hh. unfold hashes. apply list_elem_of_fmap. by exists c1. }
  eexists. split; [exact Hadd|]. rewrite Hh.
  unfold get_history in *. cbn [_history items].
  split_and!; [done|simpl; lia|].
  intros [Hne _]%list_elem_of_filter. done.
Qed.

Lemma get_hash_ignores_content_type_witness :
  data (text_entry "A" 1) = data (rich_entry "A" 9)
  ∧ get_hash (text_entry "A" 1) = get_hash (rich_entry "A" 9)
  ∧ get_hash (text_entry "A" 1) = SHA256.hexdigest
      (match data (text_entry "A" 1) with
       | PStr s => utf8_encode s
       | PBytes b => b
       end)
  ∧ (store_ok store_CBA → text_entry "A" 1 ∈ get_history store_CBA →
     ∃ hm',
       add_item (rich_entry "A" 9) store_CBA = Done hm'
       ∧ get_history hm'
         = rich_entry "A" 9
           :: filter (λ d, get_hash d ≠ get_hash (text_entry "A" 1))
                (get_history store_CBA)
       ∧ length (get_history hm') = length (get_history store_CBA)
       ∧ text_entry "A" 1
         ∉ filter (λ d, get_hash d ≠ get_hash (text_entry "A" 1))
             (get_history store_CBA)).
Proof.
  split; [reflexivity|].
  exact (get_hash_ignores_content_type
           (text_entry "A" 1) (rich_entry "A" 9) store_CBA eq_refl).
Defined.

(** The examples of the specification. *)
Example round_trip :
  add_items [text_entry "A" 1; text_entry "B" 2; text_entry "C" 3;
             text_entry "A" 4] (store_of 10 [])
  = Done (store_of 10 [text_entry "A" 4; text_entry "C" 3; text_entry "B" 2]).
Proof. vm_compute. reflexivity. Qed.

Example seven_into_five :
  add_items seven_entries (store_of 5 [])
  = Done (store_of 5 [text_entry "E7" 7; text_entry "E6" 6; text_entry "E5" 5;
                      text_entry "E4" 4; text_entry "E3" 3]).
Proof. vm_compute. reflexivity. Qed.

Example get_item_at_indices :
  (λ index, get_item index store_CBA) <$> [-1; 0; 2; 3]
  = [None; Some (text_entry "C" 3); Some (text_entry "A" 1); None].
Proof. vm_compute. reflexivity. Qed.

(** The most recent entry is at index 0. *)
Lemma get_item_0_after_add_item (hm hm' : HM) (c : ClipboardContent) :
  store_ok hm → 0 < _max_depth hm →
  add_item c hm = Done hm' → get_item 0 hm' = Some c.
Proof.
  intros Hok Hk. rewrite add_item_spec by done. intros [= <-].
  unfold get_item, get_history. cbn [_history items].
  destruct (Z.to_nat (_max_depth hm)) eqn:Hn; [lia|]. done.
Qed.

(** A depth that [deque] refuses leaves the store with that depth, and
    the next promotion raises in its turn. *)
Example negative_depth_raises :
  set_max_depth (-1) store_CBA
  = Raised ValueError
      {| _max_depth := -1; _history := _history store_CBA |}
  ∧ add_item (text_entry "A" 4)
      {| _max_depth := -1; _history := _history store_CBA |}
    = Raised ValueError
        {| _max_depth := -1; _history := _history store_CBA |}.
Proof. split; vm_compute; reflexivity. Qed.

End StoreProperties.

(** ** Facts about the clipboard monitor *)

Section DequeSubset.
Context {A : Type}.
Implicit Types (d : deque A) (l xs : list A).

Lemma append_subseteq x d : items (Deque.append x d) ⊆ items d ++ [x].
Proof.
  unfold Deque.append. cbn [items]. destruct (_ <? _); [|done].
  apply subseteq_drop.
Qed.

Lemma foldl_append_subseteq xs d :
  items (foldl (λ d x, Deque.append x d) d xs) ⊆ items d ++ xs.
Proof.
  revert d. induction xs as [|x xs IH]; intros d; simpl.
  - by rewrite app_nil_r.
  - etrans; [apply IH|]. rewrite (cons_middle x (items d) xs), app_assoc.
    intros y [Hy|Hy]%elem_of_app; apply elem_of_app; [left|by right].
    by apply append_subseteq.
Qed.

Lemma new_subseteq xs n d : Deque.new xs n = Some d → items d ⊆ xs.
Proof.
  unfold Deque.new. destruct (_ <? _); [done|]. intros [= <-].
  apply (foldl_append_subseteq xs {| items := []; maxlen := n |}).
Qed.

Lemma appendleft_subseteq x d : items (appendleft x d) ⊆ x :: items d.
Proof.
  unfold appendleft. cbn [items]. destruct (_ <? _); [|done].
  rewrite removelast_firstn_len. apply subseteq_take.
Qed.

End DequeSubset.

Section MonitorFacts.
Import ClipboardMonitor.

(** [add_item] brings no entry but the one it is given. *)
Lemma add_item_elem_of x c hm :
  x ∈ HistoryManager.get_history (state_of (HistoryManager.add_item c hm)) →
  x = c ∨ x ∈ HistoryManager.get_history hm.
Proof.
  unfold HistoryManager.add_item, HistoryManager.get_history.
  destruct (HistoryManager.existing_index _ _) as [i|].
  - destruct (Deque.new _ _) as [d|] eqn:Hnew; simpl; [|by right].
    intros [->|Hx]%appendleft_subseteq%elem_of_cons; [by left|right].
    apply new_subseteq in Hnew. apply Hnew in Hx.
    rewrite delete_take_drop in Hx.
    apply elem_of_app in Hx as [Hx|Hx];
      [by eapply subseteq_take|by eapply subseteq_drop].
  - simpl. intros [->|Hx]%appendleft_subseteq%elem_of_cons; [by left|by right].
Qed.

Lemma size_of_unsupported :
  _calculate_size (PStr (str_of_string "[Unsupported Content]")) = 21.
Proof. reflexivity. Qed.

(** The size that is compared with the ceiling is the byte size of the
    payload, but for the placeholder of unsupported content. *)
Lemma extracted_size mime_data content_type d lg :
  _extract_content mime_data = ((Some content_type, Some d), lg) →
  _calculate_size d = _estimate_content_size content_type d
  ∨ d = PStr (str_of_string "[Unsupported Content]").
Proof.
  unfold _extract_content, extract_html, extract_text, extraction_failed,
    conversion_failed, unsupported.
  intros H.
  repeat match type of H with
         | context [match ?x with _ => _ end] => destruct x
         | context [if ?b then _ else _] => destruct b
         end; simplify_eq; auto.
Qed.

Lemma size_bytes_new_content t d ts :
  size_bytes (new_content t d ts) = _calculate_size d.
Proof. reflexivity. Qed.

Lemma get_hash_new_content t d ts :
  get_hash (new_content t d ts) = SHA256.hexdigest (content_bytes d).
Proof. reflexivity. Qed.

(** The three ways a notification that carries content ends. *)
Lemma on_clipboard_change_content self mime_data now content_type d lg :
  _extract_content mime_data = ((Some content_type, Some d), lg) →
  _on_clipboard_change (Returns (Some mime_data)) now self =
  if _estimate_content_size content_type d >? MAX_CONTENT_SIZE_BYTES
  then log [(WARNING,
             ContentTooLarge (_estimate_content_size content_type d))]
         (log lg self)
  else if decide (Some (get_hash (new_content content_type d now))
                  = _last_hash self)
  then log lg self
  else
    match HistoryManager.add_item (new_content content_type d now)
            (_history_manager self) with
    | Done hm =>
        {| _history_manager := hm;
           _last_hash := Some (get_hash (new_content content_type d now));
           _logger :=
             (_logger self ++ lg) ++ [(DEBUG, AddedClipboardItem content_type)] |}
    | Raised _ hm =>
        {| _history_manager := hm;
           _last_hash := Some (get_hash (new_content content_type d now));
           _logger := (_logger self ++ lg) ++ [(ERROR, ErrorDuringMonitoring)] |}
    end.
Proof. intros Hex. unfold _on_clipboard_change. by rewrite Hex. Qed.

Lemma on_clipboard_change_no_content self mime_data now lg :
  _extract_content mime_data = ((None, None), lg) →
  _on_clipboard_change (Returns (Some mime_data)) now self = log lg self.
Proof. intros Hex. unfold _on_clipboard_change. by rewrite Hex. Qed.

(** After a notification whose content passed the size check, the last
    fingerprint is the one of that content. *)
Lemma last_hash_after_content self mime_data now content_type d lg :
  _extract_content mime_data = ((Some content_type, Some d), lg) →
  _estimate_content_size content_type d ≤ MAX_CONTENT_SIZE_BYTES →
  _last_hash (_on_clipboard_change (Returns (Some mime_data)) now self)
  = Some (get_hash (new_content content_type d now)).
Proof.
  intros Hex Hsize. rewrite (on_clipboard_change_content _ _ _ _ _ _ Hex).
  destruct (Z.gtb_spec (_estimate_content_size content_type d)
              MAX_CONTENT_SIZE_BYTES); [lia|].
  destruct (decide _) as [Heq|Hne]; [done|].
  by destruct (HistoryManager.add_item _ _).
Qed.

(** A notification whose content has the last fingerprint is dropped. *)
Lemma same_hash_dropped self mime_data now content_type d lg :
  _extract_content mime_data = ((Some content_type, Some d), lg) →
  _last_hash self = Some (get_hash (new_content content_type d now)) →
  _on_clipboard_change (Returns (Some mime_data)) now self =
  if _estimate_content_size content_type d >? MAX_CONTENT_SIZE_BYTES
  then log [(WARNING,
             ContentTooLarge (_estimate_content_size content_type d))]
         (log lg self)
  else log lg self.
Proof.
  intros Hex Hlast. rewrite (on_clipboard_change_content _ _ _ _ _ _ Hex).
  destruct (_ >? _); [done|].
  by destruct (decide _) as [Heq|Hne]; [|congruence].
Qed.

(** The same clipboard notified twice in a row: whatever it holds, the
    second notification changes neither the store nor the last
    fingerprint. *)
Lemma same_clipboard_twice clipboard now1 now2 self :
  let self1 := _on_clipboard_change clipboard now1 self in
  let self2 := _on_clipboard_change clipboard now2 self1 in
  _history_manager self2 = _history_manager self1
  ∧ _last_hash self2 = _last_hash self1.
Proof.
  cbv zeta. destruct clipboard as [[mime_data|]|]; [|done|done].
  destruct (_extract_content mime_data) as [[[content_type|] [d|]] lg] eqn:Hex;
    try by (unfold _on_clipboard_change; rewrite Hex).
  destruct (Z.gtb_spec (_estimate_content_size content_type d)
              MAX_CONTENT_SIZE_BYTES) as [Hbig|Hsize].
  - rewrite !(on_clipboard_change_content _ _ _ _ _ _ Hex).
    destruct (Z.gtb_spec (_estimate_content_size content_type d)
                MAX_CONTENT_SIZE_BYTES); [done|lia].
  - rewrite (same_hash_dropped _ _ now2 _ _ _ Hex);
      [by destruct (_ >? _)|].
    by rewrite (last_hash_after_content _ _ _ _ _ _ Hex Hsize).
Qed.

(** Every entry of the store after a notification was there before or is
    within the ceiling. *)
Lemma on_clipboard_change_within_ceiling clipboard now self :
  Forall within_ceiling (HistoryManager.get_history (_history_manager self)) →
  Forall within_ceiling
    (HistoryManager.get_history
       (_history_manager (_on_clipboard_change clipboard now self))).
Proof.
  intros Hall. destruct clipboard as [[mime_data|]|]; [|done|done].
  destruct (_extract_content mime_data) as [[[content_type|] [d|]] lg] eqn:Hex;
    try by (unfold _on_clipboard_change; rewrite Hex).
  rewrite (on_clipboard_change_content _ _ _ _ _ _ Hex).
  destruct (Z.gtb_spec (_estimate_content_size content_type d)
              MAX_CONTENT_SIZE_BYTES) as [|Hsize]; [done|].
  destruct (decide _); [done|].
  assert (within_ceiling (new_content content_type d now)) as Hnew.
  { unfold within_ceiling. change (data (new_content content_type d now)) with d.
    destruct (extracted_size _ _ _ _ Hex) as [->| ->]; [done|].
    rewrite size_of_unsupported. by compute. }
  apply Forall_forall. intros x Hx.
  assert (x ∈ HistoryManager.get_history (state_of
            (HistoryManager.add_item (new_content content_type d now)
               (_history_manager self)))) as Hin.
  { by destruct (HistoryManager.add_item _ _). }
  apply add_item_elem_of in Hin as [->|Hin]; [done|].
  by eapply Forall_forall in Hall.
Qed.

Lemma set_max_depth_subseteq depth hm :
  HistoryManager.get_history (state_of (HistoryManager.set_max_depth depth hm))
  ⊆ HistoryManager.get_history hm.
Proof.
  unfold HistoryManager.set_max_depth, HistoryManager.get_history.
  cbn [HistoryManager._history].
  destruct (_ >? _).
  - destruct (Deque.new _ _) as [d|] eqn:Hnew; simpl; [|done].
    apply new_subseteq in Hnew. etrans; [exact Hnew|].
    unfold slice_to. destruct (_ <? _); apply subseteq_take.
  - destruct (Deque.new _ _) as [d|] eqn:Hnew; simpl; [|done].
    by apply new_subseteq in Hnew.
Qed.

(** No handler of the application brings an entry above the ceiling. *)
Lemma step_within_ceiling self a :
  Forall within_ceiling (HistoryManager.get_history (_history_manager self)) →
  Forall within_ceiling
    (HistoryManager.get_history (_history_manager (Application.step self a))).
Proof.
  intros Hall. destruct a as [clipboard now|value|]; simpl.
  - by apply on_clipboard_change_within_ceiling.
  - unfold Application._on_depth_changed. destruct (_ && _); [|done].
    apply Forall_forall. intros x Hx%set_max_depth_subseteq.
    by eapply Forall_forall in Hall.
  - constructor.
Qed.

(** The depth that the settings accept never makes [set_max_depth]
    raise, and the invariant of the store holds all along a run. *)
Lemma step_store_ok self a :
  store_ok (_history_manager self) →
  store_ok (_history_manager (Application.step self a)).
Proof.
  intros Hok. destruct a as [clipboard now|value|]; simpl.
  - destruct clipboard as [[mime_data|]|]; [|done|done].
    destruct (_extract_content mime_data) as [[[content_type|] [d|]] lg] eqn:Hex;
      try by (unfold _on_clipboard_change; rewrite Hex).
    rewrite (on_clipboard_change_content _ _ _ _ _ _ Hex).
    destruct (_ >? _); [done|]. destruct (decide _); [done|].
    rewrite add_item_spec by done. simpl.
    eapply store_ok_add_item; [exact Hok|]. by apply add_item_spec.
  - unfold Application._on_depth_changed.
    destruct (Z.leb_spec 5 value); [|done].
    destruct (Z.leb_spec value 100); [|done]. simpl.
    rewrite set_max_depth_spec by lia. simpl.
    eapply store_ok_set_max_depth; [exact Hok|]. apply set_max_depth_spec. lia.
  - by apply store_ok_clear_history.
Qed.

Lemma run_store_ok acts self :
  store_ok (_history_manager self) →
  store_ok (_history_manager (Application.run acts self)).
Proof.
  revert self. unfold Application.run.
  induction acts as [|a acts IH]; intros self Hok; [done|].
  simpl. by apply IH, step_store_ok.
Qed.

(** C4 as it is stated does not hold: on a clipboard that holds an image
    whose conversion raises and the text [hello], the extraction after the
    image check would give the text, but [_extract_content] gives no content
    and the notification leaves the store empty, where the text alone would
    have been recorded. *)
Lemma image_failure_does_not_fall_through :
  hasImage malformed_image_with_text = Returns true
  ∧ imageData malformed_image_with_text = Returns (Some Throws)
  ∧ (extract_html malformed_image_with_text).1
    = (Some TEXT, Some (PStr (str_of_string "hello")))
  ∧ (_extract_content malformed_image_with_text).1 = (None, None)
  ∧ (_extract_content malformed_image_with_text).1
    ≠ (extract_html malformed_image_with_text).1
  ∧ HistoryManager.get_history
      (_history_manager
         (_on_clipboard_change (Returns (Some malformed_image_with_text)) 1
            (fresh_monitor 10))) = []
  ∧ HistoryManager.get_history
      (_history_manager
         (_on_clipboard_change (Returns (Some (text_clipboard "hello"))) 1
            (fresh_monitor 10))) = [text_entry "hello" 1].
Proof. split_and!; try reflexivity. discriminate. Qed.

(** What was logged before does not change what a notification does to
    the store and to the last fingerprint. *)
Lemma on_clipboard_change_after_log clipboard now r self :
  _history_manager (_on_clipboard_change clipboard now (log r self))
  = _history_manager (_on_clipboard_change clipboard now self)
  ∧ _last_hash (_on_clipboard_change clipboard now (log r self))
    = _last_hash (_on_clipboard_change clipboard now self).
Proof.
  destruct clipboard as [[mime_data|]|]; [|done|done].
  destruct (_extract_content mime_data) as [[[content_type|] [d|]] lg] eqn:Hex;
    try by (unfold _on_clipboard_change; rewrite Hex).
  rewrite !(on_clipboard_change_content _ _ _ _ _ _ Hex).
  destruct (_ >? _); [done|]. cbn [log _last_hash _history_manager].
  destruct (decide _); [done|]. by destruct (HistoryManager.add_item _ _).
Qed.

(** C4, amended (failure of the image branch).  When a call of the image
    branch raises (for instance the conversion of a malformed image), the
    failure is caught inside [_extract_content]: one error is logged,
    nothing is raised, and the extraction answers [(None, None)] without
    trying the rich-text and plain-text checks.  The notification is then
    dropped: the monitor is left as it was but for the error in its log.
    The monitor goes on: the next notification does to the store and to the
    last fingerprint what it would have done without the failed one. *)
Theorem image_failure_drops_notification
    (self : t) (mime_data : QMimeData) (now : Z) :
  image_branch_fails mime_data →
  ∃ msg,
    _extract_content mime_data = ((None, None), [(ERROR, msg)])
    ∧ _on_clipboard_change (Returns (Some mime_data)) now self
      = log [(ERROR, msg)] self
    ∧ ∀ clipboard now',
        let next := _on_clipboard_change clipboard now' in
        _history_manager
          (next (_on_clipboard_change (Returns (Some mime_data)) now self))
        = _history_manager (next self)
        ∧ _last_hash
            (next (_on_clipboard_change (Returns (Some mime_data)) now self))
          = _last_hash (next self).
Proof.
  intros Hfail.
  assert (∃ msg, _extract_content mime_data = ((None, None), [(ERROR, msg)]))
    as [msg Hex].
  { unfold _extract_content.
    destruct Hfail as [->|[-> [->| ->]]]; by eexists. }
  exists msg.
  pose proof (on_clipboard_change_no_content self _ now _ Hex) as Hdrop.
  split_and!; [done|done|].
  intros clipboard now'. cbv zeta. rewrite Hdrop.
  apply on_clipboard_change_after_log.
Qed.

Lemma image_failure_drops_notification_witness :
  image_branch_fails malformed_image_with_text
  ∧ ∃ msg,
      _extract_content malformed_image_with_text
      = ((None, None), [(ERROR, msg)])
      ∧ _on_clipboard_change (Returns (Some malformed_image_with_text)) 1
          (fresh_monitor 10)
        = log [(ERROR, msg)] (fresh_monitor 10)
      ∧ ∀ clipboard now',
          let next := _on_clipboard_change clipboard now' in
          _history_manager
            (next (_on_clipboard_change
                     (Returns (Some malformed_image_with_text)) 1
                     (fresh_monitor 10)))
          = _history_manager (next (fresh_monitor 10))
          ∧ _last_hash
              (next (_on_clipboard_change
                       (Returns (Some malformed_image_with_text)) 1
                       (fresh_monitor 10)))
            = _last_hash (next (fresh_monitor 10)).
Proof.
  assert (image_branch_fails malformed_image_with_text) as Hfail
    by (right; split; [reflexivity|right; reflexivity]).
  split; [exact Hfail|].
  exact (image_failure_drops_notification (fresh_monitor 10)
           malformed_image_with_text 1 Hfail).
Defined.

(** The handler in terms of the entry that it constructs: without one,
    the store and the last fingerprint are left as they are; with one, its
    fingerprint is compared with the last one, and the entry is added when
    they differ. *)
Lemma on_clipboard_change_constructed clipboard now self :
  let self' := _on_clipboard_change clipboard now self in
  match constructed_entry clipboard now with
  | None =>
      _history_manager self' = _history_manager self
      ∧ _last_hash self' = _last_hash self
  | Some content =>
      if decide (Some (get_hash content) = _last_hash self)
      then _history_manager self' = _history_manager self
           ∧ _last_hash self' = _last_hash self
      else _history_manager self'
           = state_of (HistoryManager.add_item content (_history_manager self))
           ∧ _last_hash self' = Some (get_hash content)
  end.
Proof.
  cbv zeta. unfold constructed_entry.
  destruct clipboard as [[mime_data|]|]; [|done|done].
  destruct (_extract_content mime_data) as [[[content_type|] [d|]] lg] eqn:Hex;
    cbn [fst]; try by (unfold _on_clipboard_change; rewrite Hex).
  rewrite (on_clipboard_change_content _ _ _ _ _ _ Hex).
  destruct (_ >? _); [done|].
  change (_last_hash (log lg self)) with (_last_hash self).
  destruct (decide _); [done|].
  by destruct (HistoryManager.add_item _ _).
Qed.


(** C6 as it is stated does not hold: it says that at the second of two
    notifications of equal fingerprints no entry is constructed.  On the
    text [hello] notified twice to a fresh monitor, the second
    notification has the fingerprint that the first one left, and it
    constructs an entry, the text with the time of the second
    notification, which is not the entry of the first; the entry is then
    dropped, the monitor and the history being left as they were. *)
Lemma duplicate_entry_is_constructed :
  let clipboard := Returns (Some (text_clipboard "hello")) in
  let self1 := _on_clipboard_change clipboard 1 (fresh_monitor 10) in
  let self2 := _on_clipboard_change clipboard 2 self1 in
  _last_hash self1 = Some (get_hash (text_entry "hello" 1))
  ∧ get_hash (text_entry "hello" 2) = get_hash (text_entry "hello" 1)
  ∧ constructed_entry clipboard 2 = Some (text_entry "hello" 2)
  ∧ constructed_entry clipboard 2 ≠ None
  ∧ text_entry "hello" 2 ≠ text_entry "hello" 1
  ∧ self2 = self1
  ∧ HistoryManager.get_history (_history_manager self2)
    = [text_entry "hello" 1].
Proof.
  cbv zeta. split_and!; try (vm_compute; reflexivity); by vm_compute.
Qed.

(** C6, amended (adjacent duplicates are suppressed by the watcher).  Take
    two consecutive notifications whose contents have equal fingerprints
    and texts that can be encoded, the first of which passed the size
    check (so that its fingerprint was computed).  The second one is a
    no-op on the store: the monitor is left as the first notification left
    it, but for what the extraction and the size check log; [add_item] is
    not called, the history manager and the last fingerprint are
    unchanged.  When the second content passes the size check, its entry
    is constructed, the fingerprint is computed from it and is the last
    one, and the entry is dropped; when it does not, no entry is
    constructed.  In particular, the same content notified twice to a
    fresh monitor over an empty store of positive depth leaves exactly one
    entry, the one built at the first notification. *)
Theorem adjacent_duplicate_suppressed
    (self : t) (m1 m2 : QMimeData) (now1 now2 : Z)
    (t1 t2 : ContentType) (d1 d2 : payload) (lg1 lg2 : list log_record) :
  _extract_content m1 = ((Some t1, Some d1), lg1) →
  _extract_content m2 = ((Some t2, Some d2), lg2) →
  encodable_payload d1 = true →
  encodable_payload d2 = true →
  _estimate_content_size t1 d1 ≤ MAX_CONTENT_SIZE_BYTES →
  get_hash (new_content t1 d1 now1) = get_hash (new_content t2 d2 now2) →
  let self1 := _on_clipboard_change (Returns (Some m1)) now1 self in
  let self2 := _on_clipboard_change (Returns (Some m2)) now2 self1 in
  (self2 = log lg2 self1
   ∨ self2 = log [(WARNING, ContentTooLarge (_estimate_content_size t2 d2))]
               (log lg2 self1))
  ∧ _history_manager self2 = _history_manager self1
  ∧ _last_hash self2 = _last_hash self1
  ∧ (_last_hash self = None →
     HistoryManager.get_history (_history_manager self) = [] →
     store_ok (_history_manager self) →
     0 < HistoryManager._max_depth (_history_manager self) →
     HistoryManager.get_history (_history_manager self2)
     = [new_content t1 d1 now1])
  ∧ (_estimate_content_size t2 d2 ≤ MAX_CONTENT_SIZE_BYTES →
     constructed_entry (Returns (Some m2)) now2
     = Some (new_content t2 d2 now2)
     ∧ Some (get_hash (new_content t2 d2 now2)) = _last_hash self1
     ∧ self2 = log lg2 self1)
  ∧ (_estimate_content_size t2 d2 > MAX_CONTENT_SIZE_BYTES →
     constructed_entry (Returns (Some m2)) now2 = None).
Proof.
  intros Hex1 Hex2 _ _ Hsize Hhash. cbv zeta.
  pose proof (last_hash_after_content self _ now1 _ _ _ Hex1 Hsize) as Hlast.
  rewrite Hhash in Hlast.
  pose proof (same_hash_dropped _ _ now2 _ _ _ Hex2 Hlast) as Hdrop.
  assert (_history_manager
            (_on_clipboard_change (Returns (Some m2)) now2
               (_on_clipboard_change (Returns (Some m1)) now1 self))
          = _history_manager
              (_on_clipboard_change (Returns (Some m1)) now1 self)) as Hhm
    by (rewrite Hdrop; by destruct (_ >? _)).
  split_and!;
    [rewrite Hdrop; destruct (_ >? _); [by right|by left]
    |done
    |rewrite Hdrop; by destruct (_ >? _)| | |].
  - intros Hnone Hnil Hok Hk. rewrite Hhm.
    rewrite (on_clipboard_change_content _ _ _ _ _ _ Hex1).
    destruct (Z.gtb_spec (_estimate_content_size t1 d1) MAX_CONTENT_SIZE_BYTES);
      [lia|].
    destruct (decide _) as [Heq|_]; [congruence|].
    rewrite add_item_spec by done. simpl. rewrite Hnil.
    unfold promote. rewrite filter_nil.
    destruct (Z.to_nat (HistoryManager._max_depth (_history_manager self)))
      eqn:Hn; [lia|].
    unfold HistoryManager.get_history. simpl. by rewrite take_nil.
  - intros Hsize2. rewrite Hdrop. unfold constructed_entry. rewrite Hex2.
    cbn [fst].
    destruct (Z.gtb_spec (_estimate_content_size t2 d2) MAX_CONTENT_SIZE_BYTES);
      [lia|done].
  - intros Hbig. unfold constructed_entry. rewrite Hex2. cbn [fst].
    destruct (Z.gtb_spec (_estimate_content_size t2 d2) MAX_CONTENT_SIZE_BYTES);
      [done|lia].
Qed.

Lemma adjacent_duplicate_suppressed_witness :
  _extract_content (text_clipboard "hello")
    = ((Some TEXT, Some (PStr (str_of_string "hello"))), [])
  ∧ encodable_payload (PStr (str_of_string "hello")) = true
  ∧ _estimate_content_size TEXT (PStr (str_of_string "hello"))
    ≤ MAX_CONTENT_SIZE_BYTES
  ∧ get_hash (text_entry "hello" 1) = get_hash (text_entry "hello" 2)
  ∧ (let self1 :=
       _on_clipboard_change (Returns (Some (text_clipboard "hello"))) 1
         (fresh_monitor 10)
       in
     let self2 :=
       _on_clipboard_change (Returns (Some (text_clipboard "hello"))) 2
         self1
       in
     (self2 = log [] self1
      ∨ self2 =
        log
          [(WARNING,
            ContentTooLarge
              (_estimate_content_size TEXT (PStr (str_of_string "hello"))))]
          (log [] self1))
     ∧ _history_manager self2 = _history_manager self1
       ∧ _last_hash self2 = _last_hash self1
         ∧ (_last_hash (fresh_monitor 10) = None
            → HistoryManager.get_history
                (_history_manager (fresh_monitor 10)) =
              []
              → store_ok (_history_manager (fresh_monitor 10))
                → 0 <
                  HistoryManager._max_depth
                    (_history_manager (fresh_monitor 10))
                  → HistoryManager.get_history (_history_manager self2) =
                    [new_content TEXT (PStr (str_of_string "hello")) 1])
           ∧ (_estimate_content_size TEXT (PStr (str_of_string "hello"))
              ≤ MAX_CONTENT_SIZE_BYTES
              → constructed_entry
                  (Returns (Some (text_clipboard "hello"))) 2 =
                Some (new_content TEXT (PStr (str_of_string "hello")) 2)
                ∧ Some
                    (get_hash
                       (new_content TEXT (PStr (str_of_string "hello")) 2)) =
                  _last_hash self1 ∧ self2 = log [] self1)
             ∧ (_estimate_content_size TEXT
                  (PStr (str_of_string "hello")) >
                MAX_CONTENT_SIZE_BYTES
                → constructed_entry
                    (Returns (Some (text_clipboard "hello"))) 2 =
                  None)).
Proof.
  assert (_extract_content (text_clipboard "hello")
          = ((Some TEXT, Some (PStr (str_of_string "hello"))), []))
    as H1
    by (reflexivity).
  assert (encodable_payload (PStr (str_of_string "hello")) = true)
    as H2
    by (reflexivity).
  assert (_estimate_content_size TEXT (PStr (str_of_string "hello"))
          ≤ MAX_CONTENT_SIZE_BYTES)
    as H3
    by (compute_done).
  assert (get_hash (text_entry "hello" 1) = get_hash (text_entry "hello" 2))
    as H4
    by (reflexivity).
  split; [exact H1|].
  split; [exact H2|].
  split; [exact H3|].
  split; [exact H4|].
  exact (adjacent_duplicate_suppressed (fresh_monitor 10) (text_clipboard
           "hello") (text_clipboard "hello") 1 2 TEXT TEXT (PStr
           (str_of_string "hello")) (PStr (str_of_string "hello")) []
           [] H1 H1 H2 H2 H3 H4).
Defined.

(** C7 (oversized content is rejected).  A notification whose extracted
    payload has an estimated size above [MAX_CONTENT_SIZE_BYTES] (10 MiB)
    only logs a warning: the history manager and the last fingerprint are
    left as they were, before any entry is built.  Hence, from a store whose
    entries are within the ceiling (the empty one, for instance), no run of
    the application (notifications, changes of depth, clearings) puts an
    entry whose payload exceeds the ceiling in the history. *)
Theorem oversized_content_rejected
    (self : t) (acts : list Application.action) :
  Forall within_ceiling (HistoryManager.get_history (_history_manager self)) →
  (∀ mime_data now content_type d lg,
     _extract_content mime_data = ((Some content_type, Some d), lg) →
     _estimate_content_size content_type d > MAX_CONTENT_SIZE_BYTES →
     _on_clipboard_change (Returns (Some mime_data)) now self
     = log [(WARNING,
             ContentTooLarge (_estimate_content_size content_type d))]
         (log lg self))
  ∧ Forall within_ceiling
      (HistoryManager.get_history
         (_history_manager (Application.run acts self))).
Proof.
  intros Hall. split.
  - intros mime_data now content_type d lg Hex Hsize.
    rewrite (on_clipboard_change_content _ _ _ _ _ _ Hex).
    by destruct (Z.gtb_spec (_estimate_content_size content_type d)
                   MAX_CONTENT_SIZE_BYTES); [|lia].
  - revert self Hall. unfold Application.run.
    induction acts as [|a acts IH]; intros self Hall; [done|].
    simpl. by apply IH, step_within_ceiling.
Qed.

Lemma oversized_content_rejected_witness :
  Forall within_ceiling
    (HistoryManager.get_history (_history_manager (fresh_monitor 10)))
  ∧ (∀ mime_data now content_type d lg,
       _extract_content mime_data = ((Some content_type, Some d), lg) →
       _estimate_content_size content_type d > MAX_CONTENT_SIZE_BYTES →
       _on_clipboard_change (Returns (Some mime_data)) now (fresh_monitor 10)
       = log [(WARNING,
               ContentTooLarge (_estimate_content_size content_type d))]
           (log lg (fresh_monitor 10)))
  ∧ Forall within_ceiling
      (HistoryManager.get_history
         (_history_manager
            (Application.run sample_run (fresh_monitor 10)))).
Proof.
  assert (Forall within_ceiling
            (HistoryManager.get_history (_history_manager (fresh_monitor 10))))
    as Hall by constructor.
  split; [exact Hall|].
  exact (oversized_content_rejected (fresh_monitor 10) sample_run Hall).
Defined.

Example sample_run_history :
  HistoryManager.get_history
    (_history_manager (Application.run sample_run (fresh_monitor 10)))
  = [text_entry "world" 6].
Proof. vm_compute. reflexivity. Qed.

(** An image of one byte more than the ceiling is dropped. *)
Example oversized_image_dropped (now : Z) :
  _on_clipboard_change
    (Returns (Some (image_clipboard (Z.to_nat (MAX_CONTENT_SIZE_BYTES + 1)))))
    now (fresh_monitor 10)
  = log [(WARNING, ContentTooLarge (MAX_CONTENT_SIZE_BYTES + 1))]
      (fresh_monitor 10).
Proof.
  rewrite (on_clipboard_change_content _ _ _ IMAGE
             (PBytes (replicate (Z.to_nat (MAX_CONTENT_SIZE_BYTES + 1)) x00))
             []) by reflexivity.
  unfold _estimate_content_size. rewrite length_replicate, Z2Nat.id by done.
  reflexivity.
Qed.

(** Content of exactly the ceiling is accepted: the comparison is strict. *)
Example ceiling_is_inclusive (mime_data : QMimeData) (now : Z) (d : payload) :
  _extract_content mime_data = ((Some IMAGE, Some d), []) →
  _estimate_content_size IMAGE d = MAX_CONTENT_SIZE_BYTES →
  _last_hash (_on_clipboard_change (Returns (Some mime_data)) now
                (fresh_monitor 10))
  = Some (get_hash (new_content IMAGE d now)).
Proof.
  intros Hex Hsize. apply (last_hash_after_content _ _ _ _ _ _ Hex). lia.
Qed.

End MonitorFacts.

(** ** Facts about the permission logic *)

Section AppFacts.
Import MainApplication.

Lemma ticks_cons w ws s :
  ticks (w :: ws) s = and_then (_on_timer_tick w s) (ticks ws).
Proof.
  unfold ticks. simpl. destruct (_on_timer_tick w s) as [s'|e s']; [done|].
  simpl. induction ws as [|w' ws IH]; [done|]. simpl. apply IH.
Qed.

Ltac app_unfold :=
  unfold settled, polling, initial_known in *;
  unfold _on_timer_tick, _check_permission_status, _check_permission_revocation,
    _handle_permission_loss, _start_permission_monitoring,
    check_accessibility_permission, revocation_notices, restart_notices in *.

Ltac app_cases :=
  repeat match goal with
         | |- context [Qle_bool ?a ?b] => destruct (Qle_bool a b) eqn:?
         | |- context [?a >=? ?b] => destruct (Z.geb_spec a b)
         end; simpl in *.

Ltac absurd_initial :=
  match goal with
  | H : true = true → is_Some None |- _ =>
      destruct (H eq_refl) as [? ?]; discriminate
  end.

Ltac count_events :=
  rewrite ?filter_app, ?length_app; simpl; lia.

(** Case analysis on the flags of a state. *)
Ltac app_flags s :=
  destruct s as [reg act cnt mx lt iv rt lst ntf [[|]|] tr];
  destruct reg, act, lst, ntf; app_unfold; simpl in *.

(** A tick while the permission is denied and no notice is pending. *)
Lemma tick_settled w s :
  denied w → settled s →
  ∃ s', _on_timer_tick w s = Done s'
        ∧ settled s'
        ∧ revocation_notices s' = revocation_notices s
        ∧ (_permission_revocation_notified s = true →
           _permission_revocation_notified s' = true).
Proof.
  unfold denied. destruct w as [tm tr']. simpl. intros ->.
  app_flags s; intros [Hq Hi]; try absurd_initial;
    try (destruct Hq; discriminate);
    app_cases; eexists; (split; [reflexivity|]); simpl;
    repeat split; try done; try tauto; try (by eauto); try count_events.
Qed.

Lemma ticks_settled ws s :
  Forall denied ws → settled s →
  ∃ s', ticks ws s = Done s'
        ∧ settled s'
        ∧ revocation_notices s' = revocation_notices s
        ∧ (_permission_revocation_notified s = true →
           _permission_revocation_notified s' = true).
Proof.
  intros Hws. revert s. induction Hws as [|w ws Hw _ IH]; intros s Hs.
  - by exists s.
  - destruct (tick_settled w s Hw Hs) as (s1 & Htick & Hs1 & Hn1 & Hg1).
    destruct (IH s1 Hs1) as (s' & Hticks & Hs' & Hn' & Hg').
    exists s'. rewrite ticks_cons, Htick. simpl.
    split_and!; [done|done|congruence|auto].
Qed.

(** A tick while the permission is denied: at most one notice, and then no
    notice is pending. *)
Lemma tick_denied w s :
  denied w → initial_known s →
  ∃ s', _on_timer_tick w s = Done s'
        ∧ ((initial_known s' ∧ revocation_notices s' = revocation_notices s)
           ∨ (settled s' ∧ revocation_notices s' = S (revocation_notices s))).
Proof.
  unfold denied. destruct w as [tm tr']. simpl. intros ->.
  app_flags s; intros Hi; try absurd_initial;
    app_cases; eexists; (split; [reflexivity|]); simpl;
    first [ left; split; [by eauto|count_events]
          | right; split; [split; by eauto|count_events] ].
Qed.

(** At most one notice in a run of ticks during which the permission is
    denied. *)
Lemma ticks_denied_at_most_one ws s :
  Forall denied ws → initial_known s →
  ∃ s', ticks ws s = Done s'
        ∧ (revocation_notices s' ≤ S (revocation_notices s))%nat.
Proof.
  intros Hws. revert s. induction Hws as [|w ws Hw Hws IH]; intros s Hs.
  - exists s. split; [done|lia].
  - destruct (tick_denied w s Hw Hs) as (s1 & Htick & [[Hs1 Hn1]|[Hs1 Hn1]]).
    + destruct (IH s1 Hs1) as (s' & Hticks & Hn').
      exists s'. rewrite ticks_cons, Htick. simpl. split; [done|lia].
    + destruct (ticks_settled ws s1 Hws Hs1) as (s' & Hticks & _ & Hn' & _).
      exists s'. rewrite ticks_cons, Htick. simpl. split; [done|lia].
Qed.

(** The guard stays set through a tick that sees the permission denied. *)
Lemma guard_kept_while_denied w s :
  denied w → _permission_revocation_notified s = true →
  _permission_revocation_notified (state_of (_on_timer_tick w s)) = true.
Proof.
  unfold denied. destruct w as [tm tr']. simpl. intros ->.
  app_flags s; intros Hn; try discriminate; app_cases; done.
Qed.

(** A tick that clears the guard has seen the permission granted. *)
Lemma guard_cleared_only_when_granted w s :
  _permission_revocation_notified s = true →
  _permission_revocation_notified (state_of (_on_timer_tick w s)) = false →
  trusted w = true.
Proof.
  intros Hn Hc. destruct (trusted w) eqn:Hw; [done|].
  rewrite (guard_kept_while_denied w s Hw Hn) in Hc. discriminate.
Qed.

(** Outside the ticks, the guard is cleared by [_register_hotkey], and
    only when the registration succeeded. *)
Lemma register_hotkey_clears_guard success s :
  _permission_revocation_notified s = true →
  _permission_revocation_notified (_register_hotkey success s).2 = false →
  success = true.
Proof. destruct success, s; simpl; congruence. Qed.

(** The passive check that sees the permission granted. *)
Lemma tick_granted_passive w s :
  trusted w = true →
  _permission_monitoring_active s = false →
  Qle_bool (_revocation_check_interval s)
           (now w - _revocation_last_check_time s) = true →
  ∃ s', _on_timer_tick w s = Done s'
        ∧ _permission_monitoring_active s' = false
        ∧ _last_permission_state s' = true
        ∧ _permission_revocation_notified s' = false
        ∧ _revocation_check_interval s' = _revocation_check_interval s
        ∧ _revocation_last_check_time s' = now w
        ∧ revocation_notices s' = revocation_notices s.
Proof.
  destruct w as [tm tr']. simpl. intros ->.
  app_flags s; intros Ha Hdue; try discriminate; rewrite Hdue;
    eexists; (split; [reflexivity|]); simpl; split_and!; try done;
    count_events.
Qed.

(** The passive check that sees the permission denied after it was seen
    granted: the revocation. *)
Lemma tick_revocation w s :
  denied w →
  _permission_monitoring_active s = false →
  _last_permission_state s = true →
  _permission_revocation_notified s = false →
  Qle_bool (_revocation_check_interval s)
           (now w - _revocation_last_check_time s) = true →
  ∃ s', _on_timer_tick w s = Done s'
        ∧ settled s'
        ∧ _permission_revocation_notified s' = true
        ∧ _hotkey_registered s' = false
        ∧ _permission_monitoring_active s' = true
        ∧ revocation_notices s' = S (revocation_notices s).
Proof.
  unfold denied. destruct w as [tm tr']. simpl. intros ->.
  app_flags s; intros Ha Hl Hn Hdue; try discriminate; rewrite Hdue;
    eexists; (split; [reflexivity|]); simpl; split_and!; try done;
    try (by eauto); count_events.
Qed.

(** A tick of a polling that started on a denied permission, while the
    permission stays denied. *)
Lemma tick_polling w s :
  denied w → polling s →
  ∃ s', _on_timer_tick w s = Done s'
        ∧ polling s'
        ∧ restart_notices s' = restart_notices s
        ∧ (_permission_monitoring_active s = false →
           _permission_monitoring_active s' = false
           ∧ _permission_check_count s' = _permission_check_count s).
Proof.
  unfold denied. destruct w as [tm tr']. simpl. intros ->.
  app_flags s; intros (-> & Hini & Hl & Hc & Ha); try discriminate;
    app_cases; eexists; (split; [reflexivity|]); simpl;
    split_and!; try done; try lia; try (intros; lia);
    try (intros; discriminate); try count_events.
  all: specialize (Ha eq_refl); lia.
Qed.

Lemma ticks_polling ws s :
  Forall denied ws → polling s →
  ∃ s', ticks ws s = Done s'
        ∧ polling s'
        ∧ restart_notices s' = restart_notices s
        ∧ (_permission_monitoring_active s = false →
           _permission_monitoring_active s' = false
           ∧ _permission_check_count s' = _permission_check_count s).
Proof.
  intros Hws. revert s. induction Hws as [|w ws Hw _ IH]; intros s Hs.
  - by exists s.
  - destruct (tick_polling w s Hw Hs) as (s1 & Htick & Hs1 & Hr1 & Hi1).
    destruct (IH s1 Hs1) as (s' & Hticks & Hs' & Hr' & Hi').
    exists s'. rewrite ticks_cons, Htick. simpl.
    split_and!; [done|done|congruence|].
    intros Ha. destruct (Hi1 Ha) as [Ha1 Hc1].
    destruct (Hi' Ha1) as [Ha' Hc']. split; [done|congruence].
Qed.

(** A check of the active polling that is due and sees the permission
    denied: one more attempt, the last one when the budget is reached. *)
Lemma tick_polling_due w s :
  denied w → polling s →
  _permission_monitoring_active s = true →
  Qle_bool 2 (now w - _permission_last_check_time s) = true →
  ∃ s', _on_timer_tick w s = Done s'
        ∧ polling s'
        ∧ restart_notices s' = restart_notices s
        ∧ _permission_check_count s' = _permission_check_count s + 1
        ∧ _permission_last_check_time s' = now w
        ∧ _permission_monitoring_active s'
          = bool_decide (_permission_check_count s + 1 < 30).
Proof.
  unfold denied. destruct w as [tm tr']. simpl. intros ->.
  app_flags s; intros (-> & Hini & Hl & Hc & Ha) Hact Hdue; try discriminate;
    rewrite Hdue; specialize (Ha eq_refl); app_cases;
    eexists; (split; [reflexivity|]); simpl;
    split_and!; try done; try lia; try (intros; lia);
    try (intros; discriminate); try count_events.
  all: symmetry; first [by apply bool_decide_eq_false_2; lia
                       |by apply bool_decide_eq_true_2; lia].
Qed.

(** A tick of the active polling that is not due does nothing. *)
Lemma tick_polling_not_due w s :
  _permission_monitoring_active s = true →
  Qle_bool 2 (now w - _permission_last_check_time s) = false →
  _on_timer_tick w s = Done s.
Proof. intros Ha Hdue. unfold _on_timer_tick. by rewrite Ha, Hdue. Qed.

(** The active polling makes one check per due tick, up to the budget. *)
Lemma ticks_polling_due_checks ws s :
  Forall denied ws → polling s →
  _permission_monitoring_active s = true →
  ∃ s', ticks ws s = Done s'
        ∧ polling s'
        ∧ restart_notices s' = restart_notices s
        ∧ (_permission_check_count s
           + Z.of_nat (due_checks (_permission_last_check_time s) ws) < 30 →
           _permission_monitoring_active s' = true
           ∧ _permission_check_count s'
             = _permission_check_count s
               + Z.of_nat (due_checks (_permission_last_check_time s) ws))
        ∧ (30 ≤ _permission_check_count s
                + Z.of_nat (due_checks (_permission_last_check_time s) ws) →
           _permission_monitoring_active s' = false
           ∧ _permission_check_count s' = 30).
Proof.
  intros Hws. revert s. induction Hws as [|w ws Hw Hws IH]; intros s Hs Ha.
  - exists s. split_and!; try done.
    + simpl. intros ?. split; [done|lia].
    + simpl. intros ?. destruct Hs as (_ & _ & _ & _ & Hlt).
      specialize (Hlt Ha). lia.
  - rewrite ticks_cons. cbn [due_checks].
    destruct (Qle_bool 2 (now w - _permission_last_check_time s)) eqn:Hdue.
    + destruct (tick_polling_due w s Hw Hs Ha Hdue)
        as (s1 & Htick & Hs1 & Hr1 & Hc1 & Ht1 & Ha1).
      rewrite Htick. simpl and_then. rewrite <- Ht1.
      destruct (decide (_permission_check_count s + 1 < 30)) as [Hlt|Hge].
      * rewrite bool_decide_eq_true_2 in Ha1 by done.
        destruct (IH s1 Hs1 Ha1) as (s' & Hticks & Hs' & Hr' & Hin & Hout).
        exists s'.
        split_and!; [done|done|congruence| |]; intros ?;
          [destruct Hin as [? ?]|destruct Hout as [? ?]]; try lia.
        all: split; [done|lia].
      * rewrite bool_decide_eq_false_2 in Ha1 by done.
        destruct (ticks_polling ws s1 Hws Hs1)
          as (s' & Hticks & Hs' & Hr' & Hi').
        destruct (Hi' Ha1) as [Ha' Hc'].
        exists s'.
        destruct Hs as (_ & _ & _ & _ & Hlt). specialize (Hlt Ha).
        split_and!; [done|done|congruence| |]; intros ?; [lia|].
        split; [done|lia].
    + rewrite (tick_polling_not_due w s Ha Hdue). simpl and_then.
      by apply IH.
Qed.

(** The polling as [_start_permission_monitoring] sets it up. *)
Lemma start_polling w s :
  denied w → _permission_monitoring_active s = false →
  let s0 := _start_permission_monitoring w s in
  polling s0
  ∧ _permission_monitoring_active s0 = true
  ∧ _permission_check_count s0 = 0
  ∧ _permission_last_check_time s0 = now w
  ∧ restart_notices s0 = restart_notices s.
Proof.
  unfold denied. destruct w as [tm tr']. simpl. intros ->.
  app_flags s; intros Ha; try discriminate; simpl;
    split_and!; try done; try lia; try (intros; lia); count_events.
Qed.

(** A check of the active polling that sees the permission granted after a
    denied start. *)
Lemma tick_polling_granted w s :
  trusted w = true →
  _permission_monitoring_active s = true →
  _initial_permission_state s = Some false →
  Qle_bool 2 (now w - _permission_last_check_time s) = true →
  ∃ s', _on_timer_tick w s = Done s'
        ∧ _permission_monitoring_active s' = false
        ∧ _permission_revocation_notified s' = false
        ∧ restart_notices s' = S (restart_notices s).
Proof.
  destruct w as [tm tr']. simpl. intros ->.
  app_flags s; intros Ha Hi Hdue; try discriminate; rewrite Hdue;
    eexists; (split; [reflexivity|]); simpl; split_and!; try done;
    count_events.
Qed.

(** Without active polling a tick is the passive check for a revocation,
    every [_revocation_check_interval] seconds. *)
Lemma tick_passive w s :
  _permission_monitoring_active s = false →
  _on_timer_tick w s =
  if Qle_bool (_revocation_check_interval s)
              (now w - _revocation_last_check_time s)
  then Done (_check_permission_revocation w
               (set_revocation_last_check_time (now w) s))
  else Done s.
Proof. intros Ha. unfold _on_timer_tick. by rewrite Ha. Qed.


(** C3 (one notice per revocation).  Start without active polling; let the
    passive check be due at a tick that sees the permission granted and due
    again at the next tick, which sees it denied; let any number of ticks
    that see it denied follow, at any times.  No tick raises; the first
    tick gives no notice, the second one (the granted-to-denied edge) gives
    exactly one [show_permission_dialog], and the ticks that follow give
    none.  The guard [_permission_revocation_notified] is clear after the
    granted tick and set from the edge on; in any state, a tick that sees
    the permission denied leaves a set guard set, so that the guard is
    cleared only by a tick that sees the permission granted. *)
Theorem revocation_notified_once (s : t) (w1 w2 : world) (ws : list world) :
  _permission_monitoring_active s = false →
  trusted w1 = true → denied w2 → Forall denied ws →
  Qle_bool (_revocation_check_interval s)
           (now w1 - _revocation_last_check_time s) = true →
  Qle_bool (_revocation_check_interval s) (now w2 - now w1) = true →
  ∃ s1 s2 s3,
    _on_timer_tick w1 s = Done s1
    ∧ _on_timer_tick w2 s1 = Done s2
    ∧ ticks ws s2 = Done s3
    ∧ revocation_notices s1 = revocation_notices s
    ∧ revocation_notices s2 = S (revocation_notices s)
    ∧ revocation_notices s3 = S (revocation_notices s)
    ∧ _permission_revocation_notified s1 = false
    ∧ _permission_revocation_notified s2 = true
    ∧ _permission_revocation_notified s3 = true
    ∧ ∀ w s0, denied w → _permission_revocation_notified s0 = true →
        _permission_revocation_notified (state_of (_on_timer_tick w s0)) = true.
Proof.
  intros Ha Hw1 Hw2 Hws Hdue1 Hdue2.
  destruct (tick_granted_passive w1 s Hw1 Ha Hdue1)
    as (s1 & Ht1 & Ha1 & Hl1 & Hn1 & Hiv1 & Hrt1 & Hc1).
  rewrite <- Hiv1, <- Hrt1 in Hdue2.
  destruct (tick_revocation w2 s1 Hw2 Ha1 Hl1 Hn1 Hdue2)
    as (s2 & Ht2 & Hs2 & Hn2 & _ & _ & Hc2).
  destruct (ticks_settled ws s2 Hws Hs2) as (s3 & Ht3 & _ & Hc3 & Hn3).
  exists s1, s2, s3.
  split_and!; try done; try congruence; try (by auto).
  intros w s0. apply guard_kept_while_denied.
Qed.

Lemma revocation_notified_once_witness :
  _permission_monitoring_active registered_app = false
  ∧ trusted (at_second 5 true) = true
  ∧ denied (at_second 10 false)
  ∧ Forall denied [at_second 15 false; at_second 20 false]
  ∧ ∃ s1 s2 s3,
      _on_timer_tick (at_second 5 true) registered_app = Done s1
      ∧ _on_timer_tick (at_second 10 false) s1 = Done s2
      ∧ ticks [at_second 15 false; at_second 20 false] s2 = Done s3
      ∧ revocation_notices s1 = revocation_notices registered_app
      ∧ revocation_notices s2 = S (revocation_notices registered_app)
      ∧ revocation_notices s3 = S (revocation_notices registered_app)
      ∧ _permission_revocation_notified s1 = false
      ∧ _permission_revocation_notified s2 = true
      ∧ _permission_revocation_notified s3 = true
      ∧ ∀ w s0, denied w → _permission_revocation_notified s0 = true →
          _permission_revocation_notified (state_of (_on_timer_tick w s0))
          = true.
Proof.
  assert (Forall denied [at_second 15 false; at_second 20 false]) as Hws
    by (repeat constructor).
  split; [reflexivity|]. split; [reflexivity|]. split; [reflexivity|].
  split; [exact Hws|].
  exact (revocation_notified_once registered_app
           (at_second 5 true) (at_second 10 false)
           [at_second 15 false; at_second 20 false]
           eq_refl eq_refl eq_refl Hws eq_refl eq_refl).
Defined.

(** The capability sequence [true, false, false, false] of the
    specification, one tick every five seconds: the notices counted after
    each tick. *)
Example revocation_sequence :
  (λ n, revocation_notices
          (state_of (ticks (take n [at_second 5 true; at_second 10 false;
                                    at_second 15 false; at_second 20 false])
                       registered_app)))
  <$> [1; 2; 3; 4]%nat
  = [0; 1; 1; 1]%nat.
Proof. vm_compute. reflexivity. Qed.

(** What the revocation tick does, call by call. *)
Example revocation_trace :
  trace (state_of (ticks [at_second 5 true; at_second 10 false]
                     registered_app))
  = [CheckAccessibility true; CheckAccessibility false; UnregisterHotkey;
     UpdateMenu; ShowPermissionDialog; CheckAccessibility false].
Proof. vm_compute. reflexivity. Qed.

(** A second revocation, after the permission was seen granted again, is
    a new episode with its own notice. *)
Example second_episode_notified :
  revocation_notices
    (state_of (ticks [at_second 5 true; at_second 10 false;
                      at_second 15 true; at_second 20 true;
                      at_second 100 true; at_second 105 false]
                 registered_app))
  = 2%nat.
Proof. vm_compute. reflexivity. Qed.

(** C8 (the polling for a grant is bounded).  Let the active polling start
    (from a state without it) on a denied permission, and let any ticks
    follow that all see the permission denied.  No tick raises, the budget is
    30 and the number of checks made by the polling never exceeds it, and no
    restart dialog is shown.  The polling makes one check at each tick that
    comes two seconds or more after the last check: while fewer than 30
    such ticks have come it is still active and has made that many checks;
    from the 30th on it is inactive and has made 30 checks.  Once it is
    inactive a tick is the passive check for a revocation.  While it is
    active, a due check that sees the permission granted stops it at once
    and shows the restart dialog. *)
Theorem grant_polling_is_bounded (s : t) (w0 : world) (ws : list world) :
  _permission_monitoring_active s = false →
  denied w0 → Forall denied ws →
  ∃ s',
    ticks ws (_start_permission_monitoring w0 s) = Done s'
    ∧ _max_permission_checks s' = 30
    ∧ 0 ≤ _permission_check_count s' ≤ 30
    ∧ restart_notices s' = restart_notices s
    ∧ (Z.of_nat (due_checks (now w0) ws) < 30 →
       _permission_monitoring_active s' = true
       ∧ _permission_check_count s' = Z.of_nat (due_checks (now w0) ws))
    ∧ (30 ≤ Z.of_nat (due_checks (now w0) ws) →
       _permission_monitoring_active s' = false
       ∧ _permission_check_count s' = 30)
    ∧ (_permission_monitoring_active s' = false →
       ∀ w, _on_timer_tick w s' =
            if Qle_bool (_revocation_check_interval s')
                        (now w - _revocation_last_check_time s')
            then Done (_check_permission_revocation w
                         (set_revocation_last_check_time (now w) s'))
            else Done s')
    ∧ (_permission_monitoring_active s' = true →
       ∀ w, trusted w = true →
            Qle_bool 2 (now w - _permission_last_check_time s') = true →
            ∃ s'', _on_timer_tick w s' = Done s''
                   ∧ _permission_monitoring_active s'' = false
                   ∧ restart_notices s'' = S (restart_notices s')).
Proof.
  intros Ha Hw0 Hws.
  destruct (start_polling w0 s Hw0 Ha) as (Hp0 & Ha0 & Hc0 & Ht0 & Hr0).
  destruct (ticks_polling ws _ Hws Hp0) as (s' & Hticks & Hp' & Hr' & _).
  exists s'. pose proof Hp' as (Hmax & Hini & _ & Hcount & _).
  destruct (ticks_polling_due_checks ws _ Hws Hp0 Ha0)
    as (s'' & Hticks' & _ & _ & Hin & Hout).
  rewrite Hticks in Hticks'. injection Hticks' as <-.
  rewrite Hc0, Ht0 in Hin, Hout.
  do 3 (split; [done|]). split; [congruence|]. split_and!.
  - intros ?. apply Hin. lia.
  - intros ?. apply Hout. lia.
  - intros Ha' w. by apply tick_passive.
  - intros Ha' w Hw Hdue.
    destruct (tick_polling_granted w s' Hw Ha' Hini Hdue)
      as (s'' & Htick & Ha'' & _ & Hr'').
    by exists s''.
Qed.

Lemma grant_polling_is_bounded_witness :
  _permission_monitoring_active __init__ = false
  ∧ denied (at_second 0 false)
  ∧ Forall denied (denied_ticks 31)
  ∧ ∃ s',
      ticks (denied_ticks 31)
        (_start_permission_monitoring (at_second 0 false) __init__) = Done s'
      ∧ _max_permission_checks s' = 30
      ∧ 0 ≤ _permission_check_count s' ≤ 30
      ∧ restart_notices s' = restart_notices __init__
      ∧ (Z.of_nat (due_checks (now (at_second 0 false)) (denied_ticks 31))
         < 30 →
         _permission_monitoring_active s' = true
         ∧ _permission_check_count s'
           = Z.of_nat (due_checks (now (at_second 0 false)) (denied_ticks 31)))
      ∧ (30 ≤ Z.of_nat (due_checks (now (at_second 0 false))
                          (denied_ticks 31)) →
         _permission_monitoring_active s' = false
         ∧ _permission_check_count s' = 30)
      ∧ (_permission_monitoring_active s' = false →
         ∀ w, _on_timer_tick w s' =
              if Qle_bool (_revocation_check_interval s')
                          (now w - _revocation_last_check_time s')
              then Done (_check_permission_revocation w
                           (set_revocation_last_check_time (now w) s'))
              else Done s')
      ∧ (_permission_monitoring_active s' = true →
         ∀ w, trusted w = true →
              Qle_bool 2 (now w - _permission_last_check_time s') = true →
              ∃ s'', _on_timer_tick w s' = Done s''
                     ∧ _permission_monitoring_active s'' = false
                     ∧ restart_notices s'' = S (restart_notices s')).
Proof.
  assert (Forall denied (denied_ticks 31)) as Hws by (repeat constructor).
  split; [reflexivity|]. split; [reflexivity|]. split; [exact Hws|].
  exact (grant_polling_is_bounded __init__ (at_second 0 false)
           (denied_ticks 31) eq_refl eq_refl Hws).
Defined.

(** Denied ticks every two seconds after a failed registration: the polling
    is active after 29 checks and stops at the 30th. *)
Example polling_stops_at_thirty :
  (λ n, let s := state_of (ticks (denied_ticks n) awaiting_grant_app) in
        (_permission_monitoring_active s, _permission_check_count s))
  <$> [0; 1; 29; 30; 31; 40]%nat
  = [(true, 0); (true, 1); (true, 29); (false, 30); (false, 30); (false, 30)].
Proof. vm_compute. reflexivity. Qed.

(** The timer of the application fires every second: every other tick is
    a check, and the polling stops at the sixtieth second. *)
Example one_tick_per_second :
  due_checks 0 ((λ i, at_second (Z.of_nat i) false) <$> seq 1 59) = 29%nat
  ∧ due_checks 0 ((λ i, at_second (Z.of_nat i) false) <$> seq 1 60) = 30%nat
  ∧ (λ n, _permission_monitoring_active
            (state_of (ticks ((λ i, at_second (Z.of_nat i) false) <$> seq 1 n)
                         awaiting_grant_app)))
    <$> [59; 60; 61; 600]%nat
    = [true; false; false; false].
Proof. vm_compute. repeat split. Qed.

(** The capability sequence [false, true] at startup with an unregistered
    hotkey: one restart dialog, and the polling stops. *)
Example restart_required_once :
  let s := state_of (ticks [at_second 2 true; at_second 4 true;
                            at_second 10 true]
                       awaiting_grant_app) in
  restart_notices s = 1%nat
  ∧ _permission_monitoring_active s = false
  ∧ revocation_notices s = 0%nat.
Proof. vm_compute. repeat split. Qed.

(** *** The states that the application reaches *)

Lemma register_keeps_budget success w s :
  initial_known s ∧ within_budget s →
  initial_known (register_hotkey_delayed success w s)
  ∧ within_budget (register_hotkey_delayed success w s).
Proof.
  unfold within_budget, register_hotkey_delayed, _register_hotkey.
  destruct w as [tm [|]], success;
    app_flags s; intros [Hi Hb]; try absurd_initial;
    (split; [by eauto|]); try done; split; try lia; intros _; lia.
Qed.

Lemma tick_keeps_budget w s :
  initial_known s ∧ within_budget s →
  ∃ s', _on_timer_tick w s = Done s' ∧ initial_known s' ∧ within_budget s'.
Proof.
  unfold within_budget.
  destruct w as [tm [|]];
    app_flags s; intros [Hi Hb]; try absurd_initial;
    app_cases; eexists; (split; [reflexivity|]); simpl;
    (split; [by eauto|]); try done;
    try (split; [lia|]; intros; first [discriminate|lia]);
    try (destruct Hb as [? Hb]; try destruct (Hb eq_refl);
         split; [lia|]; intros; first [discriminate|lia]).
Qed.

Lemma app_reachable_keeps_budget s :
  app_reachable s → initial_known s ∧ within_budget s.
Proof.
  induction 1 as [|success w s _ IH|w s s' _ IH Htick].
  - split; [by intros [=]|]. unfold within_budget. simpl. split; [lia|done].
  - by apply register_keeps_budget.
  - destruct (tick_keeps_budget w s IH) as (s'' & Htick' & Hs'').
    congruence.
Qed.

(** X12 (the timer never raises).  From [__init__], through attempts to
    register the hotkey and timer ticks in any order and with any answers
    of the permission check, every tick returns: [_check_permission_status]
    is only reached once [_initial_permission_state] exists, so that no
    [AttributeError] leaves the slot. *)
Theorem reachable_ticks_never_raise (s : t) (ws : list world) :
  app_reachable s →
  ∃ s', ticks ws s = Done s' ∧ app_reachable s'.
Proof.
  intros Hs. revert s Hs. induction ws as [|w ws IH]; intros s Hs.
  - by exists s.
  - destruct (tick_keeps_budget w s (app_reachable_keeps_budget s Hs))
      as (s1 & Htick & _).
    destruct (IH s1 (app_reachable_tick w s s1 Hs Htick)) as (s' & Hrun & Hs').
    exists s'. by rewrite ticks_cons, Htick.
Qed.

Lemma reachable_ticks_never_raise_witness :
  app_reachable awaiting_grant_app
  ∧ (∃ s' : t,
       ticks (denied_ticks 3) awaiting_grant_app = Done s'
       ∧ app_reachable s').
Proof.
  assert (app_reachable awaiting_grant_app)
    as H1
    by (exact (app_reachable_register false (at_second 0 false) __init__
                app_reachable_init)).
  split; [exact H1|].
  exact (reachable_ticks_never_raise awaiting_grant_app (denied_ticks 3) H1).
Defined.

(** X13 (the budget of the polling).  In every state that the application
    reaches, the counter of permission checks is between 0 and 30; while
    the polling is active the counter is below 30, the budget is 30 and the
    initial state is known; and a check that leaves the polling active
    leaves the counter below 30.  So no polling makes more than 30 checks,
    whatever the checks answer. *)
Theorem polling_never_exceeds_budget (s : t) :
  app_reachable s →
  0 ≤ _permission_check_count s ≤ 30
  ∧ (_permission_monitoring_active s = true →
     _permission_check_count s < 30
     ∧ _max_permission_checks s = 30
     ∧ is_Some (_initial_permission_state s))
  ∧ ∀ w, _permission_monitoring_active s = true →
         _permission_monitoring_active (state_of (_on_timer_tick w s)) = true →
         _permission_check_count (state_of (_on_timer_tick w s)) < 30.
Proof.
  intros Hs. destruct (app_reachable_keeps_budget s Hs) as [Hi [Hc Ha]].
  split_and!; [lia|lia| |].
  - intros Hact. destruct (Ha Hact). split_and!; [done|done|by apply Hi].
  - intros w _ Hact'.
    destruct (tick_keeps_budget w s (conj Hi (conj Hc Ha)))
      as (s' & Htick & _ & _ & Ha').
    rewrite Htick in *. simpl in *. by destruct (Ha' Hact').
Qed.

Lemma polling_never_exceeds_budget_witness :
  app_reachable awaiting_grant_app
  ∧ (0 ≤ _permission_check_count awaiting_grant_app ≤ 30
     ∧ (_permission_monitoring_active awaiting_grant_app = true
        → _permission_check_count awaiting_grant_app < 30
          ∧ _max_permission_checks awaiting_grant_app = 30
            ∧ is_Some (_initial_permission_state awaiting_grant_app))
       ∧ ∀ w : world,
           _permission_monitoring_active awaiting_grant_app = true
           → _permission_monitoring_active
               (state_of (_on_timer_tick w awaiting_grant_app)) =
             true
             → _permission_check_count
                 (state_of (_on_timer_tick w awaiting_grant_app)) <
               30).
Proof.
  assert (app_reachable awaiting_grant_app)
    as H1
    by (exact (app_reachable_register false (at_second 0 false) __init__
                app_reachable_init)).
  split; [exact H1|].
  exact (polling_never_exceeds_budget awaiting_grant_app H1).
Defined.

Lemma ticks_snoc ws w s :
  ticks (ws ++ [w]) s = and_then (ticks ws s) (_on_timer_tick w).
Proof. unfold ticks. by rewrite foldl_app. Qed.

Lemma tick_unregistered w s :
  _hotkey_registered s = false →
  _hotkey_registered (state_of (_on_timer_tick w s)) = false
  ∧ filter (λ e, e = UnregisterHotkey) (trace (state_of (_on_timer_tick w s)))
    = filter (λ e, e = UnregisterHotkey) (trace s).
Proof.
  destruct w as [tm [|]];
    destruct s as [reg act cnt mx lt iv rt lst ntf [[|]|] tr];
    destruct reg, act, lst, ntf; app_unfold; simpl; intros Hreg;
    try discriminate; app_cases; split; try done;
    rewrite ?filter_app; simpl; by rewrite ?app_nil_r.
Qed.

(** X14 (the timer never registers the hotkey).  From a state in which the
    hotkey is not registered, no run of timer ticks sets
    [_hotkey_registered] again, whatever the permission does, and no tick
    calls [unregister_hotkey]: once a revocation has disabled the hotkey,
    the ticks leave it disabled, also after the permission is granted
    again. *)
Theorem hotkey_stays_unregistered (s : t) (ws : list world) :
  _hotkey_registered s = false →
  _hotkey_registered (state_of (ticks ws s)) = false
  ∧ filter (λ e, e = UnregisterHotkey) (trace (state_of (ticks ws s)))
    = filter (λ e, e = UnregisterHotkey) (trace s).
Proof.
  intros Hreg. induction ws as [|w ws IH] using rev_ind; [done|].
  rewrite ticks_snoc. destruct (ticks ws s) as [s1|e s1]; [|done].
  simpl in *. destruct IH as [IHreg IHtr].
  destruct (tick_unregistered w s1 IHreg) as [Hreg1 Htr1].
  split; [done|congruence].
Qed.

Lemma hotkey_stays_unregistered_witness :
  _hotkey_registered awaiting_grant_app = false
  ∧ (_hotkey_registered
       (state_of
          (ticks [at_second 2 true; at_second 10 true] awaiting_grant_app)) =
     false
     ∧ filter (λ e : event, e = UnregisterHotkey)
         (trace
            (state_of
               (ticks [at_second 2 true; at_second 10 true]
                  awaiting_grant_app))) =
       filter (λ e : event, e = UnregisterHotkey)
         (trace awaiting_grant_app)).
Proof.
  assert (_hotkey_registered awaiting_grant_app = false) as H1 by (reflexivity).
  split; [exact H1|].
  exact (hotkey_stays_unregistered awaiting_grant_app [at_second 2 true;
           at_second 10 true] H1).
Defined.

Lemma tick_granted_inactive w s :
  trusted w = true → _permission_monitoring_active s = false →
  ∃ s', _on_timer_tick w s = Done s'
        ∧ _permission_monitoring_active s' = false
        ∧ _hotkey_registered s' = _hotkey_registered s
        ∧ (trace s' = trace s ∨ trace s' = trace s ++ [CheckAccessibility true]).
Proof.
  destruct w as [tm tr']. simpl. intros ->.
  destruct s as [reg act cnt mx lt iv rt lst ntf ini tr].
  simpl. intros ->. app_unfold. simpl. app_cases;
    eexists; (split; [reflexivity|]); simpl; split_and!; auto.
Qed.

Lemma ticks_granted_inactive ws s :
  Forall (λ w, trusted w = true) ws →
  _permission_monitoring_active s = false →
  ∃ s' (n : nat),
    ticks ws s = Done s'
    ∧ _permission_monitoring_active s' = false
    ∧ _hotkey_registered s' = _hotkey_registered s
    ∧ trace s' = trace s ++ replicate n (CheckAccessibility true)
    ∧ (n ≤ length ws)%nat.
Proof.
  intros Hws. revert s. induction Hws as [|w ws Hw _ IH]; intros s Hs.
  - exists s, 0%nat. by rewrite app_nil_r.
  - destruct (tick_granted_inactive w s Hw Hs) as (s1 & Htick & Ha1 & Hr1 & Ht1).
    destruct (IH s1 Ha1) as (s' & n & Hrun & Ha' & Hr' & Ht' & Hn).
    rewrite ticks_cons, Htick. simpl. destruct Ht1 as [Ht1|Ht1].
    + exists s', n. rewrite Ht1 in Ht'.
      split_and!; [done|done|congruence|done|simpl; lia].
    + exists s', (S n). rewrite Ht1, <- app_assoc in Ht'.
      split_and!; [done|done|congruence|done|simpl; lia].
Qed.

Lemma filter_probes (e : event) n b :
  e ≠ CheckAccessibility b →
  filter (λ e', e' = e) (replicate n (CheckAccessibility b)) = [].
Proof.
  intros He. induction n as [|n IH]; [done|]. simpl.
  rewrite filter_cons_False by congruence. exact IH.
Qed.

(** X15 (nothing happens while the permission stays granted).  When no
    polling is active, a run of ticks that all see the permission granted
    only checks the permission, at most once per tick: no dialog is shown,
    the hotkey is neither registered nor unregistered, and no polling
    starts. *)
Theorem granted_ticks_are_silent (s : t) (ws : list world) :
  _permission_monitoring_active s = false →
  Forall (λ w, trusted w = true) ws →
  ∃ s' (n : nat),
    ticks ws s = Done s'
    ∧ trace s' = trace s ++ replicate n (CheckAccessibility true)
    ∧ (n ≤ length ws)%nat
    ∧ _hotkey_registered s' = _hotkey_registered s
    ∧ _permission_monitoring_active s' = false
    ∧ revocation_notices s' = revocation_notices s
    ∧ restart_notices s' = restart_notices s.
Proof.
  intros Hs Hws.
  destruct (ticks_granted_inactive ws s Hws Hs)
    as (s' & n & Hrun & Ha & Hr & Ht & Hn).
  exists s', n. unfold revocation_notices, restart_notices.
  rewrite Ht, !filter_app, !length_app, !filter_probes by done.
  split_and!; try done; simpl; lia.
Qed.

Lemma granted_ticks_are_silent_witness :
  _permission_monitoring_active registered_app = false
  ∧ Forall (λ w, trusted w = true) [at_second 5 true; at_second 10 true]
  ∧ (∃ (s' : t) (n : nat),
       ticks [at_second 5 true; at_second 10 true] registered_app =
       Done s'
       ∧ trace s' =
         trace registered_app ++ replicate n (CheckAccessibility true)
         ∧ (n <= length [at_second 5 true; at_second 10 true])%nat
           ∧ _hotkey_registered s' = _hotkey_registered registered_app
             ∧ _permission_monitoring_active s' = false
               ∧ revocation_notices s' =
                 revocation_notices registered_app
                 ∧ restart_notices s' = restart_notices registered_app).
Proof.
  assert (_permission_monitoring_active registered_app = false)
    as H1
    by (reflexivity).
  assert (Forall (λ w, trusted w = true) [at_second 5 true; at_second 10 true])
    as H2
    by (repeat constructor).
  split; [exact H1|].
  split; [exact H2|].
  exact (granted_ticks_are_silent registered_app [at_second 5 true; at_second
           10 true] H1 H2).
Defined.

(** The polling that waits for a grant, at a tick that sees the permission
    granted. *)
Lemma tick_awaiting_granted w s :
  trusted w = true →
  _permission_monitoring_active s = true →
  _initial_permission_state s = Some false →
  ∃ s', _on_timer_tick w s = Done s'
        ∧ _hotkey_registered s' = _hotkey_registered s
        ∧ revocation_notices s' = revocation_notices s
        ∧ if Qle_bool 2 (now w - _permission_last_check_time s)
          then _permission_monitoring_active s' = false
               ∧ restart_notices s' = S (restart_notices s)
          else s' = s.
Proof.
  destruct w as [tm tr']. simpl. intros ->.
  destruct s as [reg act cnt mx lt iv rt lst ntf ini tr].
  simpl. intros -> ->. app_unfold. simpl.
  destruct (Qle_bool 2 (tm - lt)); simpl;
    eexists; (split; [reflexivity|]); simpl; split_and!; try done;
    count_events.
Qed.

Lemma ticks_awaiting_granted ws s :
  Forall (λ w, trusted w = true) ws →
  _permission_monitoring_active s = true →
  _initial_permission_state s = Some false →
  ∃ s', ticks ws s = Done s'
        ∧ _hotkey_registered s' = _hotkey_registered s
        ∧ revocation_notices s' = revocation_notices s
        ∧ if decide (due_checks (_permission_last_check_time s) ws = 0%nat)
          then s' = s
          else _permission_monitoring_active s' = false
               ∧ restart_notices s' = S (restart_notices s).
Proof.
  intros Hws. revert s. induction Hws as [|w ws Hw Hws IH]; intros s Ha Hi.
  - by exists s.
  - destruct (tick_awaiting_granted w s Hw Ha Hi)
      as (s1 & Htick & Hr1 & Hn1 & Hdue).
    rewrite ticks_cons, Htick. simpl.
    destruct (Qle_bool 2 (now w - _permission_last_check_time s)).
    + destruct Hdue as [Ha1 Hrs1].
      destruct (ticks_granted_inactive ws s1 Hws Ha1)
        as (s' & n & Hrun & Ha' & Hr' & Ht' & _).
      exists s'. rewrite decide_False by done.
      unfold revocation_notices, restart_notices in *.
      rewrite Ht', !filter_app, !length_app, !filter_probes by done.
      split_and!; [done|congruence|simpl; lia|done|simpl; lia].
    + subst s1. by apply IH.
Qed.

(** X16 (the restart dialog is shown once).  A polling started on a denied
    permission, followed by ticks that all see the permission granted:
    the restart dialog is shown exactly once, at the first tick that is
    due, which ends the polling; before that nothing is shown and the
    polling stays active.  No permission dialog is shown and the hotkey is
    not registered by the ticks. *)
Theorem restart_dialog_shown_once (s : t) (w0 : world) (ws : list world) :
  _permission_monitoring_active s = false →
  denied w0 →
  Forall (λ w, trusted w = true) ws →
  ∃ s',
    ticks ws (_start_permission_monitoring w0 s) = Done s'
    ∧ _hotkey_registered s' = _hotkey_registered s
    ∧ revocation_notices s' = revocation_notices s
    ∧ if decide (due_checks (now w0) ws = 0%nat)
      then restart_notices s' = restart_notices s
           ∧ _permission_monitoring_active s' = true
      else restart_notices s' = S (restart_notices s)
           ∧ _permission_monitoring_active s' = false.
Proof.
  intros Hs Hw0 Hws.
  destruct (start_polling w0 s Hw0 Hs) as ((_ & Hi & _) & Ha & _ & Ht & Hrs).
  cbv zeta in *.
  destruct (ticks_awaiting_granted ws _ Hws Ha Hi)
    as (s' & Hrun & Hr & Hn & Hdue).
  exists s'. rewrite Ht in Hdue.
  assert (_hotkey_registered (_start_permission_monitoring w0 s)
          = _hotkey_registered s
          ∧ revocation_notices (_start_permission_monitoring w0 s)
            = revocation_notices s) as [Hr0 Hn0].
  { unfold _start_permission_monitoring. rewrite Hs. simpl.
    unfold revocation_notices. simpl. rewrite filter_app. simpl.
    by rewrite app_nil_r. }
  split_and!; [done|congruence|congruence|].
  destruct (decide _).
  - subst s'. by rewrite Hrs.
  - destruct Hdue as [Ha' Hrs']. split; [congruence|done].
Qed.

Lemma restart_dialog_shown_once_witness :
  _permission_monitoring_active __init__ = false
  ∧ denied (at_second 0 false)
  ∧ Forall (λ w, trusted w = true) [at_second 2 true; at_second 4 true]
  ∧ (∃ s' : t,
       ticks [at_second 2 true; at_second 4 true]
         (_start_permission_monitoring (at_second 0 false) __init__) =
       Done s'
       ∧ _hotkey_registered s' = _hotkey_registered __init__
         ∧ revocation_notices s' = revocation_notices __init__
           ∧ (if
               decide
                 (due_checks (now (at_second 0 false))
                    [at_second 2 true; at_second 4 true] =
                  0%nat)
               is left _
              then
               restart_notices s' = restart_notices __init__
               ∧ _permission_monitoring_active s' = true
              else
               restart_notices s' = S (restart_notices __init__)
               ∧ _permission_monitoring_active s' = false)).
Proof.
  assert (_permission_monitoring_active __init__ = false)
    as H1
    by (reflexivity).
  assert (denied (at_second 0 false)) as H2 by (reflexivity).
  assert (Forall (λ w, trusted w = true) [at_second 2 true; at_second 4 true])
    as H3
    by (repeat constructor).
  split; [exact H1|].
  split; [exact H2|].
  split; [exact H3|].
  exact (restart_dialog_shown_once __init__ (at_second 0 false) [at_second 2
           true; at_second 4 true] H1 H2 H3).
Defined.

Lemma tick_denied_no_restart w s :
  denied w →
  restart_notices (state_of (_on_timer_tick w s)) = restart_notices s.
Proof.
  unfold denied. destruct w as [tm tr']. simpl. intros ->.
  destruct s as [reg act cnt mx lt iv rt lst ntf [[|]|] tr];
    destruct reg, act, lst, ntf; app_unfold; simpl; app_cases;
    rewrite ?filter_app, ?length_app; simpl; lia.
Qed.

Lemma ticks_denied_no_restart ws s :
  Forall denied ws →
  restart_notices (state_of (ticks ws s)) = restart_notices s.
Proof.
  induction ws as [|w ws IH] using rev_ind; intros Hws; [done|].
  apply Forall_app in Hws as [Hws [Hw _]%Forall_cons].
  specialize (IH Hws). rewrite ticks_snoc.
  destruct (ticks ws s) as [s1|e s1]; [|done].
  simpl in *. by rewrite tick_denied_no_restart.
Qed.

(** X17 (at most one permission dialog while the permission is denied).
    From every state that the application reaches, a run of ticks that all
    see the permission denied returns, shows the permission dialog at most
    once, and none at all when the permission was last seen denied, and
    never shows the restart dialog. *)
Theorem at_most_one_notice_while_denied (s : t) (ws : list world) :
  app_reachable s →
  Forall denied ws →
  ∃ s',
    ticks ws s = Done s'
    ∧ (revocation_notices s' ≤ S (revocation_notices s))%nat
    ∧ restart_notices s' = restart_notices s
    ∧ (_last_permission_state s = false →
       revocation_notices s' = revocation_notices s).
Proof.
  intros Hs Hws. destruct (app_reachable_keeps_budget s Hs) as [Hi _].
  destruct (ticks_denied_at_most_one ws s Hws Hi) as (s' & Hrun & Hle).
  exists s'. split_and!; [done|done| |].
  - pose proof (ticks_denied_no_restart ws s Hws) as Hrs.
    by rewrite Hrun in Hrs.
  - intros Hlast.
    destruct (ticks_settled ws s Hws (conj (or_introl Hlast) Hi))
      as (s'' & Hrun' & _ & Hn & _).
    congruence.
Qed.

Lemma at_most_one_notice_while_denied_witness :
  app_reachable registered_app
  ∧ Forall denied [at_second 5 false; at_second 10 false]
  ∧ (∃ s' : t,
       ticks [at_second 5 false; at_second 10 false] registered_app =
       Done s'
       ∧ (revocation_notices s' <= S (revocation_notices registered_app))%nat
         ∧ restart_notices s' = restart_notices registered_app
           ∧ (_last_permission_state registered_app = false
              → revocation_notices s' = revocation_notices registered_app)).
Proof.
  assert (app_reachable registered_app)
    as H1
    by (exact (app_reachable_register true (at_second 0 true) __init__
                app_reachable_init)).
  assert (Forall denied [at_second 5 false; at_second 10 false])
    as H2
    by (repeat constructor).
  split; [exact H1|].
  split; [exact H2|].
  exact (at_most_one_notice_while_denied registered_app [at_second 5 false;
           at_second 10 false] H1 H2).
Defined.

End AppFacts.

(** ** More on the history manager *)

Section StoreMore.
Import HistoryManager.

Lemma recency_snoc cs c : recency (cs ++ [c]) = promote c (recency cs).
Proof. unfold recency. by rewrite foldl_app. Qed.

Lemma elem_of_promote c0 c l :
  c0 ∈ promote c l ↔ c0 = c ∨ (c0 ∈ l ∧ get_hash c0 ≠ get_hash c).
Proof.
  unfold promote. rewrite elem_of_cons, list_elem_of_filter. tauto.
Qed.

Lemma latest_of_fingerprint_snoc cs c c0 :
  latest_of_fingerprint (cs ++ [c]) c0
  ↔ c0 = c ∨ (latest_of_fingerprint cs c0 ∧ get_hash c0 ≠ get_hash c).
Proof.
  unfold latest_of_fingerprint. split.
  - intros (i & Hi & Hlast).
    destruct (decide (i < length cs)%nat) as [Hlt|Hge].
    + right. rewrite lookup_app_l in Hi by done. split.
      * exists i. split; [done|]. intros j c' Hij Hj.
        apply (Hlast j c' Hij). apply lookup_app_l_Some, Hj.
      * intros Heq. apply (Hlast (length cs) c Hlt); [|done].
        by rewrite list_lookup_middle.
    + left. rewrite lookup_app_r in Hi by lia.
      apply list_lookup_singleton_Some in Hi. by destruct Hi.
  - intros [->|[(i & Hi & Hlast) Hne]].
    + exists (length cs). split; [by rewrite list_lookup_middle|].
      intros j c' Hij Hj. apply lookup_lt_Some in Hj.
      rewrite length_app in Hj. simpl in Hj. lia.
    + exists i. split; [by apply lookup_app_l_Some|].
      intros j c' Hij Hj.
      destruct (decide (j < length cs)%nat) as [Hlt|Hge].
      * rewrite lookup_app_l in Hj by done. by apply (Hlast j).
      * rewrite lookup_app_r in Hj by lia.
        apply list_lookup_singleton_Some in Hj. destruct Hj as [_ <-].
        congruence.
Qed.

Lemma elem_of_recency cs c :
  c ∈ recency cs ↔ latest_of_fingerprint cs c.
Proof.
  revert c. induction cs as [|c' cs IH] using rev_ind; intros c.
  - split; [by intros ?%elem_of_nil|]. by intros (i & Hi & _).
  - rewrite recency_snoc, elem_of_promote, latest_of_fingerprint_snoc.
    by rewrite IH.
Qed.

(** X1 (invariant of the store).  In every state that the store reaches
    from [HistoryManager(k)] through [add_item], [set_max_depth] and
    [clear_history] calls that returned, the history holds at most
    [_max_depth] entries, the bound of the deque is [_max_depth], no two
    positions hold entries of the same fingerprint, and [add_item] returns
    (it does not raise) for every entry whose text can be encoded, the
    texts of the entries held being encodable, as they are when they were
    added by [add_item]; the texts of the entries are then still
    encodable. *)
Theorem reachable_store_invariant (hm : HM) :
  reachable hm →
  Z.of_nat (length (get_history hm)) ≤ _max_depth hm
  ∧ maxlen (_history hm) = _max_depth hm
  ∧ (∀ (i j : nat) ci cj,
       get_history hm !! i = Some ci → get_history hm !! j = Some cj →
       get_hash ci = get_hash cj → i = j)
  ∧ (∀ c,
       encodable_entry c → Forall encodable_entry (get_history hm) →
       ∃ hm',
         add_item c hm = Done hm' ∧ reachable hm'
         ∧ Forall encodable_entry (get_history hm')).
Proof.
  intros Hr. pose proof (reachable_store_ok hm Hr) as Hok.
  destruct Hok as (H0 & Hmax & Hlen & Hnd). split_and!; [done|done| |].
  - intros i j ci cj Hi Hj Heq.
    apply (NoDup_lookup (hashes (get_history hm)) i j (get_hash ci)); [done| |].
    + unfold hashes. by rewrite list_lookup_fmap, Hi.
    + unfold hashes. by rewrite list_lookup_fmap, Hj, Heq.
  - intros c Hc Hall.
    pose proof (add_item_spec c hm (conj H0 (conj Hmax (conj Hlen Hnd))))
      as Hadd.
    eexists. split; [exact Hadd|]. split; [by eapply reachable_add_item|].
    apply Forall_forall. intros x Hx.
    assert (x ∈ get_history (state_of (add_item c hm))) as Hin
      by by rewrite Hadd.
    apply add_item_elem_of in Hin as [->|Hin]; [done|].
    by eapply Forall_forall in Hall.
Qed.

Lemma reachable_store_invariant_witness :
  reachable (store_of 10 [text_entry "A" 1])
  ∧ (Z.of_nat (length (get_history (store_of 10 [text_entry "A" 1])))
     ≤ _max_depth (store_of 10 [text_entry "A" 1])
     ∧ maxlen (_history (store_of 10 [text_entry "A" 1])) =
       _max_depth (store_of 10 [text_entry "A" 1])
       ∧ (∀ (i j : nat) (ci cj : ClipboardContent),
            get_history (store_of 10 [text_entry "A" 1]) !! i = Some ci
            → get_history (store_of 10 [text_entry "A" 1]) !! j = Some cj
              → get_hash ci = get_hash cj → i = j)
         ∧ ∀ c : ClipboardContent,
             encodable_entry c
             → Forall encodable_entry
                 (get_history (store_of 10 [text_entry "A" 1]))
               → ∃ hm' : HM,
                   add_item c (store_of 10 [text_entry "A" 1]) = Done hm'
                   ∧ reachable hm'
                     ∧ Forall encodable_entry (get_history hm')).
Proof.
  assert (reachable (store_of 10 [text_entry "A" 1]))
    as H1
    by (eapply reachable_add_item;
         [eapply (reachable_init 10); reflexivity|vm_compute; reflexivity]).
  split; [exact H1|].
  exact (reachable_store_invariant (store_of 10 [text_entry "A" 1]) H1).
Defined.

(** X2 (the history is the run of additions, most recent first).  After a
    run [cs] of [add_item] calls on a fresh store of depth [k], the history
    is the first [k] entries of [recency cs]: the entries of the run, one
    per fingerprint, the latest object added for each, most recent first.
    Every entry held is the one added last among those of its fingerprint;
    when the run has at most [k] distinct fingerprints nothing is lost; and
    for [k > 0] the entry added last is at position 0. *)
Theorem history_is_most_recent_first
    (k : Z) (hm0 : HM) (cs : list ClipboardContent) :
  __init__ k = Some hm0 →
  ∃ hm,
    add_items cs hm0 = Done hm
    ∧ get_history hm = take (Z.to_nat k) (recency cs)
    ∧ (∀ c, c ∈ get_history hm → latest_of_fingerprint cs c)
    ∧ (∀ c, latest_of_fingerprint cs c →
            (length (remove_dups (hashes cs)) ≤ Z.to_nat k)%nat →
            c ∈ get_history hm)
    ∧ (∀ cs' c, cs = cs' ++ [c] → 0 < k → get_history hm !! 0%nat = Some c).
Proof.
  intros Hinit. pose proof (store_ok_init k hm0 Hinit) as Hok.
  assert (_max_depth hm0 = k ∧ get_history hm0 = []) as [Hk Hnil].
  { unfold __init__, Deque.new in Hinit.
    destruct (k <? 0); simplify_eq/=. done. }
  rewrite (add_items_spec cs hm0 Hok). eexists. split; [done|].
  rewrite Hk, Hnil. unfold get_history. cbn [_history items].
  fold (recency cs). split_and!; [done| | |].
  - intros c Hc. apply elem_of_recency. by eapply subseteq_take.
  - intros c Hc Hlen. rewrite take_ge; [by apply elem_of_recency|].
    by rewrite length_recency.
  - intros cs' c -> Hpos. rewrite recency_snoc. unfold promote.
    destruct (Z.to_nat k) as [|n] eqn:Hn; [lia|done].
Qed.

Lemma history_is_most_recent_first_witness :
  __init__ 5 = Some (store_of 5 [])
  ∧ (∃ hm : HM,
       add_items seven_entries (store_of 5 []) = Done hm
       ∧ get_history hm = take (Z.to_nat 5) (recency seven_entries)
         ∧ (∀ c : ClipboardContent,
              c ∈ get_history hm → latest_of_fingerprint seven_entries c)
           ∧ (∀ c : ClipboardContent,
                latest_of_fingerprint seven_entries c
                → (length (remove_dups (hashes seven_entries)) <=
                   Z.to_nat 5)%nat
                  → c ∈ get_history hm)
             ∧ ∀ (cs' : list ClipboardContent) (c : ClipboardContent),
                 seven_entries = cs' ++ [c]
                 → 0 < 5 → get_history hm !! 0%nat = Some c).
Proof.
  assert (__init__ 5 = Some (store_of 5 [])) as H1 by (reflexivity).
  split; [exact H1|].
  exact (history_is_most_recent_first 5 (store_of 5 []) seven_entries H1).
Defined.

Lemma add_item_absent c hm :
  get_hash c ∉ hashes (get_history hm) →
  add_item c hm =
  Done {| _max_depth := _max_depth hm;
          _history := appendleft c (_history hm) |}.
Proof.
  intros Hnew. unfold add_item. unfold get_history in Hnew.
  by rewrite (proj2 (existing_index_None _ _) Hnew).
Qed.

Lemma length_removelast_cons {A} (x : A) l :
  length (removelast (x :: l)) = length l.
Proof.
  revert x. induction l as [|y l IH]; intros x; [done|].
  change (removelast (x :: y :: l)) with (x :: removelast (y :: l)).
  cbn [length]. by rewrite IH.
Qed.

(** X3 (eviction of the oldest entry).  Adding an entry whose fingerprint
    is not in the store puts it in front.  When the store has room, all the
    former entries follow in their order; when the store is full, exactly
    the last (oldest) entry is dropped and the length is unchanged; a store
    of depth 0 stays empty. *)
Theorem add_item_evicts_oldest (hm : HM) (c : ClipboardContent) :
  store_ok hm →
  get_hash c ∉ hashes (get_history hm) →
  ∃ hm',
    add_item c hm = Done hm'
    ∧ _max_depth hm' = _max_depth hm
    ∧ (Z.of_nat (length (get_history hm)) < _max_depth hm →
       get_history hm' = c :: get_history hm)
    ∧ (Z.of_nat (length (get_history hm)) = _max_depth hm →
       0 < _max_depth hm →
       get_history hm' = c :: removelast (get_history hm)
       ∧ length (get_history hm') = length (get_history hm))
    ∧ (_max_depth hm = 0 → get_history hm' = []).
Proof.
  intros (H0 & Hmax & Hlen & Hnd) Hnew.
  rewrite (add_item_absent c hm Hnew). eexists. split; [done|].
  unfold get_history in *. cbn [_max_depth _history].
  unfold appendleft. cbn [items maxlen]. rewrite Hmax.
  split_and!; [done| | |].
  - intros Hlt. destruct (Z.ltb_spec (_max_depth hm)
      (Z.of_nat (length (c :: items (_history hm))))) as [Hf|_]; [|done].
    simpl in Hf. lia.
  - intros Hfull Hpos. destruct (Z.ltb_spec (_max_depth hm)
      (Z.of_nat (length (c :: items (_history hm))))) as [_|Hf];
      [|simpl in Hf; lia].
    destruct (items (_history hm)) as [|x l] eqn:Hl; [simpl in Hfull; lia|].
    split; [done|].
    change (removelast (c :: x :: l)) with (c :: removelast (x :: l)).
    cbn [length]. by rewrite length_removelast_cons.
  - intros Hz. destruct (items (_history hm)) as [|x l] eqn:Hl;
      [|simpl in Hlen; lia].
    by rewrite Hz.
Qed.

Lemma add_item_evicts_oldest_witness :
  store_ok store_full
  ∧ (get_hash (text_entry "D" 4) ∉ hashes (get_history store_full))
  ∧ (∃ hm' : HM,
       add_item (text_entry "D" 4) store_full = Done hm'
       ∧ _max_depth hm' = _max_depth store_full
         ∧ (Z.of_nat (length (get_history store_full)) <
            _max_depth store_full
            → get_history hm' =
              text_entry "D" 4 :: get_history store_full)
           ∧ (Z.of_nat (length (get_history store_full)) =
              _max_depth store_full
              → 0 < _max_depth store_full
                → get_history hm' =
                  text_entry "D" 4 :: removelast (get_history store_full)
                  ∧ length (get_history hm') =
                    length (get_history store_full))
             ∧ (_max_depth store_full = 0 → get_history hm' = [])).
Proof.
  assert (store_ok store_full) as H1 by (split_and!; compute_done).
  assert (get_hash (text_entry "D" 4) ∉ hashes (get_history store_full))
    as H2
    by (compute_done).
  split; [exact H1|].
  split; [exact H2|].
  exact (add_item_evicts_oldest store_full (text_entry "D" 4) H1 H2).
Defined.

(** X4 (two changes of depth).  Two calls of [set_max_depth] with depths
    [d1] then [d2], both non-negative and not above [PY_SSIZE_T_MAX] (the
    bounds that a deque accepts), leave the first [min d1 d2] entries:
    raising the depth again does not bring back what a lower depth cut.  A
    depth that is not below the length keeps the history as it is. *)
Theorem set_max_depth_twice (hm : HM) (d1 d2 : Z) :
  0 ≤ d1 ≤ PY_SSIZE_T_MAX → 0 ≤ d2 ≤ PY_SSIZE_T_MAX →
  ∃ hm1 hm2,
    set_max_depth d1 hm = Done hm1
    ∧ set_max_depth d2 hm1 = Done hm2
    ∧ get_history hm2 = take (Z.to_nat (d1 `min` d2)) (get_history hm)
    ∧ _max_depth hm2 = d2
    ∧ (Z.of_nat (length (get_history hm)) ≤ d1 →
       get_history hm1 = get_history hm).
Proof.
  intros [H1 _] [H2 _]. rewrite (set_max_depth_spec d1 hm H1).
  eexists. eexists. split; [done|].
  rewrite (set_max_depth_spec d2 _ H2). split; [done|].
  unfold get_history. cbn [_history _max_depth items].
  split_and!; [|done|].
  - rewrite take_take. f_equal. lia.
  - intros Hle. apply take_ge. lia.
Qed.

Lemma set_max_depth_twice_witness :
  0 ≤ 2 ≤ PY_SSIZE_T_MAX
  ∧ 0 ≤ 10 ≤ PY_SSIZE_T_MAX
  ∧ (∃ hm1 hm2 : HM,
       set_max_depth 2 store_CBA = Done hm1
       ∧ set_max_depth 10 hm1 = Done hm2
         ∧ get_history hm2 =
           take (Z.to_nat (2 `min` 10)) (get_history store_CBA)
           ∧ _max_depth hm2 = 10
             ∧ (Z.of_nat (length (get_history store_CBA)) ≤ 2
                → get_history hm1 = get_history store_CBA)).
Proof.
  assert (0 ≤ 2 ≤ PY_SSIZE_T_MAX) as H1 by (compute_done).
  assert (0 ≤ 10 ≤ PY_SSIZE_T_MAX) as H2 by (compute_done).
  split; [exact H1|].
  split; [exact H2|].
  exact (set_max_depth_twice store_CBA 2 10 H1 H2).
Defined.



(** X6 (clearing is starting anew).  On a store that keeps its invariant,
    [clear_history] leaves exactly the store that
    [HistoryManager(_max_depth)] builds: empty, with the same depth, so
    that a run of additions after it gives the first [_max_depth] entries
    of the recency order of that run alone. *)
Theorem clear_history_is_reinit (hm : HM) (cs : list ClipboardContent) :
  store_ok hm →
  __init__ (_max_depth hm) = Some (clear_history hm)
  ∧ get_history (clear_history hm) = []
  ∧ ∃ hm',
      add_items cs (clear_history hm) = Done hm'
      ∧ get_history hm' = take (Z.to_nat (_max_depth hm)) (recency cs)
      ∧ _max_depth hm' = _max_depth hm.
Proof.
  intros Hok. pose proof Hok as (H0 & Hmax & _).
  split_and!.
  - unfold __init__, Deque.new, clear_history, Deque.clear.
    destruct (Z.ltb_spec (_max_depth hm) 0) as [?|_]; [lia|].
    simpl. by rewrite Hmax.
  - done.
  - rewrite (add_items_spec cs _ (store_ok_clear_history hm Hok)).
    eexists. split; [done|]. done.
Qed.

Lemma clear_history_is_reinit_witness :
  store_ok store_CBA
  ∧ (__init__ (_max_depth store_CBA) = Some (clear_history store_CBA)
     ∧ get_history (clear_history store_CBA) = []
       ∧ ∃ hm' : HM,
           add_items seven_entries (clear_history store_CBA) = Done hm'
           ∧ get_history hm' =
             take (Z.to_nat (_max_depth store_CBA))
               (recency seven_entries)
             ∧ _max_depth hm' = _max_depth store_CBA).
Proof.
  assert (store_ok store_CBA) as H1 by (split_and!; compute_done).
  split; [exact H1|].
  exact (clear_history_is_reinit store_CBA seven_entries H1).
Defined.

End StoreMore.

(** ** More on the clipboard monitor *)

Section MonitorMore.
Import ClipboardMonitor.

Lemma extract_content_well_formed mime_data content_type d lg now :
  _extract_content mime_data = ((Some content_type, Some d), lg) →
  well_formed (new_content content_type d now).
Proof.
  unfold _extract_content, extract_html, extract_text, extraction_failed,
    conversion_failed, unsupported, well_formed.
  intros Hex. split; [done|]. cbn [Models.content_type data new_content __post_init__].
  repeat match type of Hex with
  | context [match ?x with _ => _ end] => destruct x eqn:?
  | context [if ?x then _ else _] => destruct x eqn:?
  end; simplify_eq/=; try done.
  all: match goal with H : truthy ?s = true |- _ => by destruct s end.
Qed.

(** A notification that is recorded, on a store that keeps its
    invariant. *)
Lemma notification_recorded self mime_data now content_type d lg :
  store_ok (_history_manager self) →
  _extract_content mime_data = ((Some content_type, Some d), lg) →
  _estimate_content_size content_type d ≤ MAX_CONTENT_SIZE_BYTES →
  Some (get_hash (new_content content_type d now)) ≠ _last_hash self →
  let k := HistoryManager._max_depth (_history_manager self) in
  let self' := _on_clipboard_change (Returns (Some mime_data)) now self in
  HistoryManager.get_history (_history_manager self')
  = take (Z.to_nat k)
      (promote (new_content content_type d now)
         (HistoryManager.get_history (_history_manager self)))
  ∧ HistoryManager._max_depth (_history_manager self') = k
  ∧ _last_hash self' = Some (get_hash (new_content content_type d now)).
Proof.
  intros Hok Hex Hsize Hne. cbv zeta.
  rewrite (on_clipboard_change_content _ _ _ _ _ _ Hex).
  destruct (Z.gtb_spec (_estimate_content_size content_type d)
              MAX_CONTENT_SIZE_BYTES); [lia|].
  destruct (decide _) as [Heq|_]; [done|].
  by rewrite add_item_spec.
Qed.

Lemma step_well_formed self a :
  Forall well_formed (HistoryManager.get_history (_history_manager self)) →
  Forall well_formed
    (HistoryManager.get_history (_history_manager (Application.step self a))).
Proof.
  intros Hall. destruct a as [clipboard now|value|]; simpl.
  - destruct clipboard as [[mime_data|]|]; [|done|done].
    destruct (_extract_content mime_data) as [[[content_type|] [d|]] lg] eqn:Hex;
      try by (unfold _on_clipboard_change; rewrite Hex).
    rewrite (on_clipboard_change_content _ _ _ _ _ _ Hex).
    destruct (_ >? _); [done|]. destruct (decide _); [done|].
    apply Forall_forall. intros x Hx.
    assert (x ∈ HistoryManager.get_history (state_of
              (HistoryManager.add_item (new_content content_type d now)
                 (_history_manager self)))) as Hin.
    { by destruct (HistoryManager.add_item _ _). }
    apply add_item_elem_of in Hin as [->|Hin];
      [by eapply extract_content_well_formed|].
    by eapply Forall_forall in Hall.
  - unfold Application._on_depth_changed. destruct (_ && _); [|done].
    apply Forall_forall. intros x Hx%set_max_depth_subseteq.
    by eapply Forall_forall in Hall.
  - constructor.
Qed.

Lemma run_well_formed acts self :
  Forall well_formed (HistoryManager.get_history (_history_manager self)) →
  Forall well_formed
    (HistoryManager.get_history (_history_manager (Application.run acts self))).
Proof.
  revert self. unfold Application.run.
  induction acts as [|a acts IH]; intros self Hall; [done|].
  simpl. by apply IH, step_well_formed.
Qed.

(** X7 (the entries that the watcher records are well formed).  Along any
    run of the application (notifications, changes of depth, clearings)
    from a history whose entries are well formed, every entry of the
    history has the size of its payload in [size_bytes], a [TEXT] or
    [RICH_TEXT] entry holds a non-empty [str], an [IMAGE] entry holds
    [bytes], and an [UNSUPPORTED] entry holds the placeholder
    ["[Unsupported Content]"]. *)
Theorem recorded_entries_are_well_formed
    (self : t) (acts : list Application.action) (c : ClipboardContent) :
  Forall well_formed (HistoryManager.get_history (_history_manager self)) →
  c ∈ HistoryManager.get_history
        (_history_manager (Application.run acts self)) →
  size_bytes c = _calculate_size (data c)
  ∧ match content_type c with
    | TEXT | RICH_TEXT => ∃ s, data c = PStr s ∧ s ≠ []
    | IMAGE => ∃ b, data c = PBytes b
    | UNSUPPORTED => data c = PStr (str_of_string "[Unsupported Content]")
    end.
Proof.
  intros Hall Hc. pose proof (run_well_formed acts self Hall) as Hrun.
  eapply Forall_forall in Hrun; [|exact Hc].
  destruct Hrun as [Hsize Hkind]. split; [done|].
  destruct (content_type c), (data c) as [s|b]; try done; try by eexists.
  by rewrite Hkind.
Qed.

Lemma recorded_entries_are_well_formed_witness :
  Forall well_formed
    (HistoryManager.get_history (_history_manager (fresh_monitor 10)))
  ∧ text_entry "world" 6
    ∈ HistoryManager.get_history
        (_history_manager (Application.run sample_run (fresh_monitor 10)))
  ∧ (size_bytes (text_entry "world" 6) =
     _calculate_size (data (text_entry "world" 6))
     ∧ match content_type (text_entry "world" 6) with
       | IMAGE => ∃ b : bytes, data (text_entry "world" 6) = PBytes b
       | UNSUPPORTED =>
           data (text_entry "world" 6) =
           PStr (str_of_string "[Unsupported Content]")
       | _ => ∃ s : str, data (text_entry "world" 6) = PStr s ∧ s ≠ []
       end).
Proof.
  assert (Forall well_formed
          (HistoryManager.get_history (_history_manager (fresh_monitor 10))))
    as H1
    by (constructor).
  assert (text_entry "world" 6
          ∈ HistoryManager.get_history
              (_history_manager (Application.run sample_run (fresh_monitor 10))))
    as H2
    by (vm_compute; apply list_elem_of_here).
  split; [exact H1|].
  split; [exact H2|].
  exact (recorded_entries_are_well_formed (fresh_monitor 10) sample_run
           (text_entry "world" 6) H1 H2).
Defined.

(** X8 (at most one unsupported entry).  Along any run of the application
    from a store that keeps its invariant and whose entries are well
    formed, two positions of the history that both hold an [UNSUPPORTED]
    entry are the same position: all unsupported clipboards share the
    placeholder, hence one fingerprint. *)
Theorem at_most_one_unsupported_entry
    (self : t) (acts : list Application.action) (i j : nat)
    (ci cj : ClipboardContent) :
  store_ok (_history_manager self) →
  Forall well_formed (HistoryManager.get_history (_history_manager self)) →
  let history :=
    HistoryManager.get_history (_history_manager (Application.run acts self)) in
  history !! i = Some ci → history !! j = Some cj →
  content_type ci = UNSUPPORTED → content_type cj = UNSUPPORTED →
  i = j.
Proof.
  intros Hok Hall history Hi Hj Hti Htj.
  pose proof (run_store_ok acts self Hok) as (_ & _ & _ & Hnd).
  pose proof (run_well_formed acts self Hall) as Hrun.
  fold history in Hnd, Hrun.
  assert (∀ c, c ∈ history → content_type c = UNSUPPORTED →
               data c = PStr (str_of_string "[Unsupported Content]")) as Hdata.
  { intros c Hc Ht. eapply Forall_forall in Hrun; [|exact Hc].
    destruct Hrun as [_ Hkind]. rewrite Ht in Hkind.
    destruct (data c); [by subst|done]. }
  assert (get_hash ci = get_hash cj) as Hhash.
  { unfold get_hash.
    rewrite (Hdata ci), (Hdata cj);
      [done|by eapply list_elem_of_lookup_2|done
      |by eapply list_elem_of_lookup_2|done]. }
  apply (NoDup_lookup (hashes history) i j (get_hash ci)); [done| |].
  - unfold hashes. by rewrite list_lookup_fmap, Hi.
  - unfold hashes. by rewrite list_lookup_fmap, Hj, Hhash.
Qed.

Lemma at_most_one_unsupported_entry_witness :
  store_ok (_history_manager (fresh_monitor 10))
  ∧ Forall well_formed
    (HistoryManager.get_history (_history_manager (fresh_monitor 10)))
  ∧ HistoryManager.get_history
      (_history_manager (Application.run unsupported_run (fresh_monitor 10)))
    !! 0%nat
    = Some (new_content UNSUPPORTED
              (PStr (str_of_string "[Unsupported Content]")) 3)
  ∧ content_type
      (new_content UNSUPPORTED
         (PStr (str_of_string "[Unsupported Content]")) 3) = UNSUPPORTED
  ∧ (0%nat = 0%nat).
Proof.
  assert (store_ok (_history_manager (fresh_monitor 10)))
    as H1
    by (split_and!; compute_done).
  assert (Forall well_formed
          (HistoryManager.get_history (_history_manager (fresh_monitor 10))))
    as H2
    by (constructor).
  assert (HistoryManager.get_history
            (_history_manager (Application.run unsupported_run (fresh_monitor 10)))
          !! 0%nat
          = Some (new_content UNSUPPORTED
                    (PStr (str_of_string "[Unsupported Content]")) 3))
    as H3
    by (vm_compute; reflexivity).
  assert (content_type
            (new_content UNSUPPORTED
               (PStr (str_of_string "[Unsupported Content]")) 3) = UNSUPPORTED)
    as H4
    by (reflexivity).
  split; [exact H1|].
  split; [exact H2|].
  split; [exact H3|].
  split; [exact H4|].
  exact (at_most_one_unsupported_entry (fresh_monitor 10) unsupported_run 0%nat
           0%nat (new_content UNSUPPORTED (PStr (str_of_string
           "[Unsupported Content]")) 3) (new_content UNSUPPORTED (PStr
           (str_of_string "[Unsupported Content]")) 3) H1 H2 H3 H3 H4
           H4).
Defined.

Lemma step_records_nothing self a :
  records_nothing a →
  _last_hash (Application.step self a) = _last_hash self
  ∧ (HistoryManager.get_history (_history_manager self) = [] →
     HistoryManager.get_history (_history_manager (Application.step self a))
     = []).
Proof.
  intros Ha. destruct a as [[[mime_data|]|] now|value|];
    [done|by split|by split| |by split].
  simpl. split; [done|]. intros Hnil.
  unfold Application._on_depth_changed. destruct (_ && _); [|done].
  pose proof (set_max_depth_subseteq value (_history_manager self)) as Hsub.
  rewrite Hnil in Hsub.
  apply elem_of_nil_inv. intros x Hx%Hsub. by apply elem_of_nil in Hx.
Qed.

Lemma run_records_nothing acts self :
  Forall records_nothing acts →
  _last_hash (Application.run acts self) = _last_hash self
  ∧ (HistoryManager.get_history (_history_manager self) = [] →
     HistoryManager.get_history (_history_manager (Application.run acts self))
     = []).
Proof.
  revert self. unfold Application.run.
  induction acts as [|a acts IH]; intros self Hall; [done|].
  apply Forall_cons in Hall as [Ha Hall]. simpl.
  destruct (step_records_nothing self a Ha) as [Hlast Hnil].
  destruct (IH (Application.step self a) Hall) as [Hlast' Hnil'].
  split; [congruence|auto].
Qed.

(** X9 (the suppression of duplicates outlives Clear History).  After a
    notification that passed the size check, handlers that record nothing
    (Clear History, a change of depth, a notification at which the
    clipboard cannot be read or holds nothing) leave [_last_hash] as it
    is, so that a notification of the same content is still dropped: the
    history manager is left as it was.  In particular, content copied
    again right after Clear History is not recorded, and the history stays
    empty. *)
Theorem suppression_survives_clear_history
    (self : t) (mime_data : QMimeData) (content_type : ContentType)
    (d : payload) (lg : list log_record) (now1 now2 : Z)
    (between : list Application.action) :
  _extract_content mime_data = ((Some content_type, Some d), lg) →
  _estimate_content_size content_type d ≤ MAX_CONTENT_SIZE_BYTES →
  Forall records_nothing between →
  let self1 := _on_clipboard_change (Returns (Some mime_data)) now1 self in
  let self2 := Application.run between self1 in
  let self3 := _on_clipboard_change (Returns (Some mime_data)) now2 self2 in
  _history_manager self3 = _history_manager self2
  ∧ _last_hash self3 = Some (get_hash (new_content content_type d now1))
  ∧ (Application.ClearHistory ∈ between →
     HistoryManager.get_history (_history_manager self3) = []).
Proof.
  intros Hex Hsize Hall. cbv zeta.
  pose proof (last_hash_after_content self _ now1 _ _ _ Hex Hsize) as Hlast.
  destruct (run_records_nothing between
              (_on_clipboard_change (Returns (Some mime_data)) now1 self) Hall)
    as [Hkeep _].
  rewrite Hlast in Hkeep.
  change (get_hash (new_content content_type d now1))
    with (get_hash (new_content content_type d now2)) in Hkeep.
  pose proof (same_hash_dropped _ _ now2 _ _ _ Hex Hkeep) as Hdrop.
  assert (∀ r s, _history_manager (log r s) = _history_manager s
                 ∧ _last_hash (log r s) = _last_hash s) as Hlog by done.
  rewrite Hdrop.
  split_and!; [by destruct (_ >? _)|by destruct (_ >? _)|].
  intros (l1 & l2 & ->)%list_elem_of_split.
  apply Forall_app in Hall as [_ [_ Hall2]%Forall_cons].
  assert (HistoryManager.get_history
            (_history_manager
               (Application.run (l1 ++ Application.ClearHistory :: l2)
                  (_on_clipboard_change (Returns (Some mime_data)) now1 self)))
          = []) as Hnil.
  { unfold Application.run. rewrite foldl_app. simpl.
    by apply (run_records_nothing l2). }
  by destruct (_ >? _).
Qed.

Lemma suppression_survives_clear_history_witness :
  _extract_content (text_clipboard "hello")
    = ((Some TEXT, Some (PStr (str_of_string "hello"))), [])
  ∧ _estimate_content_size TEXT (PStr (str_of_string "hello"))
    ≤ MAX_CONTENT_SIZE_BYTES
  ∧ Forall records_nothing [Application.ClearHistory]
  ∧ (let self1 :=
       _on_clipboard_change (Returns (Some (text_clipboard "hello"))) 1
         (fresh_monitor 10)
       in
     let self2 := Application.run [Application.ClearHistory] self1 in
     let self3 :=
       _on_clipboard_change (Returns (Some (text_clipboard "hello"))) 3
         self2
       in
     _history_manager self3 = _history_manager self2
     ∧ _last_hash self3 =
       Some
         (get_hash (new_content TEXT (PStr (str_of_string "hello")) 1))
       ∧ (Application.ClearHistory ∈ [Application.ClearHistory]
          → HistoryManager.get_history (_history_manager self3) = [])).
Proof.
  assert (_extract_content (text_clipboard "hello")
          = ((Some TEXT, Some (PStr (str_of_string "hello"))), []))
    as H1
    by (reflexivity).
  assert (_estimate_content_size TEXT (PStr (str_of_string "hello"))
          ≤ MAX_CONTENT_SIZE_BYTES)
    as H2
    by (compute_done).
  assert (Forall records_nothing [Application.ClearHistory])
    as H3
    by (repeat constructor).
  split; [exact H1|].
  split; [exact H2|].
  split; [exact H3|].
  exact (suppression_survives_clear_history (fresh_monitor 10) (text_clipboard
           "hello") TEXT (PStr (str_of_string "hello")) [] 1 3
           [Application.ClearHistory] H1 H2 H3).
Defined.

(** X10 (a duplicate that is not adjacent is promoted).  Three
    notifications with contents A, B, A, all within the ceiling and with
    texts that can be encoded, A and B of different fingerprints, on a
    store of positive depth whose entries are encodable: after the
    second the entry of B is at position 0; after the third the entry of A
    with the time of the third notification is at position 0 and is the
    last fingerprint; and when the store still held A's fingerprint the
    third notification moved it without changing the length. *)
Theorem non_adjacent_duplicate_is_promoted
    (self : t) (mA mB : QMimeData) (tA tB : ContentType) (dA dB : payload)
    (lgA lgB : list log_record) (now1 now2 now3 : Z) :
  store_ok (_history_manager self) →
  0 < HistoryManager._max_depth (_history_manager self) →
  Forall encodable_entry
    (HistoryManager.get_history (_history_manager self)) →
  _extract_content mA = ((Some tA, Some dA), lgA) →
  _extract_content mB = ((Some tB, Some dB), lgB) →
  encodable_payload dA = true →
  encodable_payload dB = true →
  _estimate_content_size tA dA ≤ MAX_CONTENT_SIZE_BYTES →
  _estimate_content_size tB dB ≤ MAX_CONTENT_SIZE_BYTES →
  get_hash (new_content tA dA now1) ≠ get_hash (new_content tB dB now2) →
  let self1 := _on_clipboard_change (Returns (Some mA)) now1 self in
  let self2 := _on_clipboard_change (Returns (Some mB)) now2 self1 in
  let self3 := _on_clipboard_change (Returns (Some mA)) now3 self2 in
  let before := HistoryManager.get_history (_history_manager self2) in
  let after := HistoryManager.get_history (_history_manager self3) in
  before !! 0%nat = Some (new_content tB dB now2)
  ∧ after !! 0%nat = Some (new_content tA dA now3)
  ∧ _last_hash self3 = Some (get_hash (new_content tA dA now3))
  ∧ (get_hash (new_content tA dA now1) ∈ hashes before →
     after = promote (new_content tA dA now3) before
     ∧ length after = length before).
Proof.
  intros Hok Hk _ HexA HexB _ _ HsizeA HsizeB Hne. cbv zeta.
  set (self1 := _on_clipboard_change (Returns (Some mA)) now1 self).
  assert (store_ok (_history_manager self1)) as Hok1
    by exact (step_store_ok self
                (Application.Notification (Returns (Some mA)) now1) Hok).
  assert (HistoryManager._max_depth (_history_manager self1)
          = HistoryManager._max_depth (_history_manager self)) as Hk1.
  { unfold self1. rewrite (on_clipboard_change_content _ _ _ _ _ _ HexA).
    destruct (_ >? _); [done|]. destruct (decide _); [done|].
    by rewrite add_item_spec. }
  pose proof (last_hash_after_content self _ now1 _ _ _ HexA HsizeA) as Hlast1.
  fold self1 in Hlast1.
  destruct (notification_recorded self1 mB now2 tB dB lgB Hok1 HexB HsizeB)
    as (Hh2 & Hk2 & Hlast2); [rewrite Hlast1; congruence|].
  set (self2 := _on_clipboard_change (Returns (Some mB)) now2 self1) in *.
  assert (store_ok (_history_manager self2)) as Hok2
    by exact (step_store_ok self1
                (Application.Notification (Returns (Some mB)) now2) Hok1).
  destruct (notification_recorded self2 mA now3 tA dA lgA Hok2 HexA HsizeA)
    as (Hh3 & Hk3 & Hlast3).
  { rewrite Hlast2. intros [= Heq]. apply Hne. by rewrite <- Heq. }
  rewrite Hk2, Hk1 in Hh3. rewrite Hk1 in Hh2.
  destruct (Z.to_nat (HistoryManager._max_depth (_history_manager self)))
    as [|n] eqn:Hn; [lia|].
  split_and!; [by rewrite Hh2|by rewrite Hh3|done|].
  intros Hin. rewrite Hh3.
  destruct Hok2 as (_ & _ & Hlen2 & Hnd2). rewrite Hk2, Hk1 in Hlen2.
  assert (length (promote (new_content tA dA now3)
                    (HistoryManager.get_history (_history_manager self2)))
          = length (HistoryManager.get_history (_history_manager self2)))
    as Hlen.
  { unfold promote. cbn [length]. by apply length_filter_hash. }
  rewrite take_ge; [done|]. rewrite Hlen. lia.
Qed.

Lemma non_adjacent_duplicate_is_promoted_witness :
  store_ok (_history_manager (fresh_monitor 10))
  ∧ 0 < HistoryManager._max_depth (_history_manager (fresh_monitor 10))
  ∧ Forall encodable_entry
      (HistoryManager.get_history (_history_manager (fresh_monitor 10)))
  ∧ _extract_content (text_clipboard "A")
    = ((Some TEXT, Some (PStr (str_of_string "A"))), [])
  ∧ _extract_content (text_clipboard "B")
    = ((Some TEXT, Some (PStr (str_of_string "B"))), [])
  ∧ encodable_payload (PStr (str_of_string "A")) = true
  ∧ encodable_payload (PStr (str_of_string "B")) = true
  ∧ _estimate_content_size TEXT (PStr (str_of_string "A"))
    ≤ MAX_CONTENT_SIZE_BYTES
  ∧ _estimate_content_size TEXT (PStr (str_of_string "B"))
    ≤ MAX_CONTENT_SIZE_BYTES
  ∧ (get_hash (new_content TEXT (PStr (str_of_string "A")) 1)
    ≠ get_hash (new_content TEXT (PStr (str_of_string "B")) 2))
  ∧ (let self1 :=
       _on_clipboard_change (Returns (Some (text_clipboard "A"))) 1
         (fresh_monitor 10)
       in
     let self2 :=
       _on_clipboard_change (Returns (Some (text_clipboard "B"))) 2 self1
       in
     let self3 :=
       _on_clipboard_change (Returns (Some (text_clipboard "A"))) 3 self2
       in
     let before := HistoryManager.get_history (_history_manager self2) in
     let after := HistoryManager.get_history (_history_manager self3) in
     before !! 0%nat =
     Some (new_content TEXT (PStr (str_of_string "B")) 2)
     ∧ after !! 0%nat =
       Some (new_content TEXT (PStr (str_of_string "A")) 3)
       ∧ _last_hash self3 =
         Some (get_hash (new_content TEXT (PStr (str_of_string "A")) 3))
         ∧ (get_hash (new_content TEXT (PStr (str_of_string "A")) 1)
            ∈ hashes before
            → after =
              promote (new_content TEXT (PStr (str_of_string "A")) 3)
                before
              ∧ length after = length before)).
Proof.
  assert (store_ok (_history_manager (fresh_monitor 10)))
    as H1
    by (split_and!; compute_done).
  assert (0 < HistoryManager._max_depth (_history_manager (fresh_monitor 10)))
    as H2
    by (compute_done).
  assert (Forall encodable_entry
            (HistoryManager.get_history (_history_manager (fresh_monitor 10))))
    as H3
    by (constructor).
  assert (_extract_content (text_clipboard "A")
          = ((Some TEXT, Some (PStr (str_of_string "A"))), []))
    as H4
    by (reflexivity).
  assert (_extract_content (text_clipboard "B")
          = ((Some TEXT, Some (PStr (str_of_string "B"))), []))
    as H5
    by (reflexivity).
  assert (encodable_payload (PStr (str_of_string "A")) = true)
    as H6
    by (reflexivity).
  assert (encodable_payload (PStr (str_of_string "B")) = true)
    as H7
    by (reflexivity).
  assert (_estimate_content_size TEXT (PStr (str_of_string "A"))
          ≤ MAX_CONTENT_SIZE_BYTES)
    as H8
    by (compute_done).
  assert (_estimate_content_size TEXT (PStr (str_of_string "B"))
          ≤ MAX_CONTENT_SIZE_BYTES)
    as H9
    by (compute_done).
  assert (get_hash (new_content TEXT (PStr (str_of_string "A")) 1)
          ≠ get_hash (new_content TEXT (PStr (str_of_string "B")) 2))
    as H10
    by (compute_done).
  split; [exact H1|].
  split; [exact H2|].
  split; [exact H3|].
  split; [exact H4|].
  split; [exact H5|].
  split; [exact H6|].
  split; [exact H7|].
  split; [exact H8|].
  split; [exact H9|].
  split; [exact H10|].
  exact (non_adjacent_duplicate_is_promoted (fresh_monitor 10) (text_clipboard
           "A") (text_clipboard "B") TEXT TEXT (PStr (str_of_string
           "A")) (PStr (str_of_string "B")) [] [] 1 2 3 H1 H2 H3 H4 H5
           H6 H7 H8 H9 H10).
Defined.

Lemma on_clipboard_change_proper clipboard now self self' :
  _history_manager self = _history_manager self' →
  _last_hash self = _last_hash self' →
  _history_manager (_on_clipboard_change clipboard now self)
  = _history_manager (_on_clipboard_change clipboard now self')
  ∧ _last_hash (_on_clipboard_change clipboard now self)
    = _last_hash (_on_clipboard_change clipboard now self').
Proof.
  intros Hhm Hlast. destruct clipboard as [[mime_data|]|]; [|done|done].
  destruct (_extract_content mime_data) as [[[content_type|] [d|]] lg] eqn:Hex;
    try by (unfold _on_clipboard_change; rewrite Hex).
  rewrite !(on_clipboard_change_content _ _ _ _ _ _ Hex).
  destruct (_ >? _); [done|]. rewrite Hhm, Hlast.
  destruct (decide _); [done|]. by destruct (HistoryManager.add_item _ _).
Qed.

(** X11 ([force_check] on an unchanged clipboard).  After [start] has
    captured the clipboard, any number of [force_check] calls that find
    the same clipboard (the popup being opened) change neither the history
    manager nor the last fingerprint, whatever the clipboard holds and
    whether or not [start] recorded it. *)
Theorem force_check_is_idempotent
    (clipboard : call (option QMimeData)) (now : Z) (nows : list Z)
    (self : t) :
  let self1 := start clipboard now self in
  let selfn := foldl (λ s n, force_check clipboard n s) self1 nows in
  _history_manager selfn = _history_manager self1
  ∧ _last_hash selfn = _last_hash self1.
Proof.
  cbv zeta. induction nows as [|n nows IH] using rev_ind; [done|].
  rewrite foldl_app. simpl. destruct IH as [IHhm IHlast].
  unfold force_check at 1 3.
  destruct (on_clipboard_change_proper clipboard n _ _ IHhm IHlast)
    as [-> ->].
  unfold start.
  destruct (on_clipboard_change_after_log clipboard n [(INFO, MonitoringStarted)]
              (_on_clipboard_change clipboard now self)) as [-> ->].
  apply same_clipboard_twice.
Qed.

End MonitorMore.

(** ** The methods of [str] on sample texts *)

Example split_strip_replace :
  PyStr.split (str_of_string "  copy   and paste ")
  = [str_of_string "copy"; str_of_string "and"; str_of_string "paste"]
  ∧ PyStr.strip (str_of_string "  Cmd ") = str_of_string "Cmd"
  ∧ PyStr.strip (str_of_string "   ") = []
  ∧ PyStr.split_on 43 (str_of_string "Cmd++V")
    = [str_of_string "Cmd"; []; str_of_string "V"]
  ∧ PyStr.replace (str_of_string "aa") (str_of_string "b")
      (str_of_string "aaa") = str_of_string "ba"
  ∧ PyStr.join (str_of_string " ") [str_of_string "a"; str_of_string "b"]
    = str_of_string "a b".
Proof. vm_compute. repeat split. Qed.

(** ** The preview of an entry *)

Section PreviewFacts.
Import PyStr Preview.

Lemma split_from_words w s :
  Forall (λ c, isspace c = false) w →
  Forall word (split_from w s).
Proof.
  revert w. induction s as [|c s IH]; intros w Hw; simpl.
  - destruct w; simpl; [constructor|]. constructor; [done|constructor].
  - destruct (isspace c) eqn:Hc.
    + destruct w; simpl; [by apply IH|].
      constructor; [done|]. by apply IH.
    + apply IH. apply Forall_app. split; [done|]. by constructor.
Qed.

Lemma single_spaced_cons c1 c2 s :
  single_spaced (c1 :: c2 :: s)
  = negb (isspace c1 && isspace c2) && single_spaced (c2 :: s).
Proof. done. Qed.

Lemma single_spaced_app a b :
  single_spaced a = true → single_spaced b = true →
  (∀ c, last a = Some c → isspace c = false) →
  single_spaced (a ++ b) = true.
Proof.
  intros Ha Hb Hlast. induction a as [|c1 a IH]; [done|].
  destruct a as [|c2 a].
  - simpl. destruct b as [|c b]; [done|].
    rewrite (Hlast c1 eq_refl). simpl. exact Hb.
  - simpl in Ha. apply andb_prop in Ha as [H12 Ha].
    change ((c1 :: c2 :: a) ++ b) with (c1 :: (c2 :: a) ++ b).
    change ((c2 :: a) ++ b) with (c2 :: (a ++ b)) at 1.
    rewrite single_spaced_cons, H12. simpl.
    apply IH; [done|]. intros c Hc. apply Hlast. by rewrite last_cons_cons.
Qed.

Lemma single_spaced_no_space s :
  Forall (λ c, isspace c = false) s → single_spaced s = true.
Proof.
  induction 1 as [|c s Hc Hs IH]; [done|].
  destruct s as [|c2 s]; [done|]. rewrite single_spaced_cons.
  rewrite Hc. simpl. exact IH.
Qed.

Lemma single_spaced_take n s :
  single_spaced s = true → single_spaced (take n s) = true.
Proof.
  revert n. induction s as [|c1 s IH]; intros n Hs; [by destruct n|].
  destruct n as [|n]; [done|]. destruct s as [|c2 s]; [by destruct n|].
  simpl in Hs. apply andb_prop in Hs as [H12 Hs].
  destruct n as [|n]; [done|].
  change (take (S (S n)) (c1 :: c2 :: s)) with (c1 :: c2 :: take n s).
  rewrite single_spaced_cons, H12. simpl. apply (IH (S n) Hs).
Qed.

Lemma word_clean w : word w → clean w.
Proof.
  intros [Hne Hw]. split.
  - intros c Hc Hsp. eapply Forall_forall in Hw; [|exact Hc]. congruence.
  - by apply single_spaced_no_space.
  - intros c Hc. apply head_Some_elem_of in Hc.
    by eapply Forall_forall in Hw.
  - intros c Hc. apply last_Some_elem_of in Hc.
    by eapply Forall_forall in Hw.
Qed.

Lemma join_clean ws :
  Forall word ws → clean (join (str_of_string " ") ws).
Proof.
  induction 1 as [|w ws Hw Hws IH].
  - split; try done. by intros c ?%elem_of_nil.
  - destruct ws as [|w' ws]; [by apply word_clean|].
    change (join (str_of_string " ") (w :: w' :: ws))
      with (w ++ 32%N :: join (str_of_string " ") (w' :: ws)).
    set (rest := join (str_of_string " ") (w' :: ws)) in *.
    pose proof (word_clean w Hw) as Cw. destruct Hw as [Hne _].
    assert (rest ≠ []) as Hrest.
    { unfold rest. apply Forall_cons in Hws as [[Hne' _] _].
      destruct ws; simpl; [done|]. by destruct w'. }
    split.
    + intros c [Hc|[->|Hc]%elem_of_cons]%elem_of_app Hsp;
        [by apply (clean_spaces _ Cw)|done|by apply (clean_spaces _ IH)].
    + apply single_spaced_app; [by apply (clean_single _ Cw)| |
        by apply (clean_last _ Cw)].
      destruct rest as [|c2 rest']; [done|]. rewrite single_spaced_cons.
      rewrite (clean_head _ IH c2 eq_refl), andb_false_r. simpl.
      by apply (clean_single _ IH).
    + intros c Hc. apply (clean_head _ Cw). by destruct w.
    + intros c Hc. apply (clean_last _ IH).
      rewrite last_app, last_cons in Hc.
      destruct (last rest) as [y|] eqn:Hl; [done|].
      by apply last_None in Hl.
Qed.

Lemma lstrip_id s :
  (∀ c, head s = Some c → isspace c = false) → lstrip s = s.
Proof. destruct s as [|c s]; [done|]. intros H. simpl. by rewrite (H c). Qed.

Lemma strip_clean s : clean s → strip s = s.
Proof.
  intros C. unfold strip, rstrip.
  rewrite (lstrip_id s) by apply (clean_head _ C).
  rewrite lstrip_id; [by rewrite reverse_involutive|].
  intros c Hc. apply (clean_last _ C). by rewrite <- head_reverse.
Qed.

Lemma plain_text_clean re_sub html : clean (plain_text re_sub html).
Proof.
  unfold plain_text.
  set (text := replace _ _ _).
  assert (clean (join (str_of_string " ") (split text))) as C
    by (apply join_clean, split_from_words; constructor).
  by rewrite strip_clean.
Qed.

(** X18 (length of a preview).  Whatever the type and the payload of an
    entry, [_generate_preview] gives at most 53 code points.  For a [TEXT]
    entry it gives the text itself when the text has at most 50 code
    points, and else its first 50 code points followed by ["..."], 53 in
    all. *)
Theorem preview_is_bounded
    (re_sub : pattern → str → str) (t : ContentType) (d : payload) :
  (length (_generate_preview re_sub t d) ≤ 53)%nat
  ∧ ∀ s, t = TEXT → d = PStr s →
      ((length s ≤ 50)%nat → _generate_preview re_sub t d = s)
      ∧ ((50 < length s)%nat →
         _generate_preview re_sub t d = take 50 s ++ str_of_string "..."
         ∧ length (_generate_preview re_sub t d) = 53%nat).
Proof.
  assert (∀ s : str, (50 < length s)%nat →
            length (take 50 s ++ str_of_string "...") = 53%nat) as Hcut.
  { intros s Hs. rewrite length_app, length_take.
    change (length (str_of_string "...")) with 3%nat. lia. }
  split.
  - destruct t, d as [s|b]; simpl; try lia.
    + unfold ellipsis. destruct (Nat.ltb_spec 50 (length s)) as [Hs|Hs];
        [rewrite Hcut by done|]; lia.
    + destruct (Nat.ltb_spec 50 (length (plain_text re_sub s))) as [Hs|Hs];
        [rewrite Hcut by done; lia|].
      destruct (truthy _); [lia|]. simpl. lia.
  - intros s -> ->. simpl. unfold ellipsis.
    destruct (Nat.ltb_spec 50 (length s)) as [Hs|Hs].
    + split; [lia|]. intros _. split; [done|by apply Hcut].
    + split; [done|lia].
Qed.

(** X19 (the preview of rich text is clean).  Whatever the regular
    expressions remove, the preview of a [RICH_TEXT] entry is not empty
    (["[Rich Text]"] when no text is left), its only white space is the
    space U+0020, never twice in a row, and it neither starts nor ends
    with white space. *)
Theorem rich_text_preview_is_clean
    (re_sub : pattern → str → str) (html : str) :
  let preview := _generate_preview re_sub RICH_TEXT (PStr html) in
  preview ≠ []
  ∧ (∀ c, c ∈ preview → isspace c = true → c = 32%N)
  ∧ single_spaced preview = true
  ∧ (∀ c, head preview = Some c → isspace c = false)
  ∧ (∀ c, last preview = Some c → isspace c = false).
Proof.
  cbv zeta. simpl.
  pose proof (plain_text_clean re_sub html) as C.
  set (text := plain_text re_sub html) in *.
  destruct (Nat.ltb_spec 50 (length text)) as [Hlong|Hshort].
  - assert (∃ c l, text = c :: l) as (c0 & l & Htext).
    { destruct text; [simpl in Hlong; lia|by eauto]. }
    split_and!.
    + rewrite Htext. done.
    + intros c [Hc%subseteq_take|Hc]%elem_of_app Hsp;
        [by apply (clean_spaces _ C)|].
      exfalso. revert Hsp.
      apply elem_of_cons in Hc as [->|Hc]; [done|].
      apply elem_of_cons in Hc as [->|Hc]; [done|].
      apply elem_of_cons in Hc as [->|Hc]; [done|].
      by apply elem_of_nil in Hc.
    + pose proof (single_spaced_take 50 text (clean_single _ C)) as Ht.
      set (cut := take 50 text) in *.
      clearbody cut. clear -Ht.
      induction cut as [|c1 cut IH]; [done|].
      destruct cut as [|c2 cut].
      * simpl. by rewrite andb_false_r.
      * change ((c1 :: c2 :: cut) ++ str_of_string "...")
          with (c1 :: c2 :: (cut ++ str_of_string "...")).
        rewrite single_spaced_cons in Ht |- *.
        apply andb_prop in Ht as [-> Ht]. simpl. by apply IH.
    + intros c Hc. apply (clean_head _ C). rewrite Htext in *. done.
    + intros c Hc. rewrite last_app in Hc. simpl in Hc. by simplify_eq.
  - destruct text as [|c0 l] eqn:Htext; simpl.
    + split_and!; [done| |done|by intros ? [= <-]|by intros ? [= <-]].
      intros c Hc Hsp.
      repeat (apply elem_of_cons in Hc as [->|Hc];
              [first [by vm_compute in Hsp|by vm_compute]|]).
      by apply elem_of_nil in Hc.
    + split_and!; [done|apply (clean_spaces _ C)|apply (clean_single _ C)
                  |apply (clean_head _ C)|apply (clean_last _ C)].
Qed.

End PreviewFacts.

(** With substitutions that remove nothing: a text of 60 code points is cut
    to 53, white space is cleaned, and the entities are decoded in the
    order of the source. *)
Example preview_samples :
  length (Preview._generate_preview (λ _ s, s) TEXT
            (PStr (replicate 60 97%N))) = 53%nat
  ∧ Preview._generate_preview (λ _ s, s) RICH_TEXT
      (PStr (str_of_string "  a&nbsp;&amp;lt;  b "))
    = str_of_string "a < b"
  ∧ Preview._generate_preview (λ _ s, s) RICH_TEXT
      (PStr (str_of_string " &nbsp; "))
    = str_of_string "[Rich Text]"
  ∧ Preview._generate_preview (λ _ s, s) IMAGE (PBytes [])
    = str_of_string "[Image]".
Proof. vm_compute. repeat split. Qed.

(** ** The settings *)

Section SettingsFacts.

Lemma strip_nil_truthy s :
  PyStr.truthy (PyStr.strip s) = true → PyStr.truthy s = true.
Proof. by destruct s. Qed.

Lemma init_validates init :
  Settings.validate (SettingsManager._settings (SettingsManager.__init__ init))
  = true.
Proof.
  unfold SettingsManager.__init__.
  destruct (Settings.validate (match init with
                               | Some s => s
                               | None => Settings.default
                               end)) eqn:Hv; simpl; [exact Hv|done].
Qed.

Lemma step_validates s a :
  Settings.validate (SettingsManager._settings (Desktop.settings_manager s))
  = true →
  Settings.validate
    (SettingsManager._settings (Desktop.settings_manager (Desktop.step s a)))
  = true.
Proof.
  intros Hv. destruct a as [[clipboard now|value|]|hotkey|enabled|mark];
    simpl; try done.
  - unfold UIManager._on_depth_changed, SettingsManager.set_clipboard_depth.
    destruct ((5 <=? value) && (value <=? 100)) eqn:Hr; simpl; [|done].
    unfold Settings.validate in *. simpl. rewrite Hr. simpl.
    by destruct (_ && _), (PyStr.truthy _).
  - unfold SettingsManager.set_hotkey.
    destruct (PyStr.truthy (PyStr.strip hotkey)) eqn:Hh; simpl; [|done].
    unfold Settings.validate in *. simpl.
    rewrite (strip_nil_truthy _ Hh). by destruct (_ && _).
  - unfold OnboardingManager._show_welcome_if_needed.
    destruct (OnboardingManager.should_show_welcome _), mark; done.
Qed.

(** X20 (the settings stay valid).  Whatever settings the manager is
    created with, and after any run of handlers, the settings it holds
    pass [validate]: the depth is between 5 and 100 and the hotkey is not
    empty.  Settings that do not validate at creation, and no settings,
    give the defaults. *)
Theorem settings_stay_valid
    (init : option Settings.t) (clipboard_monitor : ClipboardMonitor.t)
    (acts : list Desktop.action) :
  let s0 :=
    {| Desktop.settings_manager := SettingsManager.__init__ init;
       Desktop.clipboard_monitor := clipboard_monitor |} in
  let settings :=
    SettingsManager.get_settings
      (Desktop.settings_manager (Desktop.run acts s0)) in
  Settings.validate settings = true
  ∧ 5 ≤ Settings.clipboard_depth settings ≤ 100
  ∧ Settings.hotkey settings ≠ []
  ∧ (init = None ∨ (∃ s, init = Some s ∧ Settings.validate s = false) →
     SettingsManager.__init__ init
     = {| SettingsManager._settings := Settings.default |}).
Proof.
  cbv zeta.
  assert (Settings.validate
            (SettingsManager._settings
               (Desktop.settings_manager
                  (Desktop.run acts
                     {| Desktop.settings_manager := SettingsManager.__init__ init;
                        Desktop.clipboard_monitor := clipboard_monitor |})))
          = true) as Hv.
  { unfold Desktop.run.
    generalize (init_validates init).
    generalize (SettingsManager.__init__ init). intros sm Hsm.
    set (s := {| Desktop.settings_manager := sm;
                 Desktop.clipboard_monitor := clipboard_monitor |}).
    change sm with (Desktop.settings_manager s) in Hsm.
    clearbody s. revert s Hsm.
    induction acts as [|a acts IH]; intros s Hs; [done|].
    simpl. by apply IH, step_validates. }
  set (sm := Desktop.settings_manager _) in *.
  assert (SettingsManager.get_settings sm = SettingsManager._settings sm)
    as -> by by destruct sm as [[]].
  split; [done|]. split; [|split].
  - unfold Settings.validate in Hv.
    destruct (Z.leb_spec 5 (Settings.clipboard_depth (SettingsManager._settings sm)));
      [|done].
    destruct (Z.leb_spec (Settings.clipboard_depth (SettingsManager._settings sm)) 100);
      [lia|done].
  - unfold Settings.validate in Hv. destruct (_ && _); [|done].
    by destruct (Settings.hotkey _).
  - intros [->|(s & -> & Hs)]; [done|].
    unfold SettingsManager.__init__. by rewrite Hs.
Qed.

Lemma on_depth_changed_agrees value sm hm :
  (UIManager._on_depth_changed value sm hm).2
  = Application._on_depth_changed value hm.
Proof.
  unfold UIManager._on_depth_changed, Application._on_depth_changed,
    SettingsManager.set_clipboard_depth.
  by destruct (_ && _).
Qed.

Lemma notification_keeps_depth clipboard now m :
  store_ok (ClipboardMonitor._history_manager m) →
  HistoryManager._max_depth
    (ClipboardMonitor._history_manager
       (ClipboardMonitor._on_clipboard_change clipboard now m))
  = HistoryManager._max_depth (ClipboardMonitor._history_manager m).
Proof.
  intros Hok. destruct clipboard as [[mime_data|]|]; [|done|done].
  destruct (ClipboardMonitor._extract_content mime_data)
    as [[[content_type|] [d|]] lg] eqn:Hex;
    try by (unfold ClipboardMonitor._on_clipboard_change; rewrite Hex).
  rewrite (on_clipboard_change_content _ _ _ _ _ _ Hex).
  destruct (_ >? _); [done|]. destruct (decide _); [done|].
  by rewrite add_item_spec.
Qed.

Lemma step_in_step s a : in_step s → in_step (Desktop.step s a).
Proof.
  intros (Hd & Hr & Hok).
  destruct a as [[clipboard now|value|]|hotkey|enabled|mark].
  - split; [|split; [exact Hr|]]; simpl.
    + by rewrite notification_keeps_depth.
    + by apply (step_store_ok _ (Application.Notification clipboard now)).
  - pose proof (step_store_ok _ (Application.DepthChanged value) Hok) as Hok'.
    unfold in_step. simpl in *.
    rewrite <- on_depth_changed_agrees
      with (sm := Desktop.settings_manager s) in Hok'.
    revert Hok'.
    unfold UIManager._on_depth_changed, SettingsManager.set_clipboard_depth,
      SettingsManager.get_clipboard_depth in *.
    destruct (Z.leb_spec 5 value); simpl; [|done].
    destruct (Z.leb_spec value 100); simpl; [|done].
    rewrite set_max_depth_spec by lia. simpl. intros Hok'.
    split; [done|]. split; [lia|done].
  - split; [exact Hd|split; [exact Hr|]]. simpl.
    by apply store_ok_clear_history.
  - unfold in_step, SettingsManager.get_clipboard_depth in *. simpl.
    unfold SettingsManager.set_hotkey. by destruct (negb _).
  - done.
  - unfold in_step, Desktop.step, OnboardingManager._show_welcome_if_needed.
    destruct (OnboardingManager.should_show_welcome _), mark; done.
Qed.

Lemma run_in_step acts s : in_step s → in_step (Desktop.run acts s).
Proof.
  revert s. unfold Desktop.run.
  induction acts as [|a acts IH]; intros s Hs; [done|].
  simpl. by apply IH, step_in_step.
Qed.

Lemma run_history_actions acts s :
  Desktop.clipboard_monitor (Desktop.run acts s)
  = Application.run (history_actions acts) (Desktop.clipboard_monitor s).
Proof.
  revert s. unfold Desktop.run, Application.run.
  induction acts as [|a acts IH]; intros s; [done|].
  simpl. rewrite IH.
  destruct a as [[clipboard now|value|]|hotkey|enabled|mark]; try done.
  simpl. by rewrite <- on_depth_changed_agrees
    with (sm := Desktop.settings_manager s);
    destruct (UIManager._on_depth_changed _ _ _).
Qed.

(** X21 (the depth of the store follows the settings).  From the start of
    the application and after any run of handlers, the depth of the
    history manager and the bound of its deque are the clipboard depth of
    the settings, between 5 and 100, and the history is not longer than
    it: a depth that the settings refuse does not reach the history
    manager.  The clipboard monitor evolves as in the runs of
    [Application]. *)
Theorem depth_slider_keeps_store_in_step (acts : list Desktop.action) :
  ∃ s0,
    Desktop.__init__ = Some s0
    ∧ let s := Desktop.run acts s0 in
      let history_manager :=
        ClipboardMonitor._history_manager (Desktop.clipboard_monitor s) in
      let depth :=
        SettingsManager.get_clipboard_depth (Desktop.settings_manager s) in
      HistoryManager._max_depth history_manager = depth
      ∧ maxlen (HistoryManager._history history_manager) = depth
      ∧ 5 ≤ depth ≤ 100
      ∧ Z.of_nat (length (HistoryManager.get_history history_manager)) ≤ depth
      ∧ Desktop.clipboard_monitor s
        = Application.run (history_actions acts) (Desktop.clipboard_monitor s0).
Proof.
  eexists. split; [reflexivity|]. cbv zeta.
  match goal with |- context [Desktop.run acts ?s] => set (s0 := s) end.
  assert (in_step s0) as H0.
  { split_and!; [done|done|done|]. by apply (store_ok_init 10). }
  destruct (run_in_step acts s0 H0) as (Hd & Hr & (_ & Hmax & Hlen & _)).
  split; [done|]. split; [congruence|]. split; [done|].
  split; [by rewrite <- Hd|]. apply run_history_actions.
Qed.

(** X22 (the welcome screen is not shown again).  Once the welcome screen
    was shown and marked complete, no handler makes it due again:
    [should_show_welcome] answers [False] and [_show_welcome_if_needed]
    shows nothing and leaves the settings as they are. *)
Theorem welcome_not_shown_again
    (s : Desktop.t) (before after : list Desktop.action)
    (should_mark_complete : bool) :
  let s1 :=
    Desktop.run (before ++ [Desktop.ShowWelcomeIfNeeded true] ++ after) s in
  OnboardingManager.should_show_welcome (Desktop.settings_manager s1) = false
  ∧ OnboardingManager._show_welcome_if_needed should_mark_complete
      (Desktop.settings_manager s1)
    = (false, Desktop.settings_manager s1).
Proof.
  cbv zeta.
  assert (∀ acts s',
    OnboardingManager.should_show_welcome (Desktop.settings_manager s') = false →
    OnboardingManager.should_show_welcome
      (Desktop.settings_manager (Desktop.run acts s')) = false) as Hkeep.
  { unfold Desktop.run. induction acts as [|a acts IH]; intros s' Hs'; [done|].
    simpl. apply IH.
    destruct a as [[clipboard now|value|]|hotkey|enabled|mark]; simpl; try done.
    - unfold UIManager._on_depth_changed, SettingsManager.set_clipboard_depth.
      by destruct (negb _).
    - unfold SettingsManager.set_hotkey. by destruct (negb _).
    - unfold OnboardingManager._show_welcome_if_needed. by rewrite Hs'. }
  assert (OnboardingManager.should_show_welcome
            (Desktop.settings_manager
               (Desktop.run
                  (before ++ [Desktop.ShowWelcomeIfNeeded true] ++ after) s))
          = false) as Hdone.
  { unfold Desktop.run. rewrite !foldl_app. apply Hkeep.
    cbn [foldl Desktop.step Desktop.settings_manager].
    unfold OnboardingManager._show_welcome_if_needed.
    destruct (OnboardingManager.should_show_welcome
                (Desktop.settings_manager (foldl Desktop.step s before)))
      eqn:Hs; [reflexivity|exact Hs]. }
  split; [done|].
  unfold OnboardingManager._show_welcome_if_needed. by rewrite Hdone.
Qed.

End SettingsFacts.

(** ** The permission manager *)

Section PermissionManagerFacts.
Import PermissionManager.

Lemma checks_snoc probes p self :
  checks (probes ++ [p]) self
  = (check_accessibility_permission p.1 p.2 (checks probes self)).2.
Proof. unfold checks. by rewrite foldl_app. Qed.

Lemma checks_all_throw probes self :
  Forall (λ p, p.1 = Throws) probes → checks probes self = self.
Proof.
  induction probes as [|p probes IH] using rev_ind; intros Hall; [done|].
  apply Forall_app in Hall as [Hall [Hp _]%Forall_cons].
  rewrite checks_snoc, IH by done. by rewrite Hp.
Qed.

(** X23 (degraded mode follows the last answer).  After a run of
    permission checks on a fresh [PermissionManager], [is_degraded_mode]
    is the negation of the answer of the last check whose probe returned,
    and [last_checked] its time; it is [True] when no probe returned.  A
    check whose probe raises answers [False] and leaves the status as it
    was, so that [is_degraded_mode] may still answer [False] then. *)
Theorem degraded_mode_follows_last_answer
    (now0 : Z) (probes : list (call bool * Z)) :
  let self := checks probes (__init__ now0) in
  (Forall (λ p, p.1 = Throws) probes →
   is_degraded_mode self = true
   ∧ PermissionStatus.last_checked (status self) = now0)
  ∧ (∀ before after b now,
       probes = before ++ [(Returns b, now)] ++ after →
       Forall (λ p, p.1 = Throws) after →
       is_degraded_mode self = negb b
       ∧ PermissionStatus.last_checked (status self) = now)
  ∧ ∀ now,
      check_accessibility_permission Throws now self = (false, self)
      ∧ (get_permission_status Throws now self).1 = status self.
Proof.
  cbv zeta. split_and!.
  - intros Hall. by rewrite checks_all_throw.
  - intros before after b now -> Hall.
    assert (∀ l1 l2 s, checks (l1 ++ l2) s = checks l2 (checks l1 s)) as Happ
      by (intros; unfold checks; by rewrite foldl_app).
    rewrite !Happ, (checks_all_throw after) by done. done.
  - done.
Qed.

End PermissionManagerFacts.

(** ** The hotkey handler *)

Section HotkeyFacts.
Import HotkeyHandlerMacOS.
Variable lower : str → str.

Lemma lor_bit_range m k :
  0 ≤ m < 16 → 0 ≤ k < 4 → 0 ≤ Z.lor m (Z.shiftl 1 k) < 16.
Proof.
  intros Hm Hk.
  assert (k = 0 ∨ k = 1 ∨ k = 2 ∨ k = 3) as Hk' by lia.
  assert (m = 0 ∨ m = 1 ∨ m = 2 ∨ m = 3 ∨ m = 4 ∨ m = 5 ∨ m = 6 ∨ m = 7
          ∨ m = 8 ∨ m = 9 ∨ m = 10 ∨ m = 11 ∨ m = 12 ∨ m = 13 ∨ m = 14
          ∨ m = 15) as Hm' by lia.
  clear Hm Hk.
  repeat (destruct Hk' as [->|Hk']);
    repeat (destruct Hm' as [->|Hm']); subst; by compute.
Qed.

Lemma testbit_lor_bit m k i :
  0 ≤ k < 4 → 0 ≤ i < 4 →
  Z.testbit (Z.lor m (Z.shiftl 1 k)) i = Z.testbit m i || bool_decide (i = k).
Proof.
  intros Hk Hi. rewrite Z.lor_spec. f_equal.
  assert (k = 0 ∨ k = 1 ∨ k = 2 ∨ k = 3) as Hk' by lia.
  assert (i = 0 ∨ i = 1 ∨ i = 2 ∨ i = 3) as Hi' by lia.
  clear Hk Hi.
  repeat (destruct Hk' as [->|Hk']);
    repeat (destruct Hi' as [->|Hi']); subst; by compute.
Qed.

Lemma modifier_names_disjoint i j p :
  0 ≤ i < 4 → 0 ≤ j < 4 →
  p ∈ modifier_names i → p ∈ modifier_names j → i = j.
Proof.
  intros Hi Hj.
  assert (i = 0 ∨ i = 1 ∨ i = 2 ∨ i = 3) as Hi' by lia.
  assert (j = 0 ∨ j = 1 ∨ j = 2 ∨ j = 3) as Hj' by lia.
  destruct Hi' as [->|[->|[->| ->]]]; destruct Hj' as [->|[->|[->| ->]]];
    try done; unfold modifier_names; simpl; intros Hp Hq; exfalso;
    repeat match goal with
    | H : p ∈ _ :: _ |- _ => apply elem_of_cons in H as [->|H]
    | H : _ ∈ _ :: _ |- _ => apply elem_of_cons in H as [H|H]; [done|]
    | H : _ ∈ [] |- _ => by apply elem_of_nil in H
    end.
Qed.

Lemma not_modifier part :
  part ∉ [str_of_string "cmd"; str_of_string "command"] →
  part ≠ str_of_string "shift" →
  part ∉ [str_of_string "ctrl"; str_of_string "control"] →
  part ∉ [str_of_string "alt"; str_of_string "option"] →
  ¬ is_modifier part.
Proof.
  unfold is_modifier, modifier_names. simpl.
  rewrite !elem_of_cons, !elem_of_nil. tauto.
Qed.

(** What the loop of [_parse_hotkey] does to the mask and to the key. *)
Lemma parse_parts_Some parts m k m' k' :
  0 ≤ m < 16 →
  parse_parts parts m k = Some (m', k') →
  0 ≤ m' < 16
  ∧ Forall (λ p, is_modifier p ∨ length p = 1%nat) parts
  ∧ (∀ i, 0 ≤ i < 4 →
       Z.testbit m' i = true
       ↔ Z.testbit m i = true ∨ ∃ p, p ∈ parts ∧ p ∈ modifier_names i)
  ∧ k' = match last (filter (λ p, ¬ is_modifier p) parts) with
         | Some p => Some p
         | None => k
         end.
Proof.
  revert m k. induction parts as [|part parts IH]; intros m k Hm Hparse.
  - simpl in Hparse. simplify_eq. split_and!; try done; try lia.
    intros i Hi. split; [by left|]. intros [?|(p & Hp & _)]; [done|].
    by apply elem_of_nil in Hp.
  - cbn [parse_parts] in Hparse.
    assert (∀ j, 0 ≤ j < 4 → part ∈ modifier_names j →
              parse_parts parts (Z.lor m (Z.shiftl 1 j)) k = Some (m', k') →
              0 ≤ m' < 16
              ∧ Forall (λ p, is_modifier p ∨ length p = 1%nat) (part :: parts)
              ∧ (∀ i, 0 ≤ i < 4 →
                   Z.testbit m' i = true
                   ↔ Z.testbit m i = true
                     ∨ ∃ p, p ∈ part :: parts ∧ p ∈ modifier_names i)
              ∧ k' = match last (filter (λ p, ¬ is_modifier p) (part :: parts))
                     with Some p => Some p | None => k end) as Hmod.
    { intros j Hj Hin Hrec.
      assert (is_modifier part) as Hpart.
      { unfold is_modifier. rewrite !elem_of_app.
        assert (j = 0 ∨ j = 1 ∨ j = 2 ∨ j = 3) as [->|[->|[->| ->]]] by lia;
          tauto. }
      destruct (IH _ _ (lor_bit_range m j Hm Hj) Hrec)
        as (Hm' & Hall & Hbits & Hk').
      split; [done|]. split; [constructor; [by left|done]|]. split.
      - intros i Hi. rewrite (Hbits i Hi), testbit_lor_bit by done.
        rewrite orb_true_iff, bool_decide_eq_true. split.
        + intros [[?| ->]|(p & Hp & Hpi)]; [by left| |].
          * right. exists part. split; [by left|done].
          * right. exists p. split; [by right|done].
        + intros [?|(p & [->|Hp]%elem_of_cons & Hpi)]; [by left; left| |].
          * destruct (decide (i = j)) as [->|Hij]; [by left; right|].
            exfalso. apply Hij.
            by apply (modifier_names_disjoint i j part).
          * right. by exists p.
      - rewrite filter_cons_False by (by intros Hn; apply Hn). done. }
    repeat case_bool_decide.
    + apply (Hmod 0); [lia|done|done].
    + apply (Hmod 1); [lia| |done]. subst. by left.
    + apply (Hmod 2); [lia|done|done].
    + apply (Hmod 3); [lia|done|done].
    + destruct (Nat.eqb_spec (length part) 1) as [Hlen|]; [|done].
      assert (¬ is_modifier part) as Hpart by by apply not_modifier.
      destruct (IH _ _ Hm Hparse) as (Hm' & Hall & Hbits & Hk').
      split; [done|]. split; [constructor; [by right|done]|]. split.
      * intros i Hi. rewrite (Hbits i Hi). split.
        -- intros [?|(p & Hp & Hpi)]; [by left|].
           right. exists p. split; [by right|done].
        -- intros [?|(p & [->|Hp]%elem_of_cons & Hpi)]; [by left| |].
           ++ exfalso. apply Hpart. unfold is_modifier. rewrite !elem_of_app.
              assert (i = 0 ∨ i = 1 ∨ i = 2 ∨ i = 3) as [->|[->|[->| ->]]]
                by lia; tauto.
           ++ right. by exists p.
      * rewrite filter_cons_True by done. rewrite last_cons.
        by destruct (last _).
Qed.

Lemma parse_parts_None parts m k :
  parse_parts parts m k = None →
  Exists (λ p, ¬ is_modifier p ∧ length p ≠ 1%nat) parts.
Proof.
  revert m k. induction parts as [|part parts IH]; intros m k Hparse; [done|].
  cbn [parse_parts] in Hparse.
  repeat case_bool_decide; try (apply Exists_cons_tl; by eapply IH).
  destruct (Nat.eqb_spec (length part) 1) as [Hlen|Hlen];
    [apply Exists_cons_tl; by eapply IH|].
  apply Exists_cons_hd. split; [by apply not_modifier|done].
Qed.

(** X24 (what [_parse_hotkey] accepts).  The parts of a hotkey are its
    pieces between [+], stripped and lowered.  When [_parse_hotkey] gives
    [(modifiers, key)]: the hotkey is not empty, every part is the name of
    a modifier or has one code point, the key is the last part that is
    not the name of a modifier and has one code point, the mask is below
    16, and bit [i] of the mask is set exactly when a name of modifier [i]
    is among the parts, in any order and any number of times.  When it
    gives [(None, None)]: the hotkey is empty, or a part that is not the
    name of a modifier has not one code point, or every part is the name
    of a modifier. *)
Theorem parse_hotkey_characterised (hotkey : str) :
  let parts := hotkey_parts lower hotkey in
  match _parse_hotkey lower hotkey with
  | Some (modifiers, key) =>
      hotkey ≠ []
      ∧ 0 ≤ modifiers < 16
      ∧ length key = 1%nat
      ∧ ¬ is_modifier key
      ∧ last (filter (λ p, ¬ is_modifier p) parts) = Some key
      ∧ Forall (λ p, is_modifier p ∨ length p = 1%nat) parts
      ∧ ∀ i, 0 ≤ i < 4 →
          Z.testbit modifiers i = true ↔ ∃ p, p ∈ parts ∧ p ∈ modifier_names i
  | None =>
      hotkey = []
      ∨ Exists (λ p, ¬ is_modifier p ∧ length p ≠ 1%nat) parts
      ∨ Forall is_modifier parts
  end.
Proof.
  cbv zeta. unfold _parse_hotkey.
  destruct hotkey as [|c hotkey']; [by left|]. simpl negb. cbv iota.
  set (hotkey := c :: hotkey'). set (parts := hotkey_parts lower hotkey).
  destruct (parse_parts parts 0 None) as [[modifiers [key|]]|] eqn:Hparse.
  - destruct (parse_parts_Some parts 0 None modifiers (Some key))
      as (Hm & Hall & Hbits & Hkey); [lia|done|].
    destruct (last (filter (λ p, ¬ is_modifier p) parts)) as [p|] eqn:Hlast;
      [|done].
    injection Hkey as ->.
    apply last_Some_elem_of, list_elem_of_filter in Hlast as Hp.
    destruct Hp as [Hnot Hin].
    split_and!; try done; try lia.
    + eapply Forall_forall in Hall; [|exact Hin]. by destruct Hall.
    + intros i Hi. rewrite (Hbits i Hi). split; [|by right].
      intros [Hbit|?]; [|done]. by rewrite Z.bits_0 in Hbit.
  - destruct (parse_parts_Some parts 0 None modifiers None)
      as (_ & Hall & _ & Hkey); [lia|done|].
    right. right. apply Forall_forall. intros p Hp.
    destruct (decide (is_modifier p)) as [|Hnot]; [done|].
    assert (p ∈ filter (λ p, ¬ is_modifier p) parts) as Hf
      by by apply list_elem_of_filter.
    destruct (last (filter (λ p, ¬ is_modifier p) parts)) eqn:Hlast; [done|].
    apply last_None in Hlast. rewrite Hlast in Hf. by apply elem_of_nil in Hf.
  - right. left. by eapply parse_parts_None.
Qed.

Lemma nonzero_land_pow2 fl k :
  0 ≤ k → nonzero (Z.land fl (2 ^ k)) = Z.testbit fl k.
Proof.
  intros Hk. unfold nonzero. destruct (Z.testbit fl k) eqn:Hb.
  - destruct (Z.eqb_spec (Z.land fl (2 ^ k)) 0) as [H0|]; [|done].
    assert (Z.testbit (Z.land fl (2 ^ k)) k = true) as Hbit
      by by rewrite Z.land_spec, Hb, Z.pow2_bits_true.
    by rewrite H0, Z.bits_0 in Hbit.
  - assert (Z.land fl (2 ^ k) = 0) as ->; [|done].
    apply Z.bits_inj'. intros n Hn.
    rewrite Z.land_spec, Z.bits_0, Z.pow2_bits_eqb by done.
    destruct (Z.eqb_spec k n) as [->|]; [by rewrite Hb|by rewrite andb_false_r].
Qed.

Lemma modifiers_match_spec required fl :
  modifiers_match required fl = true
  ↔ ∀ i, 0 ≤ i < 4 →
      Z.testbit required i = true → Z.testbit fl (quartz_bit i) = true.
Proof.
  unfold modifiers_match.
  change kCGEventFlagMaskCommand with (2 ^ 20).
  change kCGEventFlagMaskShift with (2 ^ 17).
  change kCGEventFlagMaskControl with (2 ^ 18).
  change kCGEventFlagMaskAlternate with (2 ^ 19).
  change (Z.shiftl 1 0) with (2 ^ 0). change (Z.shiftl 1 1) with (2 ^ 1).
  change (Z.shiftl 1 2) with (2 ^ 2). change (Z.shiftl 1 3) with (2 ^ 3).
  rewrite !nonzero_land_pow2 by lia. split.
  - intros Hm i Hi Hbit.
    assert (i = 0 ∨ i = 1 ∨ i = 2 ∨ i = 3) as [->|[->|[->| ->]]] by lia;
      match goal with
      | |- context [quartz_bit ?i] =>
          let v := eval vm_compute in (quartz_bit i) in
          change (quartz_bit i) with v
      end;
      rewrite Hbit in Hm;
      destruct (Z.testbit fl 20), (Z.testbit fl 17), (Z.testbit fl 18),
        (Z.testbit fl 19); try done;
      repeat match type of Hm with
      | context [if Z.testbit required ?k then _ else _] =>
          destruct (Z.testbit required k)
      end; done.
  - intros Hall.
    pose proof (Hall 0 ltac:(lia)) as H0. pose proof (Hall 1 ltac:(lia)) as H1.
    pose proof (Hall 2 ltac:(lia)) as H2. pose proof (Hall 3 ltac:(lia)) as H3.
    change (quartz_bit 0) with 20 in H0. change (quartz_bit 1) with 17 in H1.
    change (quartz_bit 2) with 18 in H2. change (quartz_bit 3) with 19 in H3.
    destruct (Z.testbit required 0), (Z.testbit required 1),
      (Z.testbit required 2), (Z.testbit required 3);
      rewrite ?H0, ?H1, ?H2, ?H3 by done; done.
Qed.

Lemma event_callback_cases event self :
  _event_callback lower event self = self
  ∨ (_is_popup_visible self = false
     ∧ _event_callback lower event self = fired self).
Proof.
  unfold _event_callback.
  destruct (flags event) as [fl|]; [|by left].
  destruct (charactersIgnoringModifiers event) as [[[|c rest]|]|];
    try by left.
  destruct (_ && _); [|by left].
  destruct (_is_popup_visible self) eqn:Hv; [by left|by right].
Qed.

(** X25 (the hotkey is debounced).  Over any run of key events the handler
    calls its callback at most once: either nothing changes, or the popup
    was not visible and the only change is that it is now marked visible
    with one more call.  While the popup is marked visible no event
    changes the handler, and the registered key and modifiers are never
    changed by events. *)
Theorem hotkey_is_debounced (events : list key_event) (self : t) :
  let self' := key_events lower events self in
  (self' = self
   ∨ (_is_popup_visible self = false ∧ self' = fired self))
  ∧ (callbacks self' ≤ S (callbacks self))%nat
  ∧ (_is_popup_visible self = true → self' = self)
  ∧ _required_modifiers self' = _required_modifiers self
  ∧ _required_key self' = _required_key self.
Proof.
  cbv zeta.
  assert (key_events lower events self = self
          ∨ (_is_popup_visible self = false
             ∧ key_events lower events self = fired self)) as Hcases.
  { unfold key_events.
    induction events as [|event events IH] using rev_ind; [by left|].
    rewrite foldl_app. simpl.
    destruct IH as [->|[Hv ->]].
    - apply event_callback_cases.
    - right. split; [done|].
      by destruct (event_callback_cases event (fired self)) as [->|[? _]]. }
  split; [done|].
  destruct Hcases as [->|[Hv ->]].
  - split_and!; [lia|done|done|done].
  - split_and!; [simpl; lia|by rewrite Hv|done|done].
Qed.

(** X26 (a registered hotkey fires on its key).  When [register_hotkey]
    answers [True], the handler holds the mask and the key that
    [_parse_hotkey] gives and an event tap, and its popup flag and its
    count of calls are unchanged.  In every state that holds this mask
    and key, a key event calls the callback, once, and marks the popup
    visible exactly when the popup is not marked visible, the event gives
    its flags and a first character, the lowered character is the key and
    every modifier of the mask is held (other modifiers may be held too).
    Every other event leaves the handler as it is: a matching event while
    the popup is marked visible, an event whose flags or characters are
    missing or raise, another key, a modifier of the mask that is not
    held.  After [reset_popup_state] a matching event fires again. *)
Theorem registered_hotkey_fires
    (env : environment) (hotkey : str) (self self1 : t) :
  register_hotkey lower env hotkey self = (true, self1) →
  ∃ modifiers key,
    _parse_hotkey lower hotkey = Some (modifiers, key)
    ∧ _required_modifiers self1 = modifiers
    ∧ _required_key self1 = Some key
    ∧ _event_tap self1 = true
    ∧ _is_popup_visible self1 = _is_popup_visible self
    ∧ callbacks self1 = callbacks self
    ∧ ∀ (event : key_event) (s : t),
        _required_modifiers s = modifiers →
        _required_key s = Some key →
        let matches :=
          ∃ fl c rest,
            flags event = Returns fl
            ∧ charactersIgnoringModifiers event = Returns (Some (c :: rest))
            ∧ lower [c] = key
            ∧ ∀ i, 0 ≤ i < 4 →
                Z.testbit modifiers i = true →
                Z.testbit fl (quartz_bit i) = true in
        (matches → _is_popup_visible s = false →
         _event_callback lower event s = fired s)
        ∧ (_is_popup_visible s = true → _event_callback lower event s = s)
        ∧ (¬ matches → _event_callback lower event s = s)
        ∧ (_event_callback lower event s = fired s
           ↔ matches ∧ _is_popup_visible s = false)
        ∧ (matches →
           _event_callback lower event
             (reset_popup_state (_event_callback lower event s))
           = fired (reset_popup_state (_event_callback lower event s))).
Proof.
  unfold register_hotkey. intros Hreg.
  destruct (PYOBJC_AVAILABLE env); [|done]. simpl in Hreg.
  destruct (trusted env) as [[|]|]; try done.
  destruct (_parse_hotkey lower hotkey) as [[modifiers key]|]; [|done].
  destruct (event_tap_created env) as [[|]|]; try done.
  destruct (event_tap_enabled env) as [[]|]; [|done].
  injection Hreg as <-. exists modifiers, key. simpl.
  split_and!; try done.
  intros event s Hsm Hsk. cbv zeta.
  set (matches := ∃ fl c rest, _).
  assert (∀ s', _required_modifiers s' = modifiers →
                _required_key s' = Some key →
                matches → _is_popup_visible s' = false →
                _event_callback lower event s' = fired s') as Hfire.
  { intros [hk tap vis rm rk cb]. simpl.
    intros -> -> (fl & c & rest & Hfl & Hch & Hkey & Hmods) ->.
    apply modifiers_match_spec in Hmods.
    unfold _event_callback, fired. simpl.
    rewrite Hfl, Hch, Hmods, Hkey.
    rewrite bool_decide_eq_true_2 by done. done. }
  assert (∀ s', _is_popup_visible s' = true →
                _event_callback lower event s' = s') as Hvisible.
  { intros s' Hv.
    destruct (event_callback_cases event s') as [?|[Hv' _]]; [done|].
    congruence. }
  assert (¬ matches → _event_callback lower event s = s) as Hother.
  { intros Hno. unfold _event_callback.
    destruct (flags event) as [fl|] eqn:Hfl; [|done].
    destruct (charactersIgnoringModifiers event) as [[[|c rest]|]|] eqn:Hch;
      try done.
    rewrite Hsm, Hsk.
    destruct (modifiers_match modifiers fl) eqn:Hm; [|done].
    case_bool_decide as Hkey; [|done]. exfalso. apply Hno.
    exists fl, c, rest. split_and!; [done|done|congruence|].
    by apply modifiers_match_spec. }
  assert (fired s ≠ s) as Hne.
  { intros Heq. apply (f_equal callbacks) in Heq. simpl in Heq. lia. }
  split_and!.
  - by apply Hfire.
  - apply Hvisible.
  - exact Hother.
  - split; [|intros [? ?]; by apply Hfire].
    intros Hfired. destruct (_is_popup_visible s) eqn:Hv.
    + rewrite Hvisible in Hfired by done. by destruct Hne.
    + split; [|done]. unfold _event_callback in Hfired.
      destruct (flags event) as [fl|] eqn:Hfl; [|by destruct Hne].
      destruct (charactersIgnoringModifiers event) as [[[|c rest]|]|] eqn:Hch;
        try by destruct Hne.
      rewrite Hsm, Hsk in Hfired.
      destruct (modifiers_match modifiers fl) eqn:Hm; [|by destruct Hne].
      case_bool_decide as Hkey; [|by destruct Hne].
      exists fl, c, rest. split_and!; [done|done|congruence|].
      by apply modifiers_match_spec.
  - intros Hm.
    apply Hfire; [..|done|done].
    + by destruct (event_callback_cases event s) as [->|[_ ->]].
    + by destruct (event_callback_cases event s) as [->|[_ ->]].
Qed.

End HotkeyFacts.

Lemma registered_hotkey_fires_witness :
  HotkeyHandlerMacOS.register_hotkey PyStr.ascii_lower trusting_environment
      (str_of_string "Cmd+Shift+V") HotkeyHandlerMacOS.__init__
    = (true, registered_handler)
  ∧ (∃ (modifiers : Z) (key : str),
       HotkeyHandlerMacOS._parse_hotkey PyStr.ascii_lower
         (str_of_string "Cmd+Shift+V") =
       Some (modifiers, key)
       ∧ HotkeyHandlerMacOS._required_modifiers registered_handler =
         modifiers
         ∧ HotkeyHandlerMacOS._required_key registered_handler = Some key
           ∧ HotkeyHandlerMacOS._event_tap registered_handler = true
             ∧ HotkeyHandlerMacOS._is_popup_visible registered_handler =
               HotkeyHandlerMacOS._is_popup_visible
                 HotkeyHandlerMacOS.__init__
               ∧ HotkeyHandlerMacOS.callbacks registered_handler =
                 HotkeyHandlerMacOS.callbacks HotkeyHandlerMacOS.__init__
                 ∧ ∀ (event : HotkeyHandlerMacOS.key_event) 
                     (s : HotkeyHandlerMacOS.t),
                     HotkeyHandlerMacOS._required_modifiers s = modifiers
                     → HotkeyHandlerMacOS._required_key s = Some key
                       → let matches :=
                           ∃ (fl : Z) (c : N) (rest : str),
                             HotkeyHandlerMacOS.flags event = Returns fl
                             ∧ HotkeyHandlerMacOS.charactersIgnoringModifiers
                                 event =
                               Returns (Some (c :: rest))
                               ∧ PyStr.ascii_lower [c] = key
                                 ∧ ∀ i : Z,
                                     0 ≤ i < 4
                                     → Z.testbit modifiers i = true
                                       → Z.testbit fl (quartz_bit i) =
                                         true
                           in
                         (matches
                          → HotkeyHandlerMacOS._is_popup_visible s =
                            false
                            → HotkeyHandlerMacOS._event_callback
                                PyStr.ascii_lower event s =
                              fired s)
                         ∧ (HotkeyHandlerMacOS._is_popup_visible s = true
                            → HotkeyHandlerMacOS._event_callback
                                PyStr.ascii_lower event s =
                              s)
                           ∧ (¬ matches
                              → HotkeyHandlerMacOS._event_callback
                                  PyStr.ascii_lower event s =
                                s)
                             ∧ (HotkeyHandlerMacOS._event_callback
                                  PyStr.ascii_lower event s =
                                fired s
                                ↔ matches
                                  ∧ HotkeyHandlerMacOS._is_popup_visible
                                      s =
                                    false)
                               ∧ (matches
                                  → HotkeyHandlerMacOS._event_callback
                                      PyStr.ascii_lower event
                                      (HotkeyHandlerMacOS.reset_popup_state
                                         (HotkeyHandlerMacOS._event_callback
                                            PyStr.ascii_lower event s)) =
                                    fired
                                      (HotkeyHandlerMacOS.reset_popup_state
                                         (HotkeyHandlerMacOS._event_callback
                                            PyStr.ascii_lower event s)))).
Proof.
  assert (HotkeyHandlerMacOS.register_hotkey PyStr.ascii_lower trusting_environment
            (str_of_string "Cmd+Shift+V") HotkeyHandlerMacOS.__init__
          = (true, registered_handler))
    as H1
    by (reflexivity).
  split; [exact H1|].
  exact (registered_hotkey_fires PyStr.ascii_lower trusting_environment
           (str_of_string "Cmd+Shift+V") HotkeyHandlerMacOS.__init__
           registered_handler H1).
Defined.

(** Hotkeys of the settings panel, with [str.lower] on ASCII. *)
Example parse_hotkey_samples :
  (λ hotkey, HotkeyHandlerMacOS._parse_hotkey PyStr.ascii_lower
               (str_of_string hotkey))
  <$> ["Cmd+Shift+V"; " ctrl + Alt + x "; "v"; "Cmd+Shift"; "Cmd+F1";
       "Cmd++"; ""]%string
  = [Some (3, str_of_string "v"); Some (12, str_of_string "x");
     Some (0, str_of_string "v"); None; None; None; None].
Proof. vm_compute. reflexivity. Qed.

(** The default hotkey: Command, Shift and Caps Lock held with [V] fires
    once; Command alone with [V] does not. *)
Example default_hotkey_events :
  let press fl :=
    {| HotkeyHandlerMacOS.flags := Returns fl;
       HotkeyHandlerMacOS.charactersIgnoringModifiers :=
         Returns (Some (str_of_string "V")) |} in
  HotkeyHandlerMacOS.callbacks
    (HotkeyHandlerMacOS.key_events PyStr.ascii_lower
       [press 0x130000; press 0x120000] registered_handler) = 1%nat
  ∧ HotkeyHandlerMacOS.callbacks
      (HotkeyHandlerMacOS.key_events PyStr.ascii_lower
         [press 0x100000] registered_handler) = 0%nat.
Proof. vm_compute. repeat split. Qed.

(** ** The first version of the history *)

Section LegacyFacts.
Import Legacy.

Lemma filter_ne_absent (x : str) (l : list str) :
  x ∉ l → filter (λ y, y ≠ x) l = l.
Proof.
  induction l as [|y l IH]; [done|]. rewrite not_elem_of_cons.
  intros [Hne Hnot]. rewrite filter_cons_True by done. f_equal. by apply IH.
Qed.

Lemma remove_first_filter x (l : list str) :
  NoDup l → remove_first x l = filter (λ y, y ≠ x) l.
Proof.
  induction 1 as [|y l Hy Hl IH]; [done|]. simpl.
  destruct (decide (y = x)) as [->|Hne].
  - rewrite filter_cons_False by (by intros Hn; apply Hn).
    by rewrite filter_ne_absent.
  - rewrite filter_cons_True by done. by rewrite IH.
Qed.

(** [add_to_memory] on a list without duplicates. *)
Lemma add_to_memory_spec text h :
  NoDup h →
  add_to_memory text h = take MAX_ITEMS (text :: filter (λ y, y ≠ text) h).
Proof.
  intros Hnd. unfold add_to_memory.
  assert ((if bool_decide (text ∈ h) then remove_first text h else h)
          = filter (λ y, y ≠ text) h) as ->.
  { case_bool_decide; [by apply remove_first_filter|].
    by rewrite filter_ne_absent. }
  destruct (Nat.ltb_spec MAX_ITEMS
              (length (text :: filter (λ y, y ≠ text) h))); [done|].
  by rewrite take_ge.
Qed.

Lemma add_to_memory_NoDup text h : NoDup h → NoDup (add_to_memory text h).
Proof.
  intros Hnd. rewrite add_to_memory_spec by done.
  eapply sublist_NoDup; [|apply sublist_take]. apply NoDup_cons. split.
  - rewrite list_elem_of_filter. by intros [Hne _].
  - by apply NoDup_filter.
Qed.

Lemma add_to_memory_elem_of x text h :
  x ∈ add_to_memory text h → x = text ∨ x ∈ h.
Proof.
  unfold add_to_memory. intros Hx.
  assert (x ∈ text :: (if bool_decide (text ∈ h)
                       then remove_first text h else h)) as Hin.
  { destruct (_ <? _)%nat; [by eapply subseteq_take|done]. }
  apply elem_of_cons in Hin as [->|Hin]; [by left|right].
  case_bool_decide; [|done].
  clear -Hin. induction h as [|y h IH]; [done|]. simpl in Hin.
  destruct (decide (y = text)); [by right|].
  apply elem_of_cons in Hin as [->|Hin]; [by left|right; by apply IH].
Qed.

Lemma add_to_memory_length text h :
  (length (add_to_memory text h) ≤ MAX_ITEMS)%nat.
Proof.
  unfold add_to_memory.
  destruct (Nat.ltb_spec MAX_ITEMS
    (length (text :: (if bool_decide (text ∈ h)
                      then remove_first text h else h)))); [|done].
  rewrite length_take. lia.
Qed.

Lemma add_to_memory_head text h : head (add_to_memory text h) = Some text.
Proof. unfold add_to_memory. by destruct (_ <? _)%nat. Qed.

(** X27 (the first version of the history).  After any run of
    [add_to_memory] calls on the empty list, the list holds at most
    [MAX_ITEMS] = 20 texts, no text twice, and only texts that were added;
    the last call put its text in front of the others, in their order,
    and cut the list to 20. *)
Theorem legacy_history_is_bounded_and_distinct (texts : list str) :
  let history := foldl (λ h text, add_to_memory text h) [] texts in
  (length history ≤ MAX_ITEMS)%nat
  ∧ NoDup history
  ∧ (∀ x, x ∈ history → x ∈ texts)
  ∧ (∀ before text, texts = before ++ [text] →
       history
       = take MAX_ITEMS
           (text :: filter (λ y, y ≠ text)
                      (foldl (λ h text, add_to_memory text h) [] before))).
Proof.
  cbv zeta.
  assert (∀ ts,
            (length (foldl (λ h text, add_to_memory text h) [] ts)
             ≤ MAX_ITEMS)%nat
            ∧ NoDup (foldl (λ h text, add_to_memory text h) [] ts)
            ∧ ∀ x, x ∈ foldl (λ h text, add_to_memory text h) [] ts → x ∈ ts)
    as Hinv.
  { induction ts as [|t ts IH] using rev_ind.
    - split_and!; [simpl; lia|constructor|done].
    - rewrite foldl_app. simpl. destruct IH as (Hlen & Hnd & Hsub).
      split_and!; [apply add_to_memory_length|by apply add_to_memory_NoDup|].
      intros x [->|Hx]%add_to_memory_elem_of; apply elem_of_app;
        [right; by left|left; by apply Hsub]. }
  destruct (Hinv texts) as (Hlen & Hnd & Hsub).
  split_and!; [done|done|done|].
  intros before text ->. rewrite foldl_app. simpl.
  apply add_to_memory_spec. by destruct (Hinv before) as (_ & ? & _).
Qed.

(** The invariant of the loop of [start_watcher]. *)
Lemma round_invariant w paste :
  Forall (λ x, PyStr.strip x ≠ []) (clipboard_history w) →
  NoDup (clipboard_history w) →
  (last_clip w = [] ∧ clipboard_history w = []
   ∨ head (clipboard_history w) = Some (last_clip w)) →
  Forall (λ x, PyStr.strip x ≠ []) (clipboard_history (round w paste))
  ∧ NoDup (clipboard_history (round w paste))
  ∧ (last_clip (round w paste) = [] ∧ clipboard_history (round w paste) = []
     ∨ head (clipboard_history (round w paste))
       = Some (last_clip (round w paste))).
Proof.
  intros Hall Hnd Hlast. unfold round.
  destruct paste as [current_clip|]; [|done].
  destruct (negb _) eqn:Hne; simpl; [|done].
  destruct (PyStr.truthy (PyStr.strip current_clip)) eqn:Hs; [|done].
  simpl. split_and!.
  - apply Forall_forall. intros x [->|Hx]%add_to_memory_elem_of.
    + by destruct (PyStr.strip current_clip).
    + by eapply Forall_forall in Hall.
  - by apply add_to_memory_NoDup.
  - right. apply add_to_memory_head.
Qed.

(** X28 (the first version of the watcher).  After any number of rounds
    of the loop of [start_watcher], whatever [pyperclip.paste()] gave, the
    history holds no text that is empty or only white space, no text
    twice, and at most 20 texts; the text last recorded is in front; and
    a round that finds the same text, a blank text or an exception
    changes nothing. *)
Theorem watcher_records_no_blank_text (pastes : list (call str)) :
  let w := rounds pastes start_watcher in
  Forall (λ x, PyStr.strip x ≠ []) (clipboard_history w)
  ∧ NoDup (clipboard_history w)
  ∧ (length (clipboard_history w) ≤ MAX_ITEMS)%nat
  ∧ (last_clip w = [] ∧ clipboard_history w = []
     ∨ head (clipboard_history w) = Some (last_clip w))
  ∧ round w (Returns (last_clip w)) = w
  ∧ (∀ blank, PyStr.strip blank = [] → round w (Returns blank) = w)
  ∧ round w Throws = w.
Proof.
  cbv zeta.
  assert (Forall (λ x, PyStr.strip x ≠ [])
            (clipboard_history (rounds pastes start_watcher))
          ∧ NoDup (clipboard_history (rounds pastes start_watcher))
          ∧ (last_clip (rounds pastes start_watcher) = []
             ∧ clipboard_history (rounds pastes start_watcher) = []
             ∨ head (clipboard_history (rounds pastes start_watcher))
               = Some (last_clip (rounds pastes start_watcher)))
          ∧ (length (clipboard_history (rounds pastes start_watcher))
             ≤ MAX_ITEMS)%nat) as (Hall & Hnd & Hlast & Hlen).
  { unfold rounds. induction pastes as [|p pastes IH] using rev_ind.
    - split_and!; [constructor|constructor|by left|simpl; lia].
    - rewrite foldl_app. simpl. destruct IH as (Hall & Hnd & Hlast & Hlen).
      destruct (round_invariant _ p Hall Hnd Hlast) as (? & ? & ?).
      split_and!; try done.
      unfold round. destruct p as [c|]; [|done].
      destruct (_ && _); [apply add_to_memory_length|done]. }
  split_and!; try done.
  - unfold round. by rewrite bool_decide_eq_true_2.
  - intros blank Hb. unfold round. rewrite Hb. simpl.
    by rewrite andb_false_r.
Qed.

End LegacyFacts.

(** Six rounds of the watcher. *)
Example watcher_rounds :
  Legacy.clipboard_history
    (Legacy.rounds
       [Returns (str_of_string "a"); Returns (str_of_string "a");
        Returns (str_of_string "  "); Throws; Returns (str_of_string "b");
        Returns (str_of_string "a")]
       Legacy.start_watcher)
  = [str_of_string "a"; str_of_string "b"].
Proof. vm_compute. reflexivity. Qed.
